(** * IlluminaData: filename codec, sample sheets and unique fastq names

    A shallow embedding of [share/IlluminaData.py] (Python 2).  Python
    [str] values are lists of ASCII characters, Python [int] values are [Z];
    a call that raises is [None] in an [option]. *)

From Stdlib Require Import Ascii String List Bool Arith ZArith Lia Permutation Sorted.
Import ListNotations.
Open Scope list_scope.

(** ** Python strings *)

Definition str := list ascii.

(** String literals. *)
Definition lit (s : string) : str := list_ascii_of_string s.

Definition ascii_eqb (a b : ascii) : bool := if ascii_dec a b then true else false.

Definition str_eqb (a b : str) : bool := if list_eq_dec ascii_dec a b then true else false.

Fixpoint mem_str (x : str) (l : list str) : bool :=
  match l with
  | [] => false
  | y :: r => str_eqb x y || mem_str x r
  end.

(** [s.startswith(p)] *)
Fixpoint startswith (p s : str) : bool :=
  match p, s with
  | [], _ => true
  | a :: p', b :: s' => ascii_eqb a b && startswith p' s'
  | _ :: _, [] => false
  end.

(** [s.split(c)] for a one-character separator: never empty. *)
Fixpoint split_on (c : ascii) (s : str) : list str :=
  match s with
  | [] => [[]]
  | x :: r =>
      if ascii_eqb x c then [] :: split_on c r
      else match split_on c r with
           | [] => [[x]]
           | w :: ws => (x :: w) :: ws
           end
  end.

(** [sep.join(l)] *)
Fixpoint join (sep : str) (l : list str) : str :=
  match l with
  | [] => []
  | [w] => w
  | w :: r => w ++ sep ++ join sep r
  end.

(** C [isspace], used by [str.strip()], [str.split()] and [int()]. *)
Definition isspace (c : ascii) : bool :=
  let n := nat_of_ascii c in
  (n =? 32) || ((9 <=? n) && (n <=? 13)).

Definition isdigit (c : ascii) : bool :=
  let n := nat_of_ascii c in (48 <=? n) && (n <=? 57).

(** [s.lstrip(chars)] / [s.strip(chars)] for a character predicate. *)
Fixpoint lstrip_by (p : ascii -> bool) (s : str) : str :=
  match s with
  | [] => []
  | x :: r => if p x then lstrip_by p r else s
  end.

Definition strip_by (p : ascii -> bool) (s : str) : str :=
  rev (lstrip_by p (rev (lstrip_by p s))).

(** [s.strip()] and [s.strip(c)] *)
Definition strip_ws (s : str) : str := strip_by isspace s.
Definition strip_char (c : ascii) (s : str) : str := strip_by (ascii_eqb c) s.

(** [s.replace(c, d)] for one-character [c] and [d]. *)
Definition replace_char (c d : ascii) (s : str) : str :=
  map (fun x => if ascii_eqb x c then d else x) s.

(** [s.count(c) > 0] for a one-character [c]. *)
Definition contains (c : ascii) (s : str) : bool := existsb (ascii_eqb c) s.

(** [s.split()] with no argument: runs of whitespace separate, no empty words. *)
Fixpoint split_by (p : ascii -> bool) (s : str) : list str :=
  match s with
  | [] => [[]]
  | x :: r =>
      if p x then [] :: split_by p r
      else match split_by p r with
           | [] => [[x]]
           | w :: ws => (x :: w) :: ws
           end
  end.

Definition split_ws (s : str) : list str :=
  filter (fun w => negb (match w with [] => true | _ => false end)) (split_by isspace s).

(** ** Decimal numbers *)

Definition digit_char (n : nat) : ascii := ascii_of_nat (48 + n).
Definition digit_val (c : ascii) : nat := nat_of_ascii c - 48.

(** Value of a string of decimal digits. *)
Definition dval (ds : str) : nat := fold_left (fun acc c => acc * 10 + digit_val c) ds 0.

Fixpoint show_nat_fuel (fuel n : nat) : str :=
  match fuel with
  | 0 => []
  | S f => if n <? 10 then [digit_char n]
           else show_nat_fuel f (n / 10) ++ [digit_char (n mod 10)]
  end.

(** [str(n)] for a natural number. *)
Definition show_nat (n : nat) : str := show_nat_fuel (S n) n.

(** ["%d" % z] *)
Definition show_Z (z : Z) : str :=
  if (z <? 0)%Z then "-"%char :: show_nat (Z.to_nat (- z)) else show_nat (Z.to_nat z).

Definition pad0 (w : nat) (s : str) : str := repeat "0"%char (w - length s) ++ s.

(** ["%0<w>d" % z]: the sign counts towards the width. *)
Definition fmt_pad (w : nat) (z : Z) : str :=
  if (z <? 0)%Z then "-"%char :: pad0 (w - 1) (show_nat (Z.to_nat (- z)))
  else pad0 w (show_nat (Z.to_nat z)).

(** The longest prefix of decimal digits, and what follows it. *)
Fixpoint span_digits (l : str) : str * str :=
  match l with
  | [] => ([], [])
  | c :: r => if isdigit c then let '(a, b) := span_digits r in (c :: a, b) else ([], l)
  end.

(** Python 2 [int(s)] on a [str]: surrounding whitespace, an optional sign
    (whitespace may follow it), then at least one decimal digit. *)
Definition py_int (s : str) : option Z :=
  let s1 := lstrip_by isspace s in
  let '(neg, s2) := match s1 with
                    | c :: r => if ascii_eqb c "-" then (true, r)
                                else if ascii_eqb c "+" then (false, r)
                                else (false, s1)
                    | [] => (false, s1)
                    end in
  let '(d, rest) := span_digits (lstrip_by isspace s2) in
  match d with
  | [] => None
  | _ => if forallb isspace rest
         then Some (let v := Z.of_nat (dval d) in if neg then (- v)%Z else v)
         else None
  end.

(** ** [IlluminaFastq] *)

Record fastq := mkFastq {
  sample_name : str;
  barcode_sequence : option str;
  lane_number : Z;
  read_number : Z;
  set_number : Z
}.

(** [os.path.basename]: what follows the last ['/']. *)
Fixpoint basename_aux (cur s : str) : str :=
  match s with
  | [] => rev cur
  | c :: r => if ascii_eqb c "/" then basename_aux [] r else basename_aux (c :: cur) r
  end.
Definition basename (s : str) : str := basename_aux [] s.

(** [s[:s.index('.')]], or [s] when it has no ['.']. *)
Fixpoint cut_at_dot (s : str) : str :=
  match s with
  | [] => []
  | c :: r => if ascii_eqb c "." then [] else c :: cut_at_dot r
  end.

(** [fastq_base] of [IlluminaFastq.__init__]. *)
Definition base_form (fastq_name : str) : str := cut_at_dot (basename fastq_name).

(** Python list indexing from the end, [l[-k]]; [None] is an IndexError. *)
Definition nth_from_end {A} (k : nat) (l : list A) : option A :=
  if k <=? length l then nth_error l (length l - k) else None.

Definition opt_bind {A B} (o : option A) (f : A -> option B) : option B :=
  match o with Some a => f a | None => None end.
Notation "x <- a ;; b" := (opt_bind a (fun x => b)) (at level 60, right associativity).

(** The body of [IlluminaFastq.__init__] once [fields] is computed. *)
Definition parse_fields (fields : list str) : option fastq :=
  f1 <- nth_from_end 1 fields ;;
  set_n <- py_int f1 ;;
  f2 <- nth_from_end 2 fields ;;
  r <- nth_error f2 1 ;;
  read_n <- py_int [r] ;;
  f3 <- nth_from_end 3 fields ;;
  lane_n <- py_int (skipn 1 f3) ;;
  f4 <- nth_from_end 4 fields ;;
  Some {| sample_name := join (lit "_") (firstn (length fields - 4) fields);
          barcode_sequence := if str_eqb f4 (lit "NoIndex") then None else Some f4;
          lane_number := lane_n;
          read_number := read_n;
          set_number := set_n |}.

(** [IlluminaFastq(fastq)] *)
Definition IlluminaFastq (fastq_name : str) : option fastq :=
  parse_fields (split_on "_" (base_form fastq_name)).

(** [IlluminaFastq.__repr__]: ["%s_%s_L%03d_R%d_%03d"]. *)
Definition fastq_repr (fq : fastq) : str :=
  sample_name fq ++ lit "_" ++
  (match barcode_sequence fq with None => lit "NoIndex" | Some b => b end) ++
  lit "_L" ++ fmt_pad 3 (lane_number fq) ++
  lit "_R" ++ show_Z (read_number fq) ++
  lit "_" ++ fmt_pad 3 (set_number fq).

(** ** [get_unique_fastq_names] *)

(** A Python dict as an association list: [d[k] = v] overwrites an existing
    key and otherwise adds one. *)
Fixpoint dict_set {V} (d : list (str * V)) (k : str) (v : V) : list (str * V) :=
  match d with
  | [] => [(k, v)]
  | (k', v') :: r => if str_eqb k k' then (k, v) :: r else (k', v') :: dict_set r k v
  end.

Definition templates : list str :=
  map lit ["NAME"; "NAME LANE"; "NAME TAG"; "NAME TAG LANE"; "FULL"]%string.

(** The [got_R1]/[got_R2] scan; [None] when some name does not parse. *)
Fixpoint scan_reads (fastqs : list str) (got_R1 got_R2 : bool) : option (bool * bool) :=
  match fastqs with
  | [] => Some (got_R1, got_R2)
  | f :: r =>
      fq <- IlluminaFastq f ;;
      if (read_number fq =? 1)%Z then scan_reads r true got_R2
      else if (read_number fq =? 2)%Z then scan_reads r got_R1 true
      else scan_reads r got_R1 got_R2
  end.

(** The components of one template, [for t in template.split()]. *)
Fixpoint template_parts (fq : fastq) (ts : list str) : list str :=
  match ts with
  | [] => []
  | t :: r =>
      (if str_eqb t (lit "NAME") then [sample_name fq]
       else if str_eqb t (lit "TAG") then
         match barcode_sequence fq with Some b => [b] | None => [] end
       else if str_eqb t (lit "LANE") then [lit "L" ++ fmt_pad 3 (lane_number fq)]
       else []) ++ template_parts fq r
  end.

(** The short name of one file under one template. *)
Definition render (template : str) (paired_end : bool) (fq : fastq) : str :=
  let name :=
    if str_eqb template (lit "FULL") then [fastq_repr fq]
    else template_parts fq (split_ws template) ++
         (if paired_end then [lit "R" ++ show_Z (read_number fq)] else []) in
  join (lit "_") name ++ lit ".fastq.gz".

(** The loop over [fastqs] for one template, threading
    [(name_mapping, unique_names)]. *)
Fixpoint name_loop (template : str) (paired_end : bool) (fastqs : list str)
    (st : list (str * str) * list str) : option (list (str * str) * list str) :=
  match fastqs with
  | [] => Some st
  | f :: r =>
      fq <- IlluminaFastq f ;;
      let name := render template paired_end fq in
      let '(name_mapping, unique_names) := st in
      if mem_str name unique_names then name_loop template paired_end r st
      else name_loop template paired_end r
             (dict_set name_mapping f name, unique_names ++ [name])
  end.

(** [for template in templates: ...]; [None] when every template fails
    (the final [raise]) or some name does not parse. *)
Fixpoint try_templates (ts : list str) (paired_end : bool) (fastqs : list str)
    : option (list (str * str)) :=
  match ts with
  | [] => None
  | t :: r =>
      res <- name_loop t paired_end fastqs ([], []) ;;
      let '(name_mapping, unique_names) := res in
      if length unique_names =? length fastqs then Some name_mapping
      else try_templates r paired_end fastqs
  end.

Definition get_unique_fastq_names (fastqs : list str) : option (list (str * str)) :=
  gr <- scan_reads fastqs false false ;;
  let paired_end := fst gr && snd gr in
  try_templates templates paired_end fastqs.

(** ** [CasavaSampleSheet] *)

(** A field value: [Lane] holds an [int] or a [str] depending on where the
    row came from; every other field holds a [str]. *)
Inductive pyval := PyInt (z : Z) | PyStr (s : str).

Definition pyval_eqb (a b : pyval) : bool :=
  match a, b with
  | PyInt x, PyInt y => (x =? y)%Z
  | PyStr x, PyStr y => str_eqb x y
  | _, _ => false
  end.

(** [str(v)] *)
Definition pyval_str (v : pyval) : str :=
  match v with PyInt z => show_Z z | PyStr s => s end.

Record row := mkRow {
  FCID : str; Lane : pyval; SampleID : str; SampleRef : str; Index : str;
  Description : str; Control : str; Recipe : str; Operator : str;
  SampleProject : str
}.

Definition set_SampleID (s : str) (r : row) : row :=
  {| FCID := FCID r; Lane := Lane r; SampleID := s; SampleRef := SampleRef r;
     Index := Index r; Description := Description r; Control := Control r;
     Recipe := Recipe r; Operator := Operator r; SampleProject := SampleProject r |}.

Definition set_SampleProject (s : str) (r : row) : row :=
  {| FCID := FCID r; Lane := Lane r; SampleID := SampleID r; SampleRef := SampleRef r;
     Index := Index r; Description := Description r; Control := Control r;
     Recipe := Recipe r; Operator := Operator r; SampleProject := s |}.

(** [str(line)]: the values joined with the sheet's delimiter. *)
Definition row_str (r : row) : str :=
  join (lit ",") [FCID r; pyval_str (Lane r); SampleID r; SampleRef r; Index r;
                  Description r; Control r; Recipe r; Operator r; SampleProject r].

(** A sheet is a list of rows; a row handle ("line" in the source) is its
    position, so that updates through a handle are seen by the sheet. *)
Definition sheet := list row.

Fixpoint update_nth {A} (f : A -> A) (i : nat) (l : list A) : list A :=
  match l, i with
  | [], _ => []
  | x :: r, 0 => f x :: r
  | x :: r, S j => x :: update_nth f j r
  end.

Fixpoint remove_nth {A} (i : nat) (l : list A) : list A :=
  match l, i with
  | [], _ => []
  | _ :: r, 0 => r
  | x :: r, S j => x :: remove_nth j r
  end.

(** *** [duplicated_names] *)

(** The identity tuple [(SampleID, SampleProject, Index, Lane)]. *)
Definition key : Type := (str * str * str * pyval)%type.

Definition row_key (r : row) : key := (SampleID r, SampleProject r, Index r, Lane r).

Definition key_eqb (a b : key) : bool :=
  match a, b with
  | (a1, a2, a3, a4), (b1, b2, b3, b4) =>
      str_eqb a1 b1 && str_eqb a2 b2 && str_eqb a3 b3 && pyval_eqb a4 b4
  end.

(** [samples[name].append(line)] or [samples[name] = [line]] on the dict
    [samples], held as its entries in insertion order. *)
Fixpoint add_sample (samples : list (key * list nat)) (k : key) (i : nat)
    : list (key * list nat) :=
  match samples with
  | [] => [(k, [i])]
  | (k', g) :: r => if key_eqb k k' then (k', g ++ [i]) :: r else (k', g) :: add_sample r k i
  end.

(** The first loop of [duplicated_names], over the rows and their handles. *)
Fixpoint collect_samples (rows : list row) (i : nat) (samples : list (key * list nat))
    : list (key * list nat) :=
  match rows with
  | [] => samples
  | r :: rs => collect_samples rs (S i) (add_sample samples (row_key r) i)
  end.

Fixpoint lookup_key (samples : list (key * list nat)) (k : key) : list nat :=
  match samples with
  | [] => []
  | (k', g) :: r => if key_eqb k k' then g else lookup_key r k
  end.

(** [duplicated_names].  [dict_iter] is the order in which Python 2 iterates
    over a dict whose keys were inserted in the given order (a dict is not
    ordered in Python 2); its value for CPython 2.7 is [cpython27_order]
    below. *)
Definition duplicated_names (dict_iter : list key -> list key) (t : sheet)
    : list (list nat) :=
  let samples := collect_samples t 0 [] in
  filter (fun g => 1 <? length g) (map (lookup_key samples) (dict_iter (map fst samples))).

(** ["%s_%d" % (SampleID, i+1)] on each member of one group. *)
Fixpoint suffix_group (i : nat) (dup : list nat) (t : sheet) : sheet :=
  match dup with
  | [] => t
  | h :: r =>
      suffix_group (S i) r
        (update_nth (fun l => set_SampleID (SampleID l ++ lit "_" ++ show_Z (Z.of_nat (i + 1))) l) h t)
  end.

Definition fix_duplicated_names (dict_iter : list key -> list key) (t : sheet) : sheet :=
  fold_left (fun t dup => suffix_group 0 dup t) (duplicated_names dict_iter t) t.

(** *** [illegal_names] and [fix_illegal_names] *)

(** The characters of [self.illegal_characters]: the punctuation below, the
    double quote (ASCII 34), the space and the tab (ASCII 9). *)
Definition illegal_characters : list ascii :=
  lit "?()[]/\=+<>:;" ++ [ascii_of_nat 34] ++ lit "',*^|&. " ++ [ascii_of_nat 9].

Definition is_illegal (l : row) : bool :=
  existsb (fun c => contains c (SampleID l) || contains c (SampleProject l)) illegal_characters.

Fixpoint illegal_from (i : nat) (rows : list row) : list nat :=
  match rows with
  | [] => []
  | l :: r => if is_illegal l then i :: illegal_from (S i) r else illegal_from (S i) r
  end.

Definition illegal_names (t : sheet) : list nat := illegal_from 0 t.

(** One step of the inner loop: [.strip().replace(c,'_').strip('_')]. *)
Definition fix_chunk (c : ascii) (s : str) : str :=
  strip_char "_" (replace_char c "_" (strip_ws s)).

Definition fix_line (l : row) : row :=
  fold_left (fun l c => set_SampleProject (fix_chunk c (SampleProject l))
                          (set_SampleID (fix_chunk c (SampleID l)) l))
            illegal_characters l.

Definition fix_illegal_names (t : sheet) : sheet :=
  fold_left (fun t i => update_nth fix_line i t) (illegal_names t) t.

(** *** Construction from text *)

(** Modelled from the spec: the value [TabFile] stores for a sheet's [Lane]
    (the [TabFile] module is not part of these sources).  The fields of a
    sheet are strings except [Lane], an integer: a text that [int()] reads is
    stored as that [int] (["1"] is read back as [1]), any other text as it is. *)
Definition lane_value (v : str) : pyval :=
  match py_int v with Some z => PyInt z | None => PyStr v end.

(** Modelled from the spec: the value [TabFile] stores in column [col]. *)
Definition tab_value (col v : str) : pyval :=
  if str_eqb col (lit "Lane") then lane_value v else PyStr v.

(** Modelled from the spec: [TabFile.TabFile] reading delimited text.  The
    text is cut into lines at newlines; blank lines and comment lines (whose
    first cell starts with ['#']) are ignored, and each other line is split
    on the delimiter. *)
Definition tabfile_lines (delimiter : ascii) (text : str) : list (list str) :=
  map (split_on delimiter)
      (filter (fun l => negb (match strip_ws l with [] => true | _ => false end)
                        && negb (startswith (lit "#") l))
              (split_on "010"%char text)).

(** Modelled from the spec: a row of the 10 canonical columns from the values
    of one text line, [Lane] stored as [lane_value]; a line that does not split
    into exactly 10 fields is a schema error. *)
Definition row_of_fields (vs : list str) : option row :=
  match vs with
  | [f; l; sid; sref; idx; desc; ctl; rec; op; proj] =>
      Some {| FCID := f; Lane := lane_value l; SampleID := sid; SampleRef := sref;
              Index := idx; Description := desc; Control := ctl; Recipe := rec;
              Operator := op; SampleProject := proj |}
  | _ => None
  end.

Fixpoint rows_of_fields (ls : list (list str)) : option (list row) :=
  match ls with
  | [] => Some []
  | vs :: r => x <- row_of_fields vs ;; xs <- rows_of_fields r ;; Some (x :: xs)
  end.

(** [line[name] = str(line[name]).strip(q)] for every column, [q] being the
    double quote character; the new [Lane] is stored as [lane_value]. *)
Definition unquote_line (l : row) : row :=
  let q := strip_char (ascii_of_nat 34) in
  {| FCID := q (FCID l); Lane := lane_value (q (pyval_str (Lane l)));
     SampleID := q (SampleID l); SampleRef := q (SampleRef l); Index := q (Index l);
     Description := q (Description l); Control := q (Control l); Recipe := q (Recipe l);
     Operator := q (Operator l); SampleProject := q (SampleProject l) |}.

(** [for i,line in enumerate(self): if str(line).startswith('#'): del(self[i])]:
    the iterator and the counter both stand at [i]; a deletion shifts the
    rows after [i] down while the iteration goes on at [i+1].  Each step
    moves [i] on, so [length t] steps reach the end. *)
Fixpoint drop_commented (fuel i : nat) (t : sheet) : sheet :=
  match fuel with
  | 0 => t
  | S f =>
      match nth_error t i with
      | None => t
      | Some line =>
          if startswith (lit "#") (row_str line) then drop_commented f (S i) (remove_nth i t)
          else drop_commented f (S i) t
      end
  end.

(** [fp.readline()]: up to and including the next newline; [[]] at the end. *)
Fixpoint readline (s : str) : str * str :=
  match s with
  | [] => ([], [])
  | c :: r => if ascii_eqb c "010"%char then ([c], r)
              else let '(l, rest) := readline r in (c :: l, rest)
  end.

(** [CasavaSampleSheet(fp=...)]: load with [skip_first_line=True] (the first
    line of the text is passed over), remove double quotes, then drop
    commented lines. *)
Definition CasavaSampleSheet_init (text : str) : option sheet :=
  rows <- rows_of_fields (tabfile_lines "," (snd (readline text))) ;;
  let t := map unquote_line rows in
  Some (drop_commented (length t) 0 t).

(** ** [get_casava_sample_sheet] *)

(** What the format sniffing hands on to [TabFile]. *)
Inductive sheet_format :=
  | Sectioned (rest : str)
  | Flat (column_names : list str) (rest : str)
  | Unrecognised
  | OutOfFuel.

(** [while not line.startswith('[Data]'): line = sample_sheet_fp.readline()],
    run for at most [fuel] tests of the condition. *)
Fixpoint skip_to_data (fuel : nat) (line rest : str) : sheet_format :=
  match fuel with
  | 0 => OutOfFuel
  | S f => if startswith (lit "[Data]") line then Sectioned rest
           else let '(l, r) := readline rest in skip_to_data f l r
  end.

(** The opening of [get_casava_sample_sheet], up to the [raise]. *)
Definition read_format (fuel : nat) (stream : str) : sheet_format :=
  let '(line, rest) := readline stream in
  if startswith (lit "[Header]") line then skip_to_data fuel line rest
  else if contains "," line then Flat (split_on "," line) rest
  else Unrecognised.

(** A [TabFile] line read with a header: the stored values by column name. *)
Definition tab_line := list (str * pyval).

(** [line[name]]; [None] is the [KeyError] of a missing column. *)
Fixpoint tab_get (line : tab_line) (name : str) : option pyval :=
  match line with
  | [] => None
  | (k, v) :: r => if str_eqb k name then Some v else tab_get r name
  end.

(** [line[col] = str(line[col]).strip(q)] over the columns ([q] the double
    quote), each new value stored as [tab_value] does. *)
Definition clean_line (line : tab_line) : tab_line :=
  map (fun kv => (fst kv, tab_value (fst kv) (strip_char (ascii_of_nat 34) (pyval_str (snd kv)))))
      line.

Definition is_initial_sep (c : ascii) : bool :=
  ascii_eqb c "-" || ascii_eqb c "_" || ascii_eqb c " ".

Definition is_alpha (c : ascii) : bool :=
  let n := nat_of_ascii c in ((65 <=? n) && (n <=? 90)) || ((97 <=? n) && (n <=? 122)).

Definition upper (c : ascii) : ascii :=
  let n := nat_of_ascii c in if (97 <=? n) && (n <=? 122) then ascii_of_nat (n - 32) else c.

(** Modelled from the spec: [bcf_utils.extract_initials] (its module is not
    part of these sources): the leading letter of each hyphen-, underscore-
    or space-delimited word, uppercased. *)
Definition extract_initials (name : str) : str :=
  flat_map (fun w => match w with c :: _ => if is_alpha c then [upper c] else [] | [] => [] end)
           (split_by is_initial_sep name).

(** Modelled from the spec: the line returned by [sample_sheet.append()],
    with empty strings and a zero lane. *)
Definition empty_row : row :=
  {| FCID := []; Lane := PyInt 0; SampleID := []; SampleRef := []; Index := [];
     Description := []; Control := []; Recipe := []; Operator := []; SampleProject := [] |}.

(** The body of the [experiment_manager_format] loop for one line.  The
    string fields of the new row take [str] of the values, which are the
    [str] values themselves in the columns other than [Lane] ([tab_value]). *)
Definition convert_em_line (FCID_default : str) (line : tab_line) : option row :=
  let lane := match tab_get line (lit "Lane") with
              | Some v => v
              | None => PyInt 1
              end in
  let index_tag := match tab_get line (lit "index"), tab_get line (lit "index2") with
                   | Some a, Some b => pyval_str a ++ lit "-" ++ pyval_str b
                   | _, _ => match tab_get line (lit "index") with
                             | Some a => pyval_str a
                             | None => []
                             end
                   end in
  sid <- tab_get line (lit "Sample_ID") ;;
  desc <- tab_get line (lit "Description") ;;
  proj <- tab_get line (lit "Sample_Project") ;;
  Some {| FCID := FCID_default; Lane := lane; SampleID := pyval_str sid; SampleRef := [];
          Index := index_tag; Description := pyval_str desc; Control := []; Recipe := [];
          Operator := []; SampleProject :=
            if pyval_eqb proj (PyStr []) then extract_initials (pyval_str sid)
            else pyval_str proj |}.

Fixpoint map_opt {A B} (f : A -> option B) (l : list A) : option (list B) :=
  match l with
  | [] => Some []
  | x :: r => y <- f x ;; ys <- map_opt f r ;; Some (y :: ys)
  end.

(** Modelled from the spec: [TabFile] lines paired with the column names, each
    value stored as [tab_value]; a line with a different number of fields is a
    row-shape error. *)
Definition with_header (hdr : list str) (vals : list str) : option tab_line :=
  if length vals =? length hdr
  then Some (map (fun kv => (fst kv, tab_value (fst kv) (snd kv))) (combine hdr vals))
  else None.

Inductive casava_result :=
  | CasavaSheet (t : sheet)
  | CasavaError
  | CasavaOutOfFuel.

(** The standard-format loop for one (cleaned) line: skip comments and blank
    lines, otherwise [sample_sheet.append(tabdata=str(line))]. *)
Definition convert_std_line (line : tab_line) : option (list row) :=
  let s := join (lit ",") (map (fun kv => pyval_str (snd kv)) line) in
  let first := match line with (_, v) :: _ => pyval_str v | [] => [] end in
  if startswith (lit "#") first || match strip_ws s with [] => true | _ => false end
  then Some []
  else r <- row_of_fields (split_on "," s) ;; Some [r].

(** [get_casava_sample_sheet(fp=stream, FCID_default=...)]. *)
Definition get_casava_sample_sheet (fuel : nat) (FCID_default stream : str) : casava_result :=
  let to_result o := match o with Some t => CasavaSheet t | None => CasavaError end in
  match read_format fuel stream with
  | Sectioned rest =>
      match tabfile_lines "," rest with
      | [] => CasavaSheet []
      | hdr :: rows =>
          to_result (lines <- map_opt (with_header hdr) rows ;;
                     map_opt (fun l => convert_em_line FCID_default (clean_line l)) lines)
      end
  | Flat cols rest =>
      to_result (lines <- map_opt (with_header cols) (tabfile_lines "," rest) ;;
                 rs <- map_opt (fun l => convert_std_line (clean_line l)) lines ;;
                 Some (concat rs))
  | Unrecognised => CasavaError
  | OutOfFuel => CasavaOutOfFuel
  end.

(** ** Iteration order of a CPython 2.7 dict (64-bit [long], no hash
    randomisation) *)

Module CPython27.

(** A C [long]: the signed 64-bit value of [z]. *)
Definition wrap (z : Z) : Z :=
  let m := (z mod 2 ^ 64)%Z in if (m >=? 2 ^ 63)%Z then (m - 2 ^ 64)%Z else m.

Definition fix_minus_one (x : Z) : Z := if (x =? -1)%Z then (-2)%Z else x.

(** [string_hash] *)
Definition str_hash (s : str) : Z :=
  match s with
  | [] => 0%Z
  | c :: _ =>
      let x0 := Z.shiftl (Z.of_nat (nat_of_ascii c)) 7 in
      let x := fold_left (fun x ch => Z.lxor (wrap (1000003 * x)) (Z.of_nat (nat_of_ascii ch))) s x0 in
      fix_minus_one (Z.lxor x (Z.of_nat (length s)))
  end.

(** [int_hash] for values that fit a C [long]. *)
Definition int_hash (z : Z) : Z := fix_minus_one z.

Definition pyval_hash (v : pyval) : Z :=
  match v with PyInt z => int_hash z | PyStr s => str_hash s end.

(** [tuplehash], with [len] the count of items still to come. *)
Fixpoint tuple_hash_aux (ys : list Z) (x mult : Z) : Z :=
  match ys with
  | [] => x
  | y :: r =>
      let len := Z.of_nat (length r) in
      tuple_hash_aux r (wrap (Z.lxor x y * mult)) (wrap (mult + 82520 + len + len))
  end.

Definition tuple_hash (ys : list Z) : Z :=
  fix_minus_one (wrap (tuple_hash_aux ys 3430008 1000003 + 97531)).

Definition key_hash (k : key) : Z :=
  match k with
  | (a, b, c, d) => tuple_hash [str_hash a; str_hash b; str_hash c; pyval_hash d]
  end.

(** The slot table: [None] is a never-used slot; there are no deletions, so
    no dummy entries. *)
Definition table := list (option (Z * key)).

(** The probe sequence of [lookdict] and [insertdict_clean]:
    [i = 5*i + perturb + 1; perturb >>= 5], [i] and [perturb] as [size_t].
    Once [perturb] is 0 the sequence visits every slot, so the fuel used
    below (64 shifts plus the table size) always finds the free slot. *)
Fixpoint free_slot (fuel : nat) (tbl : table) (mask i perturb : Z) : option nat :=
  match fuel with
  | 0 => None
  | S f =>
      let slot := Z.to_nat (Z.land i mask) in
      match nth_error tbl slot with
      | Some None => Some slot
      | _ => free_slot f tbl mask ((5 * i + perturb + 1) mod 2 ^ 64)%Z (Z.shiftr perturb 5)
      end
  end.

Definition insert_clean (tbl : table) (h : Z) (k : key) : table :=
  let mask := (Z.of_nat (length tbl) - 1)%Z in
  let u := (h mod 2 ^ 64)%Z in
  match free_slot (64 + length tbl) tbl mask (Z.land u mask) u with
  | Some slot => update_nth (fun _ => Some (h, k)) slot tbl
  | None => tbl
  end.

Definition entries (tbl : table) : list (Z * key) :=
  flat_map (fun e => match e with Some hk => [hk] | None => [] end) tbl.

(** [dictresize(mp, minused)]: the smallest power of two from 8 above
    [minused], then the entries re-inserted in slot order. *)
Fixpoint new_size (fuel : nat) (size minused : nat) : nat :=
  match fuel with
  | 0 => size
  | S f => if size <=? minused then new_size f (2 * size) minused else size
  end.

Definition resize (tbl : table) (minused : nat) : table :=
  let n := new_size 64 8 minused in
  fold_left (fun t hk => insert_clean t (fst hk) (snd hk)) (entries tbl) (repeat None n).

(** [PyDict_SetItem] of a key not yet present, then the resize test
    [ma_fill*3 >= (ma_mask+1)*2] with [dictresize(mp, 4 * ma_used)]. *)
Definition set_new (tbl : table) (k : key) : table :=
  let t := insert_clean tbl (key_hash k) k in
  let used := length (entries t) in
  if length tbl * 2 <=? used * 3 then resize t (4 * used) else t.

(** The order of [for name in d] over a dict built by inserting the distinct
    keys [ks] in order into [PyDict_New()]'s 8-slot table. *)
Definition cpython27_order (ks : list key) : list key :=
  map snd (entries (fold_left set_new ks (repeat None 8))).

End CPython27.

(** ** Reference notions used in the statements *)

(** A name in the convention [<sampleName>_<barcodeOrNoIndex>_L<lane>_R<read>_<set>]. *)
Definition convention_name (s bc l : str) (r : ascii) (st : str) : str :=
  s ++ lit "_" ++ bc ++ lit "_L" ++ l ++ lit "_R" ++ [r] ++ lit "_" ++ st.

(** A syntactically valid base name: 3-digit lane and set, a one-digit read,
    a barcode token without underscore, and no path or extension character. *)
Definition valid_base (b : str) : Prop :=
  exists s bc l r st,
    ~ In "."%char s /\ ~ In "/"%char s /\
    ~ In "."%char bc /\ ~ In "/"%char bc /\ ~ In "_"%char bc /\
    length l = 3 /\ forallb isdigit l = true /\ isdigit r = true /\
    length st = 3 /\ forallb isdigit st = true /\
    b = convention_name s bc l r st.

(** The name a file receives under a template, [[]] when it does not parse. *)
Definition name_of (t : str) (pe : bool) (f : str) : str :=
  match IlluminaFastq f with Some fq => render t pe fq | None => [] end.

(** The newline character, and a text made of the given lines. *)
Definition nl : ascii := "010"%char.

Definition text_of_lines (ls : list string) : str := flat_map (fun l => lit l ++ [nl]) ls.

(** The suffixes of [s] that start right after a newline. *)
Fixpoint after_newlines (s : str) : list str :=
  match s with
  | [] => []
  | c :: r => if ascii_eqb c nl then r :: after_newlines r else after_newlines r
  end.

(** The places where a line of [s] begins. *)
Definition line_starts (s : str) : list str := s :: after_newlines s.

(** A complete line: ends with its only newline. *)
Definition is_line (l : str) : Prop := exists b, l = b ++ [nl] /\ ~ In nl b.

(** The identity tuples of a sheet in the order of their first occurrence. *)
Fixpoint first_keys (ks : list key) : list key :=
  match ks with
  | [] => []
  | k :: r => k :: filter (fun k' => negb (key_eqb k' k)) (first_keys r)
  end.

(** The positions of the rows with identity tuple [k], in table order. *)
Definition rows_with (t : sheet) (k : key) : list nat :=
  filter (fun i => match nth_error t i with Some r => key_eqb (row_key r) k | None => false end)
         (seq 0 (length t)).

(** The groups the spec describes: rows sharing an identity tuple, groups of
    more than one row, ordered by the first occurrence of their tuple. *)
Definition duplicate_groups_spec (t : sheet) : list (list nat) :=
  filter (fun g => 1 <? length g) (map (rows_with t) (first_keys (map row_key t))).

(** A sample row with the given SampleID and SampleProject, lane 1, no index. *)
Definition sample_row (sid proj : string) : row :=
  {| FCID := lit "FC1"; Lane := PyInt 1; SampleID := lit sid; SampleRef := []; Index := [];
     Description := []; Control := []; Recipe := []; Operator := []; SampleProject := lit proj |}.

(** ** Sorting, paths and dict lookup *)

(** Python 2 [str] ordering: the bytes compared as unsigned values, a proper
    prefix first. *)
Fixpoint str_leb (a b : str) : bool :=
  match a, b with
  | [], _ => true
  | _ :: _, [] => false
  | x :: a', y :: b' =>
      if nat_of_ascii x <? nat_of_ascii y then true
      else if nat_of_ascii y <? nat_of_ascii x then false
      else str_leb a' b'
  end.

Fixpoint insert_str (x : str) (l : list str) : list str :=
  match l with
  | [] => [x]
  | y :: r => if str_leb x y then x :: l else y :: insert_str x r
  end.

(** [l.sort()] on a list of [str]: its sorted permutation, which is unique
    since equal strings are identical; computed here by insertion. *)
Fixpoint py_sort (l : list str) : list str :=
  match l with
  | [] => []
  | x :: r => insert_str x (py_sort r)
  end.

(** [s.endswith(suf)] *)
Definition endswith (suf s : str) : bool := startswith (rev suf) (rev s).

(** [os.path.join(a, b)] (posixpath). *)
Definition path_join (a b : str) : str :=
  if startswith (lit "/") b then b
  else if match a with [] => true | _ => endswith (lit "/") a end then a ++ b
  else a ++ lit "/" ++ b.

(** [d[k]] on a dict held as an association list; [None] is a [KeyError]. *)
Fixpoint dict_get {V} (d : list (str * V)) (k : str) : option V :=
  match d with
  | [] => None
  | (k', v) :: r => if str_eqb k k' then Some v else dict_get r k
  end.

(** A loop whose body may raise, threading one value. *)
Fixpoint fold_opt {A B} (f : A -> B -> option A) (l : list B) (a : A) : option A :=
  match l with
  | [] => Some a
  | x :: r => a' <- f a x ;; fold_opt f r a'
  end.

(** ** [IlluminaRun.bcl_extension] *)

(** The loop over [os.listdir(lane1_cycle1)]; [None] is the final
    [No bcl files found] exception. *)
Fixpoint bcl_extension (listing : list str) : option str :=
  match listing with
  | [] => None
  | f :: r =>
      if endswith (lit ".bcl") f then Some (lit "bcl")
      else if endswith (lit ".bcl.gz") f then Some (lit "bcl.gz")
      else bcl_extension r
  end.

(** ** [IlluminaRunInfo.bases_mask] *)

(** One entry of [IlluminaRunInfo.reads]: the attributes of a [Read] tag. *)
Record read_info := mkRead {
  number : str;
  num_cycles : str;
  is_indexed_read : str
}.

(** The item appended for one read, ["y%d"] or ["I%d"] of
    [int(read['num_cycles'])]; [None] is the [int] error or the
    [Unrecognised value for is_indexed_read] exception. *)
Definition mask_item (rd : read_info) : option str :=
  n <- py_int (num_cycles rd) ;;
  if str_eqb (is_indexed_read rd) (lit "N") then Some (lit "y" ++ show_Z n)
  else if str_eqb (is_indexed_read rd) (lit "Y") then Some (lit "I" ++ show_Z n)
  else None.

Definition bases_mask (reads : list read_info) : option str :=
  items <- map_opt mask_item reads ;; Some (join (lit ",") items).

(** ** Project and sample directories *)

(** The [name] of [IlluminaSample.__init__]:
    [os.path.basename(dirn)[len(self.sample_prefix):]]. *)
Definition IlluminaSample_name (dirn : str) : str :=
  skipn (length (lit "Sample_")) (basename dirn).

(** [MockIlluminaData.__project_dir] *)
Definition mock_project_dir (project_name : str) : str :=
  if startswith (lit "Project_") project_name
     || startswith (lit "Undetermined_indices") project_name
  then project_name else lit "Project_" ++ project_name.

(** [MockIlluminaData.__sample_dir] *)
Definition mock_sample_dir (sample_name : str) : str :=
  if startswith (lit "Sample_") sample_name then sample_name else lit "Sample_" ++ sample_name.

(** [self.__projects]: project directory name to sample directory name to
    fastq names. *)
Definition mock_state := list (str * list (str * list str)).

(** The listing loop of [MockIlluminaData.projects] and [samples_in_project]:
    [name.split('_')[1]] of each key that starts with [prefix], sorted;
    [None] is an [IndexError]. *)
Definition second_parts (prefix : str) (keys : list str) : option (list str) :=
  parts <- map_opt (fun k => if startswith prefix k
                             then option_map (fun x => [x]) (nth_error (split_on "_" k) 1)
                             else Some []) keys ;;
  Some (py_sort (concat parts)).

(** [MockIlluminaData.projects] *)
Definition mock_projects (m : mock_state) : option (list str) :=
  second_parts (lit "Project_") (map fst m).

(** [MockIlluminaData.add_project] *)
Definition mock_add_project (m : mock_state) (project_name : str) : mock_state :=
  let d := mock_project_dir project_name in
  match dict_get m d with Some _ => m | None => dict_set m d [] end.

(** [MockIlluminaData.add_sample] *)
Definition mock_add_sample (m : mock_state) (project_name sample_name : str) : mock_state :=
  let m := mock_add_project m project_name in
  let d := mock_project_dir project_name in
  let project := match dict_get m d with Some p => p | None => [] end in
  let sd := mock_sample_dir sample_name in
  match dict_get project sd with
  | Some _ => m
  | None => dict_set m d (dict_set project sd [])
  end.

(** [MockIlluminaData.add_fastq]: [sample.append(fastq); sample.sort()]. *)
Definition mock_add_fastq (m : mock_state) (project_name sample_name fastq : str) : mock_state :=
  let m := mock_add_sample m project_name sample_name in
  let d := mock_project_dir project_name in
  let project := match dict_get m d with Some p => p | None => [] end in
  let sd := mock_sample_dir sample_name in
  let sample := match dict_get project sd with Some s => s | None => [] end in
  dict_set m d (dict_set project sd (py_sort (sample ++ [fastq]))).

(** [MockIlluminaData.fastqs_in_sample] *)
Definition mock_fastqs_in_sample (m : mock_state) (project_name sample_name : str)
    : option (list str) :=
  project <- dict_get m (mock_project_dir project_name) ;;
  dict_get project (mock_sample_dir sample_name).

(** ["%s_L%03d_R%d_001.%s" % (fastq_base, lane, read, fastq_ext)] *)
Definition batch_name (fastq_base fastq_ext : str) (lane read : Z) : str :=
  fastq_base ++ lit "_L" ++ fmt_pad 3 lane ++ lit "_R" ++ show_Z read ++
  lit "_001." ++ fastq_ext.

Definition mock_reads (paired_end : bool) : list Z := if paired_end then [1; 2]%Z else [1%Z].

(** [MockIlluminaData.add_fastq_batch], [paired_end] being the mock's flag. *)
Definition mock_add_fastq_batch (paired_end : bool) (m : mock_state)
    (project_name sample_name fastq_base fastq_ext : str) (lanes : list Z) : mock_state :=
  fold_left (fun m lane =>
               fold_left (fun m read =>
                            mock_add_fastq m project_name sample_name
                              (batch_name fastq_base fastq_ext lane read))
                         (mock_reads paired_end) m)
            lanes m.

(** ** [IlluminaSample] *)

Record illumina_sample := mkSample {
  s_dirn : str;
  s_name : str;
  s_fastq : list str;
  s_paired_end : bool
}.

(** [IlluminaSample.add_fastq]: append, sort, then parse the name only while
    the sample is not yet paired end. *)
Definition IlluminaSample_add_fastq (smp : illumina_sample) (fastq_name : str)
    : option illumina_sample :=
  let fqs := py_sort (s_fastq smp ++ [fastq_name]) in
  if s_paired_end smp then
    Some {| s_dirn := s_dirn smp; s_name := s_name smp; s_fastq := fqs; s_paired_end := true |}
  else
    fq <- IlluminaFastq fastq_name ;;
    Some {| s_dirn := s_dirn smp; s_name := s_name smp; s_fastq := fqs;
            s_paired_end := (read_number fq =? 2)%Z |}.

(** [IlluminaSample(dirn)], [listing] being [os.listdir(dirn)]. *)
Definition IlluminaSample_init (dirn : str) (listing : list str) : option illumina_sample :=
  fold_opt IlluminaSample_add_fastq (filter (endswith (lit ".fastq.gz")) listing)
           {| s_dirn := dirn; s_name := IlluminaSample_name dirn; s_fastq := [];
              s_paired_end := false |}.

(** ** [IlluminaProject] *)

Record illumina_project := mkProject {
  p_dirn : str;
  p_name : str;
  p_project_prefix : str;
  p_samples : list illumina_sample;
  p_paired_end : bool
}.

Fixpoint insert_sample (x : illumina_sample) (l : list illumina_sample) : list illumina_sample :=
  match l with
  | [] => [x]
  | y :: r => if str_leb (s_name x) (s_name y) then x :: l else y :: insert_sample x r
  end.

(** [samples.sort(lambda a,b: cmp(a.name,b.name))]: a stable sort on the
    names, computed by insertion. *)
Fixpoint sort_samples (l : list illumina_sample) : list illumina_sample :=
  match l with
  | [] => []
  | x :: r => insert_sample x (sort_samples r)
  end.

(** [IlluminaProject(dirn)].  [fs p] is [os.listdir(p)] when [p] is a
    directory, and [None] when it is not ([os.path.isdir(p)] is false and
    [os.listdir(p)] raises).  [None] is a raise: the [Bad project name]
    error, [dirn] not a directory, an [IlluminaSample] that raises, or no
    samples found (that [raise] formats the undefined name [project], so a
    [NameError] is raised there). *)
Definition IlluminaProject_init (fs : str -> option (list str)) (dirn : str)
    : option illumina_project :=
  let b := basename dirn in
  np <- (if startswith (lit "Project_") b
         then Some (skipn (length (lit "Project_")) b, lit "Project_")
         else if str_eqb b (lit "Undetermined_indices") then Some (b, [])
         else None) ;;
  listing <- fs dirn ;;
  found <- map_opt (fun f =>
                      let sample_dirn := path_join dirn f in
                      if startswith (lit "Sample_") f then
                        match fs sample_dirn with
                        | Some l => smp <- IlluminaSample_init sample_dirn l ;; Some [smp]
                        | None => Some []
                        end
                      else Some []) listing ;;
  match concat found with
  | [] => None
  | samples =>
      let samples := sort_samples samples in
      Some {| p_dirn := dirn; p_name := fst np; p_project_prefix := snd np;
              p_samples := samples;
              p_paired_end := fold_left (fun pe smp => pe && s_paired_end smp) samples true |}
  end.

(** The loop of [IlluminaSample.fastq_subset].  [read_number] is Python's
    [None] or an [int]; [int] never returns [None], so the [is None] test
    never succeeds and a name that does not parse raises in
    [IlluminaFastq]. *)
Fixpoint subset_loop (dirn : str) (read_number_sel : option Z) (full_path : bool)
    (fqs acc : list str) : option (list str) :=
  match fqs with
  | [] => Some acc
  | f :: r =>
      fq <- IlluminaFastq f ;;
      if match read_number_sel with Some k => (read_number fq =? k)%Z | None => false end
      then subset_loop dirn read_number_sel full_path r
             (acc ++ [if full_path then path_join dirn f else f])
      else subset_loop dirn read_number_sel full_path r acc
  end.

(** [IlluminaSample.fastq_subset(read_number, full_path)] *)
Definition fastq_subset (smp : illumina_sample) (read_number_sel : option Z) (full_path : bool)
    : option (list str) :=
  l <- subset_loop (s_dirn smp) read_number_sel full_path (s_fastq smp) [] ;;
  Some (py_sort l).

(** ** [CasavaSampleSheet.empty_names] and [predict_output] *)

(** [s.strip() == ''] *)
Definition is_blank (s : str) : bool := match strip_ws s with [] => true | _ => false end.

Definition is_empty_name (l : row) : bool := is_blank (SampleID l) || is_blank (SampleProject l).

Fixpoint empty_from (i : nat) (rows : list row) : list nat :=
  match rows with
  | [] => []
  | l :: r => if is_empty_name l then i :: empty_from (S i) r else empty_from (S i) r
  end.

(** [empty_names], as the handles of the lines it lists. *)
Definition empty_names (t : sheet) : list nat := empty_from 0 t.

(** ["%s_%s_L%03d" % (line['SampleID'], indx, line['Lane'])]; [%d] of a
    [str] is a [TypeError]. *)
Definition predicted_name (l : row) : option str :=
  let indx := if is_blank (Index l) then lit "NoIndex" else Index l in
  match Lane l with
  | PyInt z => Some (SampleID l ++ lit "_" ++ indx ++ lit "_L" ++ fmt_pad 3 z)
  | PyStr _ => None
  end.

(** The dict of dicts of [predict_output]. *)
Definition prediction := list (str * list (str * list str)).

(** One pass of the loop of [predict_output]; [samples] is the dict stored
    under [project] when there is one, so its updates are stored back by
    [projects[project] = samples]. *)
Definition predict_line (projects : prediction) (l : row) : option prediction :=
  let project := lit "Project_" ++ SampleProject l in
  let sample := lit "Sample_" ++ SampleID l in
  let samples := match dict_get projects project with Some s => s | None => [] end in
  let samples := match dict_get samples sample with
                 | Some _ => samples
                 | None => dict_set samples sample []
                 end in
  name <- predicted_name l ;;
  let cur := match dict_get samples sample with Some x => x | None => [] end in
  Some (dict_set projects project (dict_set samples sample (cur ++ [name]))).

Definition predict_output (t : sheet) : option prediction := fold_opt predict_line t [].

(** ** [convert_miseq_samplesheet_to_casava] *)

Definition convert_miseq_samplesheet_to_casava (fuel : nat) (stream : str) : casava_result :=
  get_casava_sample_sheet fuel (lit "660DMAAXX") stream.

(** ** Reference notions for the statements about samples and predictions *)

(** The read number a file name parses to. *)
Definition fastq_read (f : str) : option Z := option_map read_number (IlluminaFastq f).

Definition is_read2 (f : str) : bool :=
  match fastq_read f with Some n => (n =? 2)%Z | None => false end.

(** Whether a file is selected by [fq.read_number == read_number]. *)
Definition read_selected (read_number_sel : option Z) (f : str) : bool :=
  match read_number_sel, fastq_read f with Some k, Some n => (n =? k)%Z | _, _ => false end.

(** The names [add_fastq_batch] adds, in the order it adds them. *)
Definition batch_names (paired_end : bool) (fastq_base fastq_ext : str) (lanes : list Z)
    : list str :=
  flat_map (fun lane => map (batch_name fastq_base fastq_ext lane) (mock_reads paired_end)) lanes.

(** [projects[project][sample]] of a prediction, [[]] when absent. *)
Definition predicted_names (P : prediction) (project sample : str) : list str :=
  match dict_get P project with
  | Some samples => match dict_get samples sample with Some l => l | None => [] end
  | None => []
  end.

(** The order of [l.sort()], as a relation. *)
Definition str_le (a b : str) : Prop := str_leb a b = true.

(** * Proofs *)

(** ** Characters and decimal numbers *)

Lemma ascii_eqb_true a b : ascii_eqb a b = true <-> a = b.
Proof. unfold ascii_eqb; destruct (ascii_dec a b); split; congruence. Qed.

Lemma ascii_eqb_false a b : ascii_eqb a b = false <-> a <> b.
Proof. unfold ascii_eqb; destruct (ascii_dec a b); split; congruence. Qed.

Lemma str_eqb_true a b : str_eqb a b = true <-> a = b.
Proof. unfold str_eqb; destruct (list_eq_dec ascii_dec a b); split; congruence. Qed.

Lemma str_eqb_false a b : str_eqb a b = false <-> a <> b.
Proof. unfold str_eqb; destruct (list_eq_dec ascii_dec a b); split; congruence. Qed.

Lemma isdigit_range c : isdigit c = true -> 48 <= nat_of_ascii c <= 57.
Proof. unfold isdigit; rewrite andb_true_iff, !Nat.leb_le; tauto. Qed.

Lemma digit_char_val c : isdigit c = true -> digit_char (digit_val c) = c.
Proof.
  intro H; apply isdigit_range in H; unfold digit_char, digit_val.
  replace (48 + (nat_of_ascii c - 48)) with (nat_of_ascii c) by lia.
  apply ascii_nat_embedding.
Qed.

Lemma digit_val_lt c : isdigit c = true -> digit_val c < 10.
Proof. intro H; apply isdigit_range in H; unfold digit_val; lia. Qed.

Lemma digit_val_char d : d < 10 -> digit_val (digit_char d) = d.
Proof.
  intro H; unfold digit_val, digit_char.
  rewrite nat_ascii_embedding by lia; lia.
Qed.

Lemma digit_char_inj d e : d < 10 -> e < 10 -> digit_char d = digit_char e -> d = e.
Proof.
  intros Hd He Heq; rewrite <- (digit_val_char d), <- (digit_val_char e) by assumption.
  now rewrite Heq.
Qed.

Lemma digit_not_sign c : isdigit c = true -> ascii_eqb c "-" = false /\ ascii_eqb c "+" = false.
Proof.
  intro H; apply isdigit_range in H; split; apply ascii_eqb_false; intro E; subst c;
    compute in H; lia.
Qed.

Lemma digit_not_space c : isdigit c = true -> isspace c = false.
Proof.
  intro H; apply isdigit_range in H; unfold isspace.
  apply orb_false_iff; split; [apply Nat.eqb_neq; lia|].
  apply andb_false_iff; right; apply Nat.leb_gt; lia.
Qed.

Lemma dval_app ds c : dval (ds ++ [c]) = dval ds * 10 + digit_val c.
Proof. unfold dval; now rewrite fold_left_app. Qed.

Lemma show_nat_fuel_indep f1 f2 n :
  n < f1 -> n < f2 -> show_nat_fuel f1 n = show_nat_fuel f2 n.
Proof.
  revert f2 n; induction f1 as [|f1 IH]; intros f2 n H1 H2; [lia|].
  destruct f2 as [|f2]; [lia|]; cbn [show_nat_fuel].
  destruct (n <? 10) eqn:E; [reflexivity|].
  apply Nat.ltb_ge in E; f_equal; apply IH;
    apply Nat.Div0.div_lt_upper_bound; lia.
Qed.

Lemma show_nat_eq n :
  show_nat n = if n <? 10 then [digit_char n]
               else show_nat (n / 10) ++ [digit_char (n mod 10)].
Proof.
  unfold show_nat at 1; cbn [show_nat_fuel].
  destruct (n <? 10) eqn:E; [reflexivity|].
  apply Nat.ltb_ge in E; f_equal; unfold show_nat; apply show_nat_fuel_indep;
    [apply Nat.div_lt; lia | lia].
Qed.

Lemma dval_zero_repeat ds :
  forallb isdigit ds = true -> dval ds = 0 -> ds = repeat "0"%char (length ds).
Proof.
  induction ds as [|c ds IH] using rev_ind; intros Hd Hz; [reflexivity|].
  rewrite forallb_app in Hd; apply andb_true_iff in Hd as [Hd1 Hd2].
  simpl in Hd2; rewrite andb_true_r in Hd2.
  rewrite dval_app in Hz.
  rewrite length_app, repeat_app; simpl.
  rewrite <- IH by (auto; lia); f_equal.
  rewrite <- (digit_char_val c Hd2).
  replace (digit_val c) with 0 by lia; reflexivity.
Qed.

Lemma pad0_snoc w x c : pad0 (w + 1) (x ++ [c]) = pad0 w x ++ [c].
Proof.
  unfold pad0; rewrite length_app; simpl length.
  replace (w + 1 - (length x + 1)) with (w - length x) by lia.
  now rewrite app_assoc.
Qed.

(** ["%0<w>d"] gives back a [w]-digit string. *)
Lemma pad_show_dval ds :
  ds <> [] -> forallb isdigit ds = true -> pad0 (length ds) (show_nat (dval ds)) = ds.
Proof.
  induction ds as [|c ds IH] using rev_ind; intros Hne Hd; [congruence|].
  rewrite forallb_app in Hd; apply andb_true_iff in Hd as [Hd1 Hd2].
  simpl in Hd2; rewrite andb_true_r in Hd2.
  pose proof (digit_val_lt c Hd2) as Hlt.
  rewrite dval_app, show_nat_eq, length_app; simpl length.
  destruct (dval ds) as [|m] eqn:Hm.
  - rewrite Nat.mul_0_l, Nat.add_0_l.
    replace (digit_val c <? 10) with true by (symmetry; apply Nat.ltb_lt; lia).
    rewrite (dval_zero_repeat ds Hd1 Hm) at 2.
    unfold pad0; simpl length.
    rewrite digit_char_val by assumption.
    replace (length ds + 1 - 1) with (length ds) by lia; reflexivity.
  - replace (S m * 10 + digit_val c <? 10) with false by (symmetry; apply Nat.ltb_ge; lia).
    replace ((S m * 10 + digit_val c) / 10) with (S m).
    2:{ apply Nat.div_unique with (digit_val c); lia. }
    replace ((S m * 10 + digit_val c) mod 10) with (digit_val c).
    2:{ apply Nat.mod_unique with (S m); lia. }
    assert (Hne' : ds <> []) by (intro; subst; discriminate).
    rewrite digit_char_val, pad0_snoc, IH by assumption; reflexivity.
Qed.

(** [int(str(n)) = n] on the digits. *)
Lemma dval_show_nat n : dval (show_nat n) = n.
Proof.
  induction n as [n IH] using lt_wf_ind.
  rewrite show_nat_eq.
  destruct (n <? 10) eqn:E.
  - apply Nat.ltb_lt in E; unfold dval; simpl; apply digit_val_char; assumption.
  - apply Nat.ltb_ge in E.
    rewrite dval_app, IH by (apply Nat.div_lt; lia).
    rewrite digit_val_char by (apply Nat.mod_upper_bound; lia).
    rewrite Nat.mul_comm; symmetry; apply Nat.div_mod; lia.
Qed.

Lemma show_nat_inj m n : show_nat m = show_nat n -> m = n.
Proof. intro H; rewrite <- (dval_show_nat m), <- (dval_show_nat n), H; reflexivity. Qed.

Lemma show_Z_of_nat n : show_Z (Z.of_nat n) = show_nat n.
Proof.
  unfold show_Z; replace (Z.of_nat n <? 0)%Z with false by (symmetry; apply Z.ltb_ge; lia).
  now rewrite Nat2Z.id.
Qed.

Lemma fmt_pad_of_nat w n : fmt_pad w (Z.of_nat n) = pad0 w (show_nat n).
Proof.
  unfold fmt_pad; replace (Z.of_nat n <? 0)%Z with false by (symmetry; apply Z.ltb_ge; lia).
  now rewrite Nat2Z.id.
Qed.

Lemma lstrip_digits p ds :
  (forall c, isdigit c = true -> p c = false) ->
  forallb isdigit ds = true -> ds <> [] -> lstrip_by p ds = ds.
Proof.
  intros Hp Hd Hne; destruct ds as [|c r]; [congruence|].
  simpl in Hd |- *; apply andb_true_iff in Hd as [Hc _]; now rewrite (Hp c Hc).
Qed.

Lemma span_digits_all ds : forallb isdigit ds = true -> span_digits ds = (ds, []).
Proof.
  induction ds as [|c r IH]; intro Hd; [reflexivity|].
  simpl in Hd |- *; apply andb_true_iff in Hd as [Hc Hr]; now rewrite Hc, IH.
Qed.

(** [int()] of a non-empty string of digits. *)
Lemma py_int_digits ds :
  ds <> [] -> forallb isdigit ds = true -> py_int ds = Some (Z.of_nat (dval ds)).
Proof.
  intros Hne Hd; unfold py_int.
  rewrite lstrip_digits by (auto using digit_not_space).
  destruct ds as [|c r]; [congruence|].
  pose proof Hd as Hd'; simpl in Hd'; apply andb_true_iff in Hd' as [Hc _].
  destruct (digit_not_sign c Hc) as [E1 E2].
  cbv beta iota; rewrite E1, E2; cbv beta iota.
  rewrite lstrip_digits by (auto using digit_not_space).
  rewrite span_digits_all by assumption; reflexivity.
Qed.

(** ** [split] and [join] *)

Lemma split_on_cons_ne c s : exists w ws, split_on c s = w :: ws.
Proof.
  destruct s as [|x r]; simpl; [eauto|].
  destruct (ascii_eqb x c); [eauto|].
  destruct (split_on c r); eauto.
Qed.

Lemma split_on_app c a b : split_on c (a ++ c :: b) = split_on c a ++ split_on c b.
Proof.
  induction a as [|x a IH]; simpl.
  - replace (ascii_eqb c c) with true by (symmetry; now apply ascii_eqb_true). reflexivity.
  - destruct (ascii_eqb x c); [now rewrite IH|].
    rewrite IH; destruct (split_on_cons_ne c a) as (w & ws & ->); reflexivity.
Qed.

Lemma split_on_none c a : ~ In c a -> split_on c a = [a].
Proof.
  induction a as [|x a IH]; intro Hn; [reflexivity|]; simpl.
  replace (ascii_eqb x c) with false by (symmetry; apply ascii_eqb_false; intro; subst; apply Hn; left; auto).
  rewrite IH by (intro; apply Hn; right; auto); reflexivity.
Qed.

Lemma join_cons_char (sep : str) (x : ascii) (w : str) (ws : list str) : join sep ((x :: w) :: ws) = x :: join sep (w :: ws).
Proof. destruct ws; reflexivity. Qed.

Lemma join_split c s : join [c] (split_on c s) = s.
Proof.
  induction s as [|x r IH]; [reflexivity|]; cbn [split_on].
  destruct (split_on_cons_ne c r) as (w & ws & Hs); rewrite Hs in *.
  destruct (ascii_eqb x c) eqn:E.
  - apply ascii_eqb_true in E; subst x.
    transitivity ([] ++ [c] ++ join [c] (w :: ws)); [reflexivity|].
    now rewrite IH.
  - now rewrite join_cons_char, IH.
Qed.

Lemma digits_not_in c l : forallb isdigit l = true -> isdigit c = false -> ~ In c l.
Proof.
  intros Hl Hc Hin; rewrite forallb_forall in Hl; rewrite (Hl c Hin) in Hc; discriminate.
Qed.

Lemma nth_from_end_app {A} k (W X : list A) :
  k <= length X -> nth_from_end k (W ++ X) = nth_from_end k X.
Proof.
  intro Hk; unfold nth_from_end; rewrite length_app.
  replace (k <=? length W + length X) with true by (symmetry; apply Nat.leb_le; lia).
  replace (k <=? length X) with true by (symmetry; apply Nat.leb_le; lia).
  rewrite nth_error_app2 by lia; f_equal; lia.
Qed.

Lemma firstn_app_length {A} (W X : list A) : firstn (length W) (W ++ X) = W.
Proof. rewrite firstn_app, firstn_all, Nat.sub_diag; simpl; apply app_nil_r. Qed.

(** ** The filename codec *)

Lemma convention_fields s bc l r st :
  ~ In "_"%char bc -> forallb isdigit l = true -> isdigit r = true -> forallb isdigit st = true ->
  split_on "_" (convention_name s bc l r st) =
  split_on "_" s ++ [bc; "L"%char :: l; ["R"%char; r]; st].
Proof.
  intros Hbc Hl Hr Hst.
  replace (convention_name s bc l r st) with
    (s ++ "_"%char :: (bc ++ "_"%char :: (("L"%char :: l) ++ "_"%char ::
       (["R"%char; r] ++ "_"%char :: st)))) by reflexivity.
  assert (Hus : isdigit "_" = false) by reflexivity.
  rewrite split_on_app, split_on_app, split_on_app, split_on_app.
  rewrite (split_on_none _ bc Hbc), (split_on_none _ st) by (apply digits_not_in; auto).
  rewrite (split_on_none _ ("L"%char :: l)).
  2:{ intros [H|H]; [discriminate|]; revert H; apply digits_not_in; auto. }
  rewrite (split_on_none _ ["R"%char; r]).
  2:{ intros [H|[H|[]]]; [discriminate|]; subst; rewrite Hr in Hus; discriminate. }
  reflexivity.
Qed.

(** The core of the round trip, on the fields of a valid name. *)
Lemma parse_convention s bc l r st :
  ~ In "_"%char bc -> length l = 3 -> forallb isdigit l = true -> isdigit r = true ->
  length st = 3 -> forallb isdigit st = true ->
  exists fq, parse_fields (split_on "_" (convention_name s bc l r st)) = Some fq /\
             fastq_repr fq = convention_name s bc l r st.
Proof.
  intros Hbc Hl3 Hl Hr Hst3 Hst.
  rewrite convention_fields by assumption.
  set (W := split_on "_" s).
  assert (Hne : forall x : str, length x = 3 -> x <> []) by (intros x Hx E; subst; discriminate).
  unfold parse_fields.
  rewrite nth_from_end_app by (simpl; lia); cbn [nth_from_end length Nat.leb Nat.sub nth_error opt_bind].
  rewrite py_int_digits by auto; cbn [opt_bind].
  rewrite nth_from_end_app by (simpl; lia); cbn [nth_from_end length Nat.leb Nat.sub nth_error opt_bind].
  rewrite py_int_digits by (try discriminate; simpl; now rewrite Hr); cbn [opt_bind].
  rewrite nth_from_end_app by (simpl; lia); cbn [nth_from_end length Nat.leb Nat.sub nth_error opt_bind skipn].
  rewrite py_int_digits by auto; cbn [opt_bind].
  rewrite nth_from_end_app by (simpl; lia); cbn [nth_from_end length Nat.leb Nat.sub nth_error opt_bind].
  eexists; split; [reflexivity|].
  unfold fastq_repr; cbn [sample_name barcode_sequence lane_number read_number set_number].
  rewrite length_app; simpl length; replace (length W + 4 - 4) with (length W) by lia.
  rewrite firstn_app_length; subst W; change (lit "_") with ["_"%char] at 1; rewrite join_split.
  rewrite !fmt_pad_of_nat, show_Z_of_nat.
  rewrite <- Hl3 at 1; rewrite <- Hst3 at 1.
  rewrite !pad_show_dval by auto.
  replace (show_nat (dval [r])) with [r].
  2:{ unfold dval; simpl; rewrite show_nat_eq.
      replace (digit_val r <? 10) with true by (symmetry; apply Nat.ltb_lt, digit_val_lt; auto).
      now rewrite digit_char_val. }
  unfold convention_name; f_equal; f_equal.
  destruct (str_eqb bc (lit "NoIndex")) eqn:E; [apply str_eqb_true in E; subst|]; reflexivity.
Qed.

Lemma basename_aux_none cur s : ~ In "/"%char s -> basename_aux cur s = rev cur ++ s.
Proof.
  revert cur; induction s as [|x r IH]; intros cur Hn; simpl; [now rewrite app_nil_r|].
  replace (ascii_eqb x "/") with false by (symmetry; apply ascii_eqb_false; intro; subst; apply Hn; left; auto).
  rewrite IH by (intro; apply Hn; right; auto); simpl; now rewrite <- app_assoc.
Qed.

Lemma cut_at_dot_none s : ~ In "."%char s -> cut_at_dot s = s.
Proof.
  induction s as [|x r IH]; intro Hn; simpl; [reflexivity|].
  replace (ascii_eqb x ".") with false by (symmetry; apply ascii_eqb_false; intro; subst; apply Hn; left; auto).
  rewrite IH by (intro; apply Hn; right; auto); reflexivity.
Qed.

Lemma not_in_convention c s bc l r st :
  isdigit c = false -> c <> "_"%char -> c <> "L"%char -> c <> "R"%char ->
  ~ In c s -> ~ In c bc -> forallb isdigit l = true -> isdigit r = true ->
  forallb isdigit st = true -> ~ In c (convention_name s bc l r st).
Proof.
  intros Hc Hu HL HR Hs Hbc Hl Hr Hst.
  assert (Hl' : ~ In c l) by (apply digits_not_in; auto).
  assert (Hst' : ~ In c st) by (apply digits_not_in; auto).
  assert (Hr' : r <> c) by (intro; subst; congruence).
  unfold convention_name; repeat (first [rewrite in_app_iff | progress simpl]).
  intuition congruence.
Qed.

(** A valid name is its own base form. *)
Lemma base_form_convention s bc l r st :
  ~ In "."%char s -> ~ In "/"%char s -> ~ In "."%char bc -> ~ In "/"%char bc ->
  forallb isdigit l = true -> isdigit r = true -> forallb isdigit st = true ->
  base_form (convention_name s bc l r st) = convention_name s bc l r st.
Proof.
  intros; unfold base_form, basename.
  rewrite basename_aux_none
    by (apply not_in_convention; auto; (reflexivity || discriminate)).
  apply cut_at_dot_none, not_in_convention; auto; (reflexivity || discriminate).
Qed.

Lemma parse_fields_some_4 fields fq :
  parse_fields fields = Some fq -> exists f4, nth_from_end 4 fields = Some f4.
Proof.
  unfold parse_fields, opt_bind.
  repeat match goal with
         | |- context [match ?o with Some _ => _ | None => _ end] => destruct o eqn:?
         end; intros; try discriminate; eauto.
Qed.

(** C1 *)

(** Claim C1: a syntactically valid name
    [<sampleName>_<barcodeOrNoIndex>_L<3-digit lane>_R<read>_<3-digit set>],
    without leading path or extension, parses, and [IlluminaFastq.__repr__]
    of the result is the name itself. *)
Theorem fastq_name_roundtrip s bc l r st :
  ~ In "."%char s -> ~ In "/"%char s ->
  ~ In "."%char bc -> ~ In "/"%char bc -> ~ In "_"%char bc ->
  length l = 3 -> forallb isdigit l = true -> isdigit r = true ->
  length st = 3 -> forallb isdigit st = true ->
  exists fq, IlluminaFastq (convention_name s bc l r st) = Some fq /\
             fastq_repr fq = convention_name s bc l r st.
Proof.
  intros Hs1 Hs2 Hb1 Hb2 Hb3 Hl3 Hl Hr Hst3 Hst.
  unfold IlluminaFastq; rewrite base_form_convention by assumption.
  now apply parse_convention.
Qed.

Lemma fastq_name_roundtrip_witness :
  exists fq, IlluminaFastq (lit "NA10831_ATCACG_L002_R1_001") = Some fq /\
             fastq_repr fq = lit "NA10831_ATCACG_L002_R1_001".
Proof.
  apply (fastq_name_roundtrip (lit "NA10831") (lit "ATCACG") (lit "002") "1"%char (lit "001"));
    try reflexivity; simpl; intuition discriminate.
Defined.

(** C2 *)

(** Claim C2 (as amended): parsing fails whenever the base form splits on
    ['_'] into fewer than 4 tokens; with 4 or more tokens it fails exactly
    when [int()] rejects the set token, the read token has no second
    character or [int()] rejects it, or [int()] rejects the lane token
    without its first character; a base form of exactly 4 tokens that
    parses has an empty sample name. *)
Theorem fastq_name_malformed f :
  (length (split_on "_" (base_form f)) < 4 -> IlluminaFastq f = None) /\
  (forall W a b c d, split_on "_" (base_form f) = W ++ [a; b; c; d] ->
     (IlluminaFastq f = None <->
      py_int d = None \/
      match nth_error c 1 with None => True | Some ch => py_int [ch] = None end \/
      py_int (skipn 1 b) = None)) /\
  (forall a b c d fq, split_on "_" (base_form f) = [a; b; c; d] ->
     IlluminaFastq f = Some fq -> sample_name fq = []).
Proof.
  unfold IlluminaFastq; split; [|split].
  - intro Hlt; destruct (parse_fields (split_on "_" (base_form f))) eqn:E; [|reflexivity].
    destruct (parse_fields_some_4 _ _ E) as [f4 H4].
    unfold nth_from_end in H4; rewrite (proj2 (Nat.leb_gt _ _) Hlt) in H4; discriminate.
  - intros W a b c d Hf; rewrite Hf; unfold parse_fields.
    rewrite !nth_from_end_app by (simpl; lia).
    change (nth_from_end 1 [a; b; c; d]) with (Some d).
    change (nth_from_end 2 [a; b; c; d]) with (Some c).
    change (nth_from_end 3 [a; b; c; d]) with (Some b).
    change (nth_from_end 4 [a; b; c; d]) with (Some a).
    cbn [opt_bind].
    destruct (py_int d); cbn [opt_bind]; [|tauto].
    destruct (nth_error c 1) as [ch|]; cbn [opt_bind]; [|tauto].
    destruct (py_int [ch]); cbn [opt_bind]; [|tauto].
    destruct (py_int (skipn 1 b)); cbn [opt_bind]; [|tauto].
    split; [discriminate | intros [H|[H|H]]; discriminate].
  - intros a b c d fq Hf H; rewrite Hf in H; unfold parse_fields, opt_bind in H; cbn in H.
    repeat match type of H with
           | context [match ?o with Some _ => _ | None => _ end] => destruct o
           end; try discriminate.
    now injection H as <-.
Qed.

Lemma fastq_name_malformed_witness :
  IlluminaFastq (lit "A_B") = None /\
  (IlluminaFastq (lit "S_ATCACG_L001_Rx_001") = None <->
   py_int (lit "001") = None \/
   match nth_error (lit "Rx") 1 with None => True | Some ch => py_int [ch] = None end \/
   py_int (skipn 1 (lit "L001")) = None) /\
  (forall fq, IlluminaFastq (lit "NoIndex_L001_R1_001") = Some fq -> sample_name fq = []).
Proof.
  split; [|split].
  - apply (fastq_name_malformed (lit "A_B")); vm_compute; lia.
  - apply (proj1 (proj2 (fastq_name_malformed (lit "S_ATCACG_L001_Rx_001")))
             [lit "S"] (lit "ATCACG") (lit "L001") (lit "Rx") (lit "001")); reflexivity.
  - intro fq; apply (proj2 (proj2 (fastq_name_malformed (lit "NoIndex_L001_R1_001")))
             (lit "NoIndex") (lit "L001") (lit "R1") (lit "001")); reflexivity.
Defined.

(** Claim C2 as stated fails: a base form of exactly 4 tokens (fewer than
    5) parses, and its sample name is empty. *)
Lemma fastq_name_malformed_counterexample :
  length (split_on "_" (base_form (lit "NoIndex_L001_R1_001"))) = 4 /\
  IlluminaFastq (lit "NoIndex_L001_R1_001") =
    Some {| sample_name := []; barcode_sequence := None;
            lane_number := 1; read_number := 1; set_number := 1 |}.
Proof. split; vm_compute; reflexivity. Qed.

(** ** Unique fastq names *)

Lemma mem_str_false x l : mem_str x l = false <-> ~ In x l.
Proof.
  induction l as [|y l IH]; simpl; [tauto|].
  rewrite orb_false_iff, str_eqb_false, IH; split.
  - intros [H1 H2] [H|H]; [congruence|tauto].
  - intro H; split; [intro; subst; tauto | tauto].
Qed.

Lemma dict_set_fresh {V} (d : list (str * V)) k v :
  ~ In k (map fst d) -> dict_set d k v = d ++ [(k, v)].
Proof.
  induction d as [|[k' v'] d IH]; intro Hn; [reflexivity|]; simpl in *.
  replace (str_eqb k k') with false by (symmetry; apply str_eqb_false; intro; subst; tauto).
  rewrite IH by tauto; reflexivity.
Qed.

Lemma valid_parse f :
  valid_base (base_form f) -> exists fq, IlluminaFastq f = Some fq /\ fastq_repr fq = base_form f.
Proof.
  intros (s & bc & l & r & st & _ & _ & _ & _ & Hbc & Hl3 & Hl & Hr & Hst3 & Hst & Hb).
  unfold IlluminaFastq; rewrite Hb; now apply parse_convention.
Qed.

Lemma scan_reads_some fs a b :
  (forall f, In f fs -> exists fq, IlluminaFastq f = Some fq) ->
  exists p, scan_reads fs a b = Some p.
Proof.
  revert a b; induction fs as [|f fs IH]; intros a b Hfs; simpl; [eauto|].
  destruct (Hfs f (or_introl eq_refl)) as [fq ->]; cbn [opt_bind].
  assert (H' : forall g, In g fs -> exists fq, IlluminaFastq g = Some fq) by (intros; apply Hfs; now right).
  destruct (read_number fq =? 1)%Z; [|destruct (read_number fq =? 2)%Z]; apply IH; exact H'.
Qed.

(** The invariant of the loop over the names for one template. *)
Lemma name_loop_inv t pe fs m0 u0 m u :
  name_loop t pe fs (m0, u0) = Some (m, u) -> NoDup u0 ->
  NoDup u /\ length u <= length u0 + length fs /\
  (length u = length u0 + length fs -> NoDup (map fst m0 ++ fs) -> map snd m0 = u0 ->
   map fst m = map fst m0 ++ fs /\ map snd m = u).
Proof.
  revert m0 u0; induction fs as [|f fs IH]; intros m0 u0 Hrun Hnd; simpl in Hrun.
  - injection Hrun as <- <-; simpl; rewrite app_nil_r, Nat.add_0_r; auto.
  - destruct (IlluminaFastq f) as [fq|]; cbn [opt_bind] in Hrun; [|discriminate].
    destruct (mem_str (render t pe fq) u0) eqn:Hmem.
    + destruct (IH _ _ Hrun Hnd) as (H1 & H2 & _).
      split; [exact H1|]; split; [simpl; lia|]; intros; simpl in *; lia.
    + apply mem_str_false in Hmem.
      assert (Hnd' : NoDup (u0 ++ [render t pe fq])).
      { apply NoDup_app; auto using NoDup_cons, NoDup_nil.
        intros x Hx [Hy|[]]; subst; contradiction. }
      destruct (IH _ _ Hrun Hnd') as (H1 & H2 & H3).
      rewrite length_app in H2, H3; simpl in H2, H3 |- *.
      split; [exact H1|]; split; [lia|].
      intros Hlen Hkeys Hvals.
      assert (Hf : ~ In f (map fst m0)).
      { intro Hin; apply NoDup_remove_2 in Hkeys; apply Hkeys, in_app_iff; now left. }
      rewrite dict_set_fresh in H3 by assumption.
      rewrite !map_app in H3; simpl in H3.
      assert (Hk' : NoDup ((map fst m0 ++ [f]) ++ fs)) by (rewrite <- app_assoc; exact Hkeys).
      destruct (H3 ltac:(lia) Hk' ltac:(now rewrite Hvals)) as [Hk Hv].
      split; [rewrite Hk, <- app_assoc; reflexivity | exact Hv].
Qed.

(** When all names are new, every file is added. *)
Lemma name_loop_all_new t pe fs m0 u0 :
  (forall f, In f fs -> exists fq, IlluminaFastq f = Some fq) ->
  NoDup (map (name_of t pe) fs) -> (forall f, In f fs -> ~ In (name_of t pe f) u0) ->
  exists m u, name_loop t pe fs (m0, u0) = Some (m, u) /\ length u = length u0 + length fs.
Proof.
  revert m0 u0; induction fs as [|f fs IH]; intros m0 u0 Hp Hnd Hnew; simpl.
  - exists m0, u0; split; [reflexivity | lia].
  - destruct (Hp f (or_introl eq_refl)) as [fq Hfq]; rewrite Hfq; cbn [opt_bind].
    assert (Hn : name_of t pe f = render t pe fq) by (unfold name_of; now rewrite Hfq).
    replace (mem_str (render t pe fq) u0) with false
      by (symmetry; apply mem_str_false; rewrite <- Hn; apply Hnew; now left).
    simpl in Hnd; apply NoDup_cons_iff in Hnd as [Hnot Hnd].
    destruct (IH (dict_set m0 f (render t pe fq)) (u0 ++ [render t pe fq])) as (m & u & Hrun & Hlen).
    + intros; apply Hp; now right.
    + exact Hnd.
    + intros g Hg Hin; apply in_app_iff in Hin as [Hin|[Hin|[]]].
      * apply (Hnew g); [now right | exact Hin].
      * apply Hnot; rewrite Hn, Hin; apply in_map; exact Hg.
    + exists m, u; split; [exact Hrun|]; rewrite Hlen, length_app; simpl; lia.
Qed.

Lemma try_templates_result ts pe fs m :
  try_templates ts pe fs = Some m ->
  exists t u, name_loop t pe fs ([], []) = Some (m, u) /\ length u = length fs.
Proof.
  induction ts as [|t ts IH]; simpl; [discriminate|].
  destruct (name_loop t pe fs ([], [])) as [[m' u']|] eqn:Hrun; cbn [opt_bind]; [|discriminate].
  destruct (length u' =? length fs) eqn:E.
  - intro H; injection H as <-; apply Nat.eqb_eq in E; eauto.
  - exact IH.
Qed.

Lemma try_templates_full ts pe fs :
  In (lit "FULL") ts ->
  (forall t, exists r, name_loop t pe fs ([], []) = Some r) ->
  (exists m u, name_loop (lit "FULL") pe fs ([], []) = Some (m, u) /\ length u = length fs) ->
  exists m, try_templates ts pe fs = Some m.
Proof.
  intros Hin Hrun Hfull; induction ts as [|t ts IH]; [destruct Hin|]; simpl.
  destruct (Hrun t) as [[m' u'] Hr]; rewrite Hr; cbn [opt_bind].
  destruct (length u' =? length fs) eqn:E; [eauto|].
  destruct Hin as [Ht|Hin]; [subst t|now apply IH].
  destruct Hfull as (m & u & Hf & Hl); rewrite Hf in Hr; injection Hr as <- <-.
  apply Nat.eqb_neq in E; contradiction.
Qed.

Lemma name_loop_some t pe fs st :
  (forall f, In f fs -> exists fq, IlluminaFastq f = Some fq) ->
  exists r, name_loop t pe fs st = Some r.
Proof.
  revert st; induction fs as [|f fs IH]; intros [m u] Hp; simpl; [eauto|].
  destruct (Hp f (or_introl eq_refl)) as [fq ->]; cbn [opt_bind].
  destruct (mem_str (render t pe fq) u); apply IH; intros; apply Hp; now right.
Qed.

Lemma render_full pe fq : render (lit "FULL") pe fq = fastq_repr fq ++ lit ".fastq.gz".
Proof. reflexivity. Qed.

Lemma app_inj_tail_str (e : str) : Finite.Injective (fun b : str => b ++ e).
Proof. intros x y H; exact (app_inv_tail e x y H). Qed.

Lemma FULL_in_templates : In (lit "FULL") templates.
Proof. right; right; right; right; left; reflexivity. Qed.

(** C3 *)

(** Claim C3 (as amended): for every finite list of valid, distinct names
    whose base forms (no leading path, nothing from the first ['.']) are
    distinct, [get_unique_fastq_names] returns a mapping with exactly one
    entry per input name and pairwise distinct short names. *)
Theorem unique_fastq_names_total fs :
  (forall f, In f fs -> valid_base (base_form f)) ->
  NoDup (map base_form fs) ->
  exists m, get_unique_fastq_names fs = Some m /\
            (forall f, In f fs <-> In f (map fst m)) /\
            NoDup (map fst m) /\ NoDup (map snd m).
Proof.
  intros Hv Hnd.
  assert (Hp : forall f, In f fs -> exists fq, IlluminaFastq f = Some fq).
  { intros f Hf; destruct (valid_parse f (Hv f Hf)) as (fq & H & _); eauto. }
  assert (Hndf : NoDup fs) by (eapply NoDup_map_inv; exact Hnd).
  unfold get_unique_fastq_names.
  destruct (scan_reads_some fs false false Hp) as [gr Hgr]; rewrite Hgr; cbn [opt_bind].
  set (pe := fst gr && snd gr).
  destruct (try_templates_full templates pe fs FULL_in_templates) as [m Hm].
  - intro t; now apply name_loop_some.
  - destruct (name_loop_all_new (lit "FULL") pe fs [] [] Hp) as (m & u & Hr & Hl).
    + replace (map (name_of (lit "FULL") pe) fs)
        with (map (fun b : str => b ++ lit ".fastq.gz") (map base_form fs)).
      * apply Finite.Injective_map_NoDup; [apply app_inj_tail_str | exact Hnd].
      * rewrite map_map; apply map_ext_in; intros f Hf.
        destruct (valid_parse f (Hv f Hf)) as (fq & Hfq & Hrep).
        unfold name_of; rewrite Hfq, render_full, Hrep; reflexivity.
    + intros f _ [].
    + exists m, u; split; [exact Hr | exact Hl].
  - exists m; split; [exact Hm|].
    destruct (try_templates_result _ _ _ _ Hm) as (t & u & Hr & Hl).
    destruct (name_loop_inv _ _ _ _ _ _ _ Hr (NoDup_nil _)) as (Hu & _ & H3).
    destruct (H3 ltac:(simpl; lia) ltac:(exact Hndf) eq_refl) as [Hk Hvals].
    simpl in Hk, Hvals; rewrite Hk, Hvals.
    split; [tauto | split; assumption].
Qed.

Lemma valid_base_example : valid_base (lit "A_TAG_L001_R1_001").
Proof.
  exists (lit "A"), (lit "TAG"), (lit "001"), "1"%char, (lit "001").
  repeat split; simpl; try reflexivity; intuition discriminate.
Qed.

Lemma unique_fastq_names_total_witness :
  exists m, get_unique_fastq_names (map lit ["A_TAG_L001_R1_001"; "A_TAG_L002_R1_001"]%string) = Some m /\
            (forall f, In f (map lit ["A_TAG_L001_R1_001"; "A_TAG_L002_R1_001"]%string) <-> In f (map fst m)) /\
            NoDup (map fst m) /\ NoDup (map snd m).
Proof.
  apply unique_fastq_names_total.
  - intros f [<-|[<-|[]]]; [exact valid_base_example|].
    exists (lit "A"), (lit "TAG"), (lit "002"), "1"%char, (lit "001").
    repeat split; simpl; try reflexivity; intuition discriminate.
  - vm_compute; repeat constructor; simpl; intuition discriminate.
Defined.

(** Claim C3 as stated fails: two distinct valid names with the same base
    form render the same [FULL] name, so every template fails and the call
    raises. *)
Lemma unique_fastq_names_counterexample :
  let fs := map lit ["A_TAG_L001_R1_001"; "A_TAG_L001_R1_001.fastq.gz"]%string in
  NoDup fs /\ (forall f, In f fs -> valid_base (base_form f)) /\
  get_unique_fastq_names fs = None.
Proof.
  intro fs; split; [|split].
  - subst fs; simpl; constructor; [simpl; intuition discriminate | constructor; [tauto | constructor]].
  - intros f [<-|[<-|[]]]; exact valid_base_example.
  - vm_compute; reflexivity.
Qed.

(** ** [fix_illegal_names] *)

Lemma in_lstrip p s x : In x (lstrip_by p s) -> In x s.
Proof.
  induction s as [|y r IH]; simpl; [auto|].
  destruct (p y); simpl; intuition.
Qed.

Lemma in_strip p s x : In x (strip_by p s) -> In x s.
Proof.
  unfold strip_by; intros H.
  rewrite <- in_rev in H; apply in_lstrip in H.
  rewrite <- in_rev in H; exact (in_lstrip _ _ _ H).
Qed.

Lemma in_replace c d s x : In x (replace_char c d s) -> (In x s /\ x <> c) \/ x = d.
Proof.
  unfold replace_char; rewrite in_map_iff; intros [y [Hy Hin]].
  destruct (ascii_eqb y c) eqn:E; [now right|].
  apply ascii_eqb_false in E; subst; now left.
Qed.

Lemma fix_chunk_in c s x : In x (fix_chunk c s) -> (In x s /\ x <> c) \/ x = "_"%char.
Proof.
  unfold fix_chunk, strip_char, strip_ws; intros H.
  apply in_strip, in_replace in H.
  destruct H as [[H1 H2]|H]; [left; split; [exact (in_strip _ _ _ H1)|exact H2]|now right].
Qed.

(** What is left in the two names after the inner loop over [cs]. *)
Lemma fix_fold_in cs l x :
  (In x (SampleID (fold_left (fun l c => set_SampleProject (fix_chunk c (SampleProject l))
                          (set_SampleID (fix_chunk c (SampleID l)) l)) cs l)) ->
     (In x (SampleID l) /\ ~ In x cs) \/ x = "_"%char) /\
  (In x (SampleProject (fold_left (fun l c => set_SampleProject (fix_chunk c (SampleProject l))
                          (set_SampleID (fix_chunk c (SampleID l)) l)) cs l)) ->
     (In x (SampleProject l) /\ ~ In x cs) \/ x = "_"%char).
Proof.
  revert l; induction cs as [|c cs IH]; intros l; simpl.
  - split; intros H; left; auto.
  - destruct (IH (set_SampleProject (fix_chunk c (SampleProject l))
                   (set_SampleID (fix_chunk c (SampleID l)) l))) as [H1 H2].
    simpl in H1, H2; split; intros H.
    + destruct (H1 H) as [[Ha Hb]|Ha]; [|now right].
      destruct (fix_chunk_in _ _ _ Ha) as [[Hc Hd]|Hc]; [|now right].
      left; split; [exact Hc|intuition].
    + destruct (H2 H) as [[Ha Hb]|Ha]; [|now right].
      destruct (fix_chunk_in _ _ _ Ha) as [[Hc Hd]|Hc]; [|now right].
      left; split; [exact Hc|intuition].
Qed.

Lemma underscore_legal : ~ In "_"%char illegal_characters.
Proof. simpl; intuition discriminate. Qed.

Lemma contains_in c s : contains c s = true -> In c s.
Proof.
  unfold contains; rewrite existsb_exists; intros [y [Hy E]].
  apply ascii_eqb_true in E; now subst.
Qed.

(** A repaired line has no illegal character left. *)
Lemma fix_line_legal l : is_illegal (fix_line l) = false.
Proof.
  unfold is_illegal; destruct (existsb _ _) eqn:E; [|reflexivity].
  exfalso; apply existsb_exists in E; destruct E as [c [Hc E]].
  apply orb_true_iff in E; unfold fix_line in E.
  destruct (fix_fold_in illegal_characters l c) as [H1 H2].
  destruct E as [E|E]; apply contains_in in E;
    [destruct (H1 E) as [[_ Hn]|He]|destruct (H2 E) as [[_ Hn]|He]];
    try (exact (Hn Hc)); subst; exact (underscore_legal Hc).
Qed.

Lemma update_nth_app {A} (f : A -> A) (pre r : list A) x :
  update_nth f (length pre) (pre ++ x :: r) = pre ++ f x :: r.
Proof. induction pre as [|y pre IH]; simpl; [reflexivity|now rewrite IH]. Qed.

Lemma fix_illegal_from pre rows :
  fold_left (fun t i => update_nth fix_line i t) (illegal_from (length pre) rows) (pre ++ rows)
  = pre ++ map (fun r => if is_illegal r then fix_line r else r) rows.
Proof.
  revert pre; induction rows as [|r rs IH]; intros pre; simpl; [reflexivity|].
  destruct (is_illegal r); simpl.
  - rewrite update_nth_app.
    replace (S (length pre)) with (length (pre ++ [fix_line r])) by (rewrite length_app; simpl; lia).
    replace (pre ++ fix_line r :: rs) with ((pre ++ [fix_line r]) ++ rs) by (rewrite <- app_assoc; reflexivity).
    rewrite IH, <- app_assoc; reflexivity.
  - replace (S (length pre)) with (length (pre ++ [r])) by (rewrite length_app; simpl; lia).
    replace (pre ++ r :: rs) with ((pre ++ [r]) ++ rs) by (rewrite <- app_assoc; reflexivity).
    rewrite IH, <- app_assoc; reflexivity.
Qed.

Lemma fix_illegal_names_map t :
  fix_illegal_names t = map (fun r => if is_illegal r then fix_line r else r) t.
Proof. exact (fix_illegal_from [] t). Qed.

Lemma illegal_from_legal k rows :
  (forall r, In r rows -> is_illegal r = false) -> illegal_from k rows = [].
Proof.
  revert k; induction rows as [|r rs IH]; intros k H; simpl; [reflexivity|].
  rewrite (H r (or_introl eq_refl)); apply IH; intros; apply H; now right.
Qed.

(** C8: repairing illegal names twice gives the same sheet as repairing them
    once (in particular every SampleID and SampleProject is the same). *)
Theorem fix_illegal_names_idempotent t :
  fix_illegal_names (fix_illegal_names t) = fix_illegal_names t.
Proof.
  unfold fix_illegal_names at 1; unfold illegal_names.
  rewrite illegal_from_legal; [reflexivity|].
  rewrite fix_illegal_names_map; intros r Hr.
  apply in_map_iff in Hr; destruct Hr as [r0 [<- _]].
  destruct (is_illegal r0) eqn:E; [apply fix_line_legal|exact E].
Qed.

(** ** Reading the opening of a sample sheet *)

Lemma readline_spec s l r :
  readline s = (l, r) ->
  s = l ++ r /\ (r = [] \/ In r (after_newlines s)) /\ incl (after_newlines r) (after_newlines s).
Proof.
  revert l r; induction s as [|c s IH]; intros l r H; simpl in H.
  - inversion H; subst; split; [reflexivity|split; [now left|intros x Hx; exact Hx]].
  - destruct (ascii_eqb c "010"%char) eqn:E.
    + inversion H; subst; cbn [after_newlines]; unfold nl; rewrite E.
      split; [reflexivity|split; [right; now left|intros x Hx; now right]].
    + destruct (readline s) as [l' r'] eqn:E2; inversion H; subst.
      destruct (IH _ _ eq_refl) as [H1 [H2 H3]].
      cbn [after_newlines]; unfold nl; rewrite E.
      split; [simpl; f_equal; exact H1|split; assumption].
Qed.

Lemma startswith_app p a b : startswith p a = true -> startswith p (a ++ b) = true.
Proof.
  revert a; induction p as [|x p IH]; intros a H; [reflexivity|].
  destruct a as [|y a]; [discriminate|simpl in *].
  apply andb_true_iff in H; destruct H as [H1 H2]; rewrite H1; simpl; exact (IH _ H2).
Qed.

(** No line of [s] begins with [[Data]]: neither does its first line, nor the
    rest after it. *)
Lemma readline_no_data s l r :
  readline s = (l, r) ->
  (forall t, In t (line_starts s) -> startswith (lit "[Data]") t = false) ->
  startswith (lit "[Data]") l = false /\
  (forall t, In t (line_starts r) -> startswith (lit "[Data]") t = false).
Proof.
  intros E Hs; destruct (readline_spec _ _ _ E) as [H1 [H2 H3]]; split.
  - destruct (startswith (lit "[Data]") l) eqn:Hl; [|reflexivity].
    apply (startswith_app _ _ r) in Hl; rewrite <- H1 in Hl.
    rewrite (Hs s (or_introl eq_refl)) in Hl; discriminate.
  - intros t [<-|Ht].
    + destruct H2 as [->|H2]; [reflexivity|apply Hs; right; exact H2].
    + apply Hs; right; apply H3; exact Ht.
Qed.

Lemma skip_no_data fuel line rest :
  startswith (lit "[Data]") line = false ->
  (forall t, In t (line_starts rest) -> startswith (lit "[Data]") t = false) ->
  skip_to_data fuel line rest = OutOfFuel.
Proof.
  revert line rest; induction fuel as [|f IH]; intros line rest Hl Hr; [reflexivity|].
  cbn [skip_to_data]; rewrite Hl; destruct (readline rest) as [l r] eqn:E.
  destruct (readline_no_data _ _ _ E Hr) as [H1 H2]; exact (IH _ _ H1 H2).
Qed.

Lemma readline_line b r : ~ In nl b -> readline (b ++ nl :: r) = (b ++ [nl], r).
Proof.
  induction b as [|a b IH]; intros Hb; [reflexivity|].
  simpl; assert (E : ascii_eqb a "010"%char = false)
    by (apply ascii_eqb_false; intros ->; apply Hb; now left).
  rewrite E, IH; [reflexivity|intros H; apply Hb; now right].
Qed.

Lemma readline_line' b r : ~ In nl b -> readline ((b ++ [nl]) ++ r) = (b ++ [nl], r).
Proof. intros Hb; rewrite <- app_assoc; exact (readline_line b r Hb). Qed.

Lemma skip_sectioned ls : forall fuel line d post,
  Forall (fun l => is_line l /\ startswith (lit "[Data]") l = false) ls ->
  is_line d -> startswith (lit "[Data]") d = true -> length ls + 2 <= fuel ->
  startswith (lit "[Data]") line = false ->
  skip_to_data fuel line (concat ls ++ d ++ post) = Sectioned post.
Proof.
  induction ls as [|l ls IH]; intros fuel line d post Hls [b [-> Hb]] Hd Hf Hl.
  - destruct fuel as [|[|f]]; simpl in Hf; try lia.
    cbn [skip_to_data concat app]; rewrite Hl, <- app_assoc; cbn [app].
    rewrite readline_line by exact Hb; cbn [skip_to_data]; rewrite Hd; reflexivity.
  - inversion Hls as [|? ? [[c [-> Hc]] Hcd] Hrest]; subst.
    destruct fuel as [|f]; simpl in Hf; [lia|].
    cbn [skip_to_data]; rewrite Hl.
    cbn [concat]; rewrite <- (app_assoc (c ++ [nl])), readline_line' by exact Hc.
    apply (IH f _ _ _ Hrest); [exists b; auto|exact Hd|lia|exact Hcd].
Qed.

Lemma header_not_data l : startswith (lit "[Header]") l = true -> startswith (lit "[Data]") l = false.
Proof.
  destruct l as [|c1 [|c2 l]]; simpl; try discriminate.
  - rewrite andb_false_r; discriminate.
  - intros H; apply andb_true_iff in H as [H1 H2]; apply andb_true_iff in H2 as [H2 _].
    apply ascii_eqb_true in H1, H2; subst; reflexivity.
Qed.

(** C5: the first line read decides the format.  When it begins with
    [[Header]], the lines are skipped up to and including the first one that
    begins with [[Data]] and the text after it is the table; otherwise a first
    line with a comma gives the flat format, its comma-separated parts being
    the column names; any other first line, blank or bracketed as it may be,
    is rejected. *)
Theorem sheet_format_detection stream fuel line rest :
  readline stream = (line, rest) ->
  (startswith (lit "[Header]") line = true ->
     forall ls d post,
       Forall (fun l => is_line l /\ startswith (lit "[Data]") l = false) ls ->
       is_line d -> startswith (lit "[Data]") d = true -> length ls + 2 <= fuel ->
       rest = concat ls ++ d ++ post ->
       read_format fuel stream = Sectioned post) /\
  (startswith (lit "[Header]") line = false -> contains "," line = true ->
     read_format fuel stream = Flat (split_on "," line) rest) /\
  (startswith (lit "[Header]") line = false -> contains "," line = false ->
     forall FCID_default,
       read_format fuel stream = Unrecognised /\
       get_casava_sample_sheet fuel FCID_default stream = CasavaError).
Proof.
  intros E; unfold read_format; rewrite E; split; [|split].
  - intros Hh ls d post Hls Hd Hdd Hf ->; rewrite Hh.
    apply skip_sectioned; auto; exact (header_not_data _ Hh).
  - intros Hh Hc; rewrite Hh, Hc; reflexivity.
  - intros Hh Hc fcid; rewrite Hh, Hc; split; [reflexivity|].
    unfold get_casava_sample_sheet, read_format; rewrite E, Hh, Hc; reflexivity.
Qed.

Lemma sheet_format_detection_witness :
  readline (text_of_lines ["[Header]"%string; "IEMFileVersion,4"%string; "[Data]"%string; "Sample_ID,index"%string; "PB1,ATCACG"%string])
    = (lit "[Header]" ++ [nl],
       text_of_lines ["IEMFileVersion,4"%string; "[Data]"%string; "Sample_ID,index"%string; "PB1,ATCACG"%string]) /\
  read_format 10 (text_of_lines ["[Header]"%string; "IEMFileVersion,4"%string; "[Data]"%string; "Sample_ID,index"%string; "PB1,ATCACG"%string])
    = Sectioned (text_of_lines ["Sample_ID,index"%string; "PB1,ATCACG"%string]).
Proof.
  split; [reflexivity|].
  apply (proj1 (sheet_format_detection
                  (text_of_lines ["[Header]"%string; "IEMFileVersion,4"%string; "[Data]"%string; "Sample_ID,index"%string; "PB1,ATCACG"%string])
                  10 (lit "[Header]" ++ [nl])
                  (text_of_lines ["IEMFileVersion,4"%string; "[Data]"%string; "Sample_ID,index"%string; "PB1,ATCACG"%string])
                  eq_refl)
               eq_refl [lit "IEMFileVersion,4" ++ [nl]] (lit "[Data]" ++ [nl])
               (text_of_lines ["Sample_ID,index"%string; "PB1,ATCACG"%string])).
  - constructor; [split; [exists (lit "IEMFileVersion,4"); split; [reflexivity|simpl; intuition discriminate]|reflexivity]|constructor].
  - exists (lit "[Data]"); split; [reflexivity|simpl; intuition discriminate].
  - reflexivity.
  - simpl; lia.
  - reflexivity.
Defined.

(** The first line is not skipped when blank, and only [[Header]] opens the
    sectioned format: a blank first line, or a first section [[Reads]], makes
    the sheet unrecognised. *)
Lemma sheet_format_detection_counterexample :
  (forall fuel, read_format fuel
     (text_of_lines [""%string; "[Header]"%string; "[Data]"%string; "Sample_ID,index"%string; "PB1,ATCACG"%string]) = Unrecognised) /\
  (forall fuel, read_format fuel
     (text_of_lines ["[Reads]"%string; "[Data]"%string; "Sample_ID,index"%string; "PB1,ATCACG"%string]) = Unrecognised).
Proof. split; intros fuel; reflexivity. Qed.

(** C10: a stream whose first line begins with [[Header]] and in which no line
    begins with [[Data]] keeps the skipping loop running: for every bound on
    its iterations, the bound is reached. *)
Theorem header_without_data_never_ends stream fuel FCID_default :
  startswith (lit "[Header]") (fst (readline stream)) = true ->
  forallb (fun t => negb (startswith (lit "[Data]") t)) (line_starts stream) = true ->
  read_format fuel stream = OutOfFuel /\
  get_casava_sample_sheet fuel FCID_default stream = CasavaOutOfFuel.
Proof.
  intros Hh Hd.
  assert (Hall : forall t, In t (line_starts stream) -> startswith (lit "[Data]") t = false).
  { intros t Ht; rewrite forallb_forall in Hd; specialize (Hd t Ht).
    destruct (startswith _ t); [discriminate|reflexivity]. }
  assert (Hr : read_format fuel stream = OutOfFuel).
  { unfold read_format; destruct (readline stream) as [line rest] eqn:E.
    cbn [fst] in Hh; rewrite Hh.
    destruct (readline_no_data _ _ _ E Hall) as [H1 H2]; exact (skip_no_data _ _ _ H1 H2). }
  split; [exact Hr|unfold get_casava_sample_sheet; rewrite Hr; reflexivity].
Qed.

Lemma header_without_data_never_ends_witness :
  startswith (lit "[Header]") (fst (readline (text_of_lines ["[Header]"%string]))) = true /\
  read_format 1000 (text_of_lines ["[Header]"%string]) = OutOfFuel /\
  get_casava_sample_sheet 1000 [] (text_of_lines ["[Header]"%string]) = CasavaOutOfFuel.
Proof.
  split; [reflexivity|].
  apply (header_without_data_never_ends (text_of_lines ["[Header]"%string]) 1000 []); reflexivity.
Defined.

(** ** Construction from text *)

(** C7: [del(self[i])] inside [enumerate(self)] skips the row after a deleted
    one.  Two consecutive rows whose first field is a quoted ['#...'] are read
    as rows, lose their quotes and then both begin with ['#']; the first is
    deleted and the second stays in the sheet. *)
Theorem casava_init_adjacent_comments :
  exists t,
    CasavaSampleSheet_init
      (text_of_lines ["FCID,Lane,SampleID,SampleRef,Index,Description,Control,Recipe,Operator,SampleProject"%string;
                      String "034" ("#FC1" ++ String "034" ",1,PB1,,ATCACG,,N,,,PB")%string;
                      String "034" ("#FC1" ++ String "034" ",1,PB2,,TTAGGC,,N,,,PB")%string;
                      "FC1,1,PB3,,CGATGT,,N,,,PB"%string]) = Some t /\
    length t = 2 /\
    map (fun r => startswith (lit "#") (row_str r)) t = [true; false] /\
    map Lane t = [PyInt 1; PyInt 1].
Proof. eexists; split; [reflexivity|split; [reflexivity|split; reflexivity]]. Qed.

(** The sheet of [test_remove_quotes_and_comments]: one real row and one
    whose quoted first field begins with ['#'] give one row, its quotes
    removed and its [Lane] the [int] 1. *)
Lemma casava_init_remove_quotes_and_comments_example :
  let q s := String "034" (s ++ String "034" EmptyString)%string in
  CasavaSampleSheet_init
    (text_of_lines ["FCID,Lane,SampleID,SampleRef,Index,Description,Control,Recipe,Operator,SampleProject"%string;
                    (q "D190HACXX" ++ ",1," ++ q "PB" ++ "," ++ q "PB" ++ "," ++ q "CGATGT" ++ ","
                       ++ q "RNA-seq" ++ "," ++ q "N" ++ ",,," ++ q "Peter Briggs")%string;
                    (q "#D190HACXX" ++ ",2," ++ q "PB" ++ "," ++ q "PB" ++ "," ++ q "ACTGAT" ++ ","
                       ++ q "RNA-seq" ++ "," ++ q "N" ++ ",,," ++ q "Peter Briggs")%string])
  = Some [{| FCID := lit "D190HACXX"; Lane := PyInt 1; SampleID := lit "PB"; SampleRef := lit "PB";
             Index := lit "CGATGT"; Description := lit "RNA-seq"; Control := lit "N";
             Recipe := []; Operator := []; SampleProject := lit "Peter Briggs" |}].
Proof. vm_compute; reflexivity. Qed.

(** ** Conversion of sectioned-format rows *)

Lemma tab_get_clean src k :
  tab_get (clean_line src) k =
  option_map (fun v => tab_value k (strip_char (ascii_of_nat 34) (pyval_str v))) (tab_get src k).
Proof.
  induction src as [|[k' v] r IH]; cbn [clean_line map tab_get fst snd]; [reflexivity|].
  destruct (str_eqb k' k) eqn:E; [apply str_eqb_true in E; subst; reflexivity|exact IH].
Qed.

(** C6: one line of the [[Data]] table, its values stripped of double quotes
    ([q] below), becomes a row with the supplied FCID, the source Lane (an
    [int] when its text reads as one) or else 1, the index tag [<index>-<index2>] when both columns are there, the
    [index] value when only it is there and empty otherwise, and the source
    Sample_Project unless it is empty, the initials of Sample_ID then.  When
    the Sample_ID, Description or Sample_Project column is missing, the
    [KeyError] is not caught and no row is produced. *)
Theorem em_line_conversion FCID_default src :
  let q v := strip_char (ascii_of_nat 34) (pyval_str v) in
  convert_em_line FCID_default (clean_line src) =
    match tab_get src (lit "Sample_ID"), tab_get src (lit "Description"),
          tab_get src (lit "Sample_Project") with
    | Some sid, Some desc, Some proj =>
        Some {| FCID := FCID_default;
                Lane := match tab_get src (lit "Lane") with
                        | Some v => lane_value (q v)
                        | None => PyInt 1
                        end;
                SampleID := q sid; SampleRef := [];
                Index := match tab_get src (lit "index"), tab_get src (lit "index2") with
                         | Some a, Some b => q a ++ lit "-" ++ q b
                         | Some a, None => q a
                         | None, _ => []
                         end;
                Description := q desc; Control := []; Recipe := []; Operator := [];
                SampleProject := if str_eqb (q proj) [] then extract_initials (q sid) else q proj |}
    | _, _, _ => None
    end.
Proof.
  intros q; unfold convert_em_line; rewrite !tab_get_clean.
  destruct (tab_get src (lit "Lane")), (tab_get src (lit "index")), (tab_get src (lit "index2")),
    (tab_get src (lit "Sample_ID")), (tab_get src (lit "Description")),
    (tab_get src (lit "Sample_Project")); reflexivity.
Qed.

(** A sheet whose data table has no Description column is rejected. *)
Lemma em_line_conversion_counterexample :
  get_casava_sample_sheet 10 (lit "FC1")
    (text_of_lines ["[Header]"%string; "[Data]"%string; "Sample_ID,Sample_Project,index"%string;
                    "PB1,,ATCACG"%string]) = CasavaError.
Proof. reflexivity. Qed.

(** The two conversions of the spec's scenarios, on whole sheets. *)
Lemma em_single_index_example :
  get_casava_sample_sheet 10 (lit "FC1")
    (text_of_lines ["[Header]"%string; "[Data]"%string;
                    "Sample_ID,Sample_Project,index,Description"%string; "PB1,,ATCACG,"%string])
  = CasavaSheet [{| FCID := lit "FC1"; Lane := PyInt 1; SampleID := lit "PB1"; SampleRef := [];
                    Index := lit "ATCACG"; Description := []; Control := []; Recipe := [];
                    Operator := []; SampleProject := extract_initials (lit "PB1") |}].
Proof. reflexivity. Qed.

Lemma em_dual_index_example :
  get_casava_sample_sheet 10 (lit "FC1")
    (text_of_lines ["[Header]"%string; "[Data]"%string;
                    "Lane,Sample_ID,Sample_Project,index,index2,Description"%string;
                    "1,PB1,PB,TAAGGCGA,TAGATCGC,"%string])
  = CasavaSheet [{| FCID := lit "FC1"; Lane := PyInt 1; SampleID := lit "PB1"; SampleRef := [];
                    Index := lit "TAAGGCGA-TAGATCGC"; Description := []; Control := []; Recipe := [];
                    Operator := []; SampleProject := lit "PB" |}].
Proof. reflexivity. Qed.

(** ** [duplicated_names] *)

Lemma pyval_eqb_true a b : pyval_eqb a b = true <-> a = b.
Proof.
  destruct a as [x|x], b as [y|y]; simpl.
  - rewrite Z.eqb_eq; split; congruence.
  - split; discriminate.
  - split; discriminate.
  - rewrite str_eqb_true; split; congruence.
Qed.

Lemma key_eqb_true a b : key_eqb a b = true <-> a = b.
Proof.
  destruct a as [[[a1 a2] a3] a4], b as [[[b1 b2] b3] b4]; simpl.
  rewrite !andb_true_iff, !str_eqb_true, pyval_eqb_true.
  split; [intros [[[-> ->] ->] ->]; reflexivity|intros H; inversion H; subst; repeat split].
Qed.

Lemma key_eqb_refl k : key_eqb k k = true.
Proof. apply key_eqb_true; reflexivity. Qed.

Lemma key_eqb_false a b : key_eqb a b = false <-> a <> b.
Proof.
  split; intros H.
  - intros He; apply key_eqb_true in He; congruence.
  - destruct (key_eqb a b) eqn:E; [apply key_eqb_true in E; contradiction|reflexivity].
Qed.

Lemma existsb_key k ks : existsb (key_eqb k) ks = true <-> In k ks.
Proof.
  rewrite existsb_exists; split.
  - intros [x [Hx E]]; apply key_eqb_true in E; now subst.
  - intros H; exists k; split; [exact H|apply key_eqb_refl].
Qed.

Lemma filter_none {A} (f : A -> bool) l : (forall x, In x l -> f x = false) -> filter f l = [].
Proof.
  induction l as [|x l IH]; simpl; intros H; [reflexivity|].
  rewrite (H x (or_introl eq_refl)); apply IH; intros; apply H; now right.
Qed.

Lemma filter_all {A} (f : A -> bool) l : (forall x, In x l -> f x = true) -> filter f l = l.
Proof.
  induction l as [|x l IH]; simpl; intros H; [reflexivity|].
  rewrite (H x (or_introl eq_refl)), IH; [reflexivity|intros; apply H; now right].
Qed.

Lemma perm_filter {A} (f : A -> bool) l l' :
  Permutation l l' -> Permutation (filter f l) (filter f l').
Proof.
  induction 1 as [|x l l' _ IH|x y l|l l' l'' _ IH1 _ IH2]; simpl.
  - constructor.
  - destruct (f x); [constructor|]; exact IH.
  - destruct (f x), (f y); [apply perm_swap|apply Permutation_refl..].
  - exact (Permutation_trans IH1 IH2).
Qed.

(** *** The keys in the order of their first occurrence *)

Lemma first_keys_in k ks : In k (first_keys ks) <-> In k ks.
Proof.
  induction ks as [|x r IH]; simpl; [tauto|].
  rewrite filter_In, IH; destruct (key_eqb k x) eqn:E; simpl.
  - apply key_eqb_true in E; subst; intuition.
  - intuition.
Qed.

Lemma first_keys_nodup ks : NoDup (first_keys ks).
Proof.
  induction ks as [|x r IH]; simpl; constructor.
  - rewrite filter_In; intros [_ H]; rewrite key_eqb_refl in H; discriminate.
  - apply NoDup_filter; exact IH.
Qed.

Lemma first_keys_snoc ks k :
  first_keys (ks ++ [k]) = if existsb (key_eqb k) ks then first_keys ks else first_keys ks ++ [k].
Proof.
  induction ks as [|x r IH]; [reflexivity|].
  cbn [app first_keys existsb]; rewrite IH.
  destruct (key_eqb k x) eqn:E; cbn [orb].
  - destruct (existsb (key_eqb k) r); [reflexivity|].
    rewrite filter_app; apply key_eqb_true in E; subst; cbn [filter].
    rewrite key_eqb_refl; cbn [negb]; rewrite app_nil_r; reflexivity.
  - destruct (existsb (key_eqb k) r); [reflexivity|].
    rewrite filter_app; cbn [filter]; rewrite E; reflexivity.
Qed.

(** *** The rows of one identity tuple *)

Lemma filter_seq_shift (f : nat -> bool) a n :
  filter f (seq a n) = map (Nat.add a) (filter (fun i => f (a + i)) (seq 0 n)).
Proof.
  induction n as [|n IH]; [reflexivity|].
  rewrite !seq_S, !filter_app, map_app, IH; simpl.
  destruct (f (a + n)); reflexivity.
Qed.

Lemma rows_with_app a b k :
  rows_with (a ++ b) k = rows_with a k ++ map (Nat.add (length a)) (rows_with b k).
Proof.
  unfold rows_with; rewrite length_app, seq_app, filter_app, Nat.add_0_l.
  rewrite (filter_seq_shift _ (length a)); f_equal.
  - apply filter_ext_in; intros i Hi; apply in_seq in Hi.
    rewrite nth_error_app1 by lia; reflexivity.
  - f_equal; apply filter_ext_in; intros i _.
    rewrite nth_error_app2 by lia.
    replace (length a + i - length a) with i by lia; reflexivity.
Qed.

Lemma rows_with_single r k : rows_with [r] k = if key_eqb (row_key r) k then [0] else [].
Proof. unfold rows_with; simpl; destruct (key_eqb (row_key r) k); reflexivity. Qed.

Lemma rows_with_snoc t r k :
  rows_with (t ++ [r]) k = rows_with t k ++ (if key_eqb (row_key r) k then [length t] else []).
Proof.
  rewrite rows_with_app, rows_with_single.
  destruct (key_eqb (row_key r) k); simpl; [rewrite Nat.add_0_r|]; reflexivity.
Qed.

Lemma rows_with_none t k : ~ In k (map row_key t) -> rows_with t k = [].
Proof.
  unfold rows_with; intros H; apply filter_none; intros i _.
  destruct (nth_error t i) as [r|] eqn:E; [|reflexivity].
  apply key_eqb_false; intros He; apply H, in_map_iff.
  exists r; split; [exact He|exact (nth_error_In _ _ E)].
Qed.

Lemma rows_with_all t k : (forall r, In r t -> row_key r = k) -> rows_with t k = seq 0 (length t).
Proof.
  unfold rows_with; intros H; apply filter_all; intros i Hi; apply in_seq in Hi.
  destruct (nth_error t i) as [r|] eqn:E.
  - rewrite (H r (nth_error_In _ _ E)); apply key_eqb_refl.
  - apply nth_error_None in E; lia.
Qed.

Lemma rows_with_count t k :
  length (rows_with t k) = length (filter (fun k' => key_eqb k' k) (map row_key t)).
Proof.
  induction t as [|r t IH] using rev_ind; [reflexivity|].
  rewrite rows_with_snoc, map_app, filter_app, !length_app, IH; cbn [map filter].
  destruct (key_eqb (row_key r) k); reflexivity.
Qed.

Lemma nodup_count k ks : NoDup ks -> length (filter (fun k' => key_eqb k' k) ks) <= 1.
Proof.
  induction 1 as [|x l Hx Hnd IH]; cbn [filter]; [simpl; lia|].
  destruct (key_eqb x k) eqn:E; [|exact IH].
  apply key_eqb_true in E; subst.
  rewrite filter_none; [simpl; lia|].
  intros y Hy; apply key_eqb_false; intros ->; contradiction.
Qed.

(** *** The dict [samples] *)

Lemma add_sample_in K (f : key -> list nat) k n :
  NoDup K -> In k K ->
  add_sample (map (fun k' => (k', f k')) K) k n
  = map (fun k' => (k', f k' ++ if key_eqb k k' then [n] else [])) K.
Proof.
  induction K as [|x K IH]; intros Hnd Hin; [destruct Hin|].
  inversion Hnd as [|? ? Hx Hnd']; subst; cbn [map add_sample].
  destruct (key_eqb k x) eqn:E.
  - apply key_eqb_true in E; subst; f_equal.
    apply map_ext_in; intros k' Hk'.
    assert (E' : key_eqb x k' = false) by (apply key_eqb_false; intros ->; contradiction).
    rewrite E', app_nil_r; reflexivity.
  - rewrite app_nil_r; f_equal; apply IH; [exact Hnd'|].
    destruct Hin as [->|H]; [rewrite key_eqb_refl in E; discriminate|exact H].
Qed.

Lemma add_sample_notin K (f : key -> list nat) k n :
  ~ In k K ->
  add_sample (map (fun k' => (k', f k')) K) k n = map (fun k' => (k', f k')) K ++ [(k, [n])].
Proof.
  induction K as [|x K IH]; cbn [map add_sample]; intros H; [reflexivity|].
  assert (E : key_eqb k x = false) by (apply key_eqb_false; intros ->; apply H; now left).
  rewrite E, IH; [reflexivity|intros H'; apply H; now right].
Qed.

Lemma add_sample_step pre r :
  add_sample (map (fun k => (k, rows_with pre k)) (first_keys (map row_key pre))) (row_key r) (length pre)
  = map (fun k => (k, rows_with (pre ++ [r]) k)) (first_keys (map row_key (pre ++ [r]))).
Proof.
  rewrite map_app; cbn [map]; rewrite first_keys_snoc.
  destruct (existsb (key_eqb (row_key r)) (map row_key pre)) eqn:E.
  - apply existsb_key in E.
    rewrite add_sample_in; [|apply first_keys_nodup|apply first_keys_in; exact E].
    apply map_ext; intros k; rewrite rows_with_snoc; reflexivity.
  - assert (Hn : ~ In (row_key r) (map row_key pre))
      by (intros H; apply existsb_key in H; congruence).
    rewrite add_sample_notin by (rewrite first_keys_in; exact Hn).
    rewrite map_app; cbn [map]; f_equal.
    + apply map_ext_in; intros k Hk; rewrite rows_with_snoc.
      assert (E' : key_eqb (row_key r) k = false)
        by (apply key_eqb_false; intros Heq; rewrite <- Heq, first_keys_in in Hk; exact (Hn Hk)).
      rewrite E', app_nil_r; reflexivity.
    + rewrite rows_with_snoc, key_eqb_refl, rows_with_none by exact Hn; reflexivity.
Qed.

Lemma collect_samples_spec rows : forall pre,
  collect_samples rows (length pre) (map (fun k => (k, rows_with pre k)) (first_keys (map row_key pre)))
  = map (fun k => (k, rows_with (pre ++ rows) k)) (first_keys (map row_key (pre ++ rows))).
Proof.
  induction rows as [|r rs IH]; intros pre; cbn [collect_samples].
  - rewrite app_nil_r; reflexivity.
  - rewrite add_sample_step.
    replace (S (length pre)) with (length (pre ++ [r])) by (rewrite length_app; simpl; lia).
    rewrite IH, <- app_assoc; reflexivity.
Qed.

(** The dict [samples] maps the identity tuples, in the order of their first
    occurrence, to their rows in table order. *)
Lemma collect_samples_groups t :
  collect_samples t 0 [] = map (fun k => (k, rows_with t k)) (first_keys (map row_key t)).
Proof. exact (collect_samples_spec t []). Qed.

Lemma lookup_key_map K (f : key -> list nat) k : In k K -> lookup_key (map (fun k' => (k', f k')) K) k = f k.
Proof.
  induction K as [|x K IH]; cbn [map lookup_key]; intros H; [destruct H|].
  destruct (key_eqb k x) eqn:E; [apply key_eqb_true in E; now subst|].
  apply IH; destruct H as [->|H]; [rewrite key_eqb_refl in E; discriminate|exact H].
Qed.

(** Whatever the iteration order of the dict, the groups are the ones of the
    spec, in some order. *)
Lemma duplicated_names_perm dict_iter t :
  Permutation (dict_iter (first_keys (map row_key t))) (first_keys (map row_key t)) ->
  Permutation (duplicated_names dict_iter t) (duplicate_groups_spec t).
Proof.
  intros Hp; unfold duplicated_names, duplicate_groups_spec.
  rewrite collect_samples_groups.
  set (K := first_keys (map row_key t)) in *.
  assert (Hf : map fst (map (fun k => (k, rows_with t k)) K) = K) by (rewrite map_map; apply map_id).
  rewrite Hf; apply perm_filter.
  apply Permutation_trans with (map (lookup_key (map (fun k => (k, rows_with t k)) K)) K).
  - apply Permutation_map, Hp.
  - erewrite map_ext_in; [apply Permutation_refl|]; intros k Hk; apply lookup_key_map; exact Hk.
Qed.

Lemma duplicate_groups_spec_nodup t : NoDup (map row_key t) -> duplicate_groups_spec t = [].
Proof.
  intros H; unfold duplicate_groups_spec; apply filter_none; intros g Hg.
  apply in_map_iff in Hg; destruct Hg as [k [<- _]].
  apply Nat.ltb_ge; rewrite rows_with_count; exact (nodup_count k _ H).
Qed.

(** C9: [duplicated_names] returns exactly the groups of more than one row
    sharing an identity tuple, each group in table order; the groups come in
    the iteration order of the dict [samples], any permutation of the order
    of first occurrence. *)
Theorem duplicated_names_groups dict_iter t :
  Permutation (dict_iter (first_keys (map row_key t))) (first_keys (map row_key t)) ->
  Permutation (duplicated_names dict_iter t) (duplicate_groups_spec t).
Proof. exact (duplicated_names_perm dict_iter t). Qed.

Lemma duplicated_names_groups_witness :
  Permutation
    (CPython27.cpython27_order
       (first_keys (map row_key [sample_row "A" "P"; sample_row "B" "P"; sample_row "A" "P"; sample_row "B" "P"])))
    (first_keys (map row_key [sample_row "A" "P"; sample_row "B" "P"; sample_row "A" "P"; sample_row "B" "P"])) /\
  Permutation
    (duplicated_names CPython27.cpython27_order
       [sample_row "A" "P"; sample_row "B" "P"; sample_row "A" "P"; sample_row "B" "P"])
    (duplicate_groups_spec [sample_row "A" "P"; sample_row "B" "P"; sample_row "A" "P"; sample_row "B" "P"]).
Proof.
  split; [vm_compute; apply perm_swap|].
  apply duplicated_names_groups; vm_compute; apply perm_swap.
Defined.

(** Under CPython 2.7 the group of B, whose tuple first occurs second, comes
    first. *)
Lemma duplicated_names_groups_counterexample :
  duplicated_names CPython27.cpython27_order
    [sample_row "A" "P"; sample_row "B" "P"; sample_row "A" "P"; sample_row "B" "P"] = [[1; 3]; [0; 2]] /\
  duplicate_groups_spec
    [sample_row "A" "P"; sample_row "B" "P"; sample_row "A" "P"; sample_row "B" "P"] = [[0; 2]; [1; 3]].
Proof. split; vm_compute; reflexivity. Qed.

(** *** [fix_duplicated_names] *)

Lemma nth_error_update_same {A} (f : A -> A) i (t : list A) :
  nth_error (update_nth f i t) i = option_map f (nth_error t i).
Proof. revert i; induction t as [|x t IH]; intros [|i]; simpl; auto. Qed.

Lemma nth_error_update_other {A} (f : A -> A) i p (t : list A) :
  p <> i -> nth_error (update_nth f i t) p = nth_error t p.
Proof.
  revert i p; induction t as [|x t IH]; intros [|i] [|p] H; simpl; auto; try congruence;
    apply IH; congruence.
Qed.

Lemma length_update_nth {A} (f : A -> A) i (t : list A) : length (update_nth f i t) = length t.
Proof. revert i; induction t as [|x t IH]; intros [|i]; simpl; auto. Qed.

Lemma length_suffix_group dup : forall i t, length (suffix_group i dup t) = length t.
Proof.
  induction dup as [|h r IH]; intros i t; cbn [suffix_group]; [reflexivity|].
  rewrite IH; apply length_update_nth.
Qed.

Lemma suffix_group_other dup : forall i t p, ~ In p dup -> nth_error (suffix_group i dup t) p = nth_error t p.
Proof.
  induction dup as [|h r IH]; intros i t p H; cbn [suffix_group]; [reflexivity|].
  rewrite IH by (intros H'; apply H; now right).
  apply nth_error_update_other; intros ->; apply H; now left.
Qed.

(** The member at place [m] of a group gets the suffix [_<i+m+1>]. *)
Lemma suffix_group_nth dup : forall i t m p,
  NoDup dup -> nth_error dup m = Some p ->
  nth_error (suffix_group i dup t) p =
    option_map (fun l => set_SampleID (SampleID l ++ lit "_" ++ show_Z (Z.of_nat (i + m + 1))) l)
               (nth_error t p).
Proof.
  induction dup as [|h r IH]; intros i t m p Hnd Hm; [destruct m; discriminate|].
  inversion Hnd as [|? ? Hh Hr]; subst.
  destruct m as [|m]; cbn [nth_error] in Hm.
  - injection Hm as <-; cbn [suffix_group].
    rewrite suffix_group_other by exact Hh.
    rewrite nth_error_update_same, Nat.add_0_r; reflexivity.
  - cbn [suffix_group]; rewrite (IH (S i) _ m p Hr Hm).
    rewrite nth_error_update_other by (intros ->; apply Hh; exact (nth_error_In _ _ Hm)).
    replace (S i + m + 1) with (i + S m + 1) by lia; reflexivity.
Qed.

Lemma map_add_seq a b n : map (Nat.add a) (seq b n) = seq (a + b) n.
Proof.
  revert b; induction n as [|n IH]; intros b; [reflexivity|].
  simpl; rewrite IH, Nat.add_succ_r; reflexivity.
Qed.

Lemma nth_error_around {A} (pre post : list A) d p r :
  nth_error (pre ++ d :: post) p = Some r -> p <> length pre -> In r (pre ++ post).
Proof.
  intros H Hne; apply in_or_app.
  destruct (Nat.lt_ge_cases p (length pre)) as [Hl|Hl].
  - rewrite nth_error_app1 in H by exact Hl; left; exact (nth_error_In _ _ H).
  - rewrite nth_error_app2 in H by exact Hl.
    destruct (p - length pre) as [|q] eqn:E; [lia|].
    right; cbn [nth_error] in H; exact (nth_error_In _ _ H).
Qed.

Lemma suffixed_inj (s : str) a b :
  s ++ lit "_" ++ show_Z (Z.of_nat a) = s ++ lit "_" ++ show_Z (Z.of_nat b) -> a = b.
Proof.
  intros H; apply app_inv_head, app_inv_head in H.
  rewrite !show_Z_of_nat in H; exact (show_nat_inj _ _ H).
Qed.

(** C4: for a sheet of [N >= 2] rows with one identity tuple [(s, pr, ix, ln)]
    and one row [d] with another tuple, which is also none of the suffixed
    tuples [(s_<n>, pr, ix, ln)], [1 <= n <= N]: [duplicated_names] gives the
    one group of the [N] rows in table order; after [fix_duplicated_names]
    the member at place [m] of that group has [_<m+1>] appended to its
    SampleID, [d] and the length are unchanged, and [duplicated_names] is
    empty. *)
Theorem duplicate_repair dict_iter pre d post s pr ix ln :
  (forall ks, NoDup ks -> Permutation (dict_iter ks) ks) ->
  2 <= length pre + length post ->
  (forall r, In r (pre ++ post) -> row_key r = (s, pr, ix, ln)) ->
  row_key d <> (s, pr, ix, ln) ->
  (forall n, 1 <= n <= length pre + length post ->
     row_key d <> (s ++ lit "_" ++ show_Z (Z.of_nat n), pr, ix, ln)) ->
  let t := pre ++ d :: post in
  let G := seq 0 (length pre) ++ seq (S (length pre)) (length post) in
  duplicated_names dict_iter t = [G] /\
  duplicated_names dict_iter (fix_duplicated_names dict_iter t) = [] /\
  length (fix_duplicated_names dict_iter t) = length t /\
  nth_error (fix_duplicated_names dict_iter t) (length pre) = Some d /\
  (forall m p r, nth_error G m = Some p -> nth_error t p = Some r ->
     nth_error (fix_duplicated_names dict_iter t) p =
       Some (set_SampleID (SampleID r ++ lit "_" ++ show_Z (Z.of_nat (m + 1))) r)).
Proof.
  intros Hperm HN Hk Hd Hsfx t G.
  assert (HG : rows_with t (s, pr, ix, ln) = G).
  { unfold t, G; rewrite rows_with_app.
    change (d :: post) with ([d] ++ post); rewrite rows_with_app, rows_with_single.
    rewrite (proj2 (key_eqb_false _ _) Hd).
    rewrite (rows_with_all pre) by (intros r Hr; apply Hk, in_or_app; now left).
    rewrite (rows_with_all post) by (intros r Hr; apply Hk, in_or_app; now right).
    cbn [app length]; rewrite !map_add_seq.
    f_equal; f_equal; lia. }
  assert (Hd1 : length (rows_with t (row_key d)) = 1).
  { rewrite rows_with_count; unfold t; rewrite map_app, filter_app; cbn [map filter].
    rewrite key_eqb_refl, !filter_none; [reflexivity| |];
      intros x Hx; apply in_map_iff in Hx; destruct Hx as [r [<- Hr]];
      apply key_eqb_false; rewrite (Hk r) by (apply in_or_app; tauto);
      intros He; apply Hd; symmetry; exact He. }
  assert (Hspec : Permutation (duplicate_groups_spec t) [G]).
  { unfold duplicate_groups_spec.
    apply Permutation_trans with
      (filter (fun g => 1 <? length g) (map (rows_with t) [(s, pr, ix, ln); row_key d])).
    - apply perm_filter, Permutation_map, NoDup_Permutation; [apply first_keys_nodup| |].
      + constructor; [|constructor; [intros []|constructor]].
        intros [H|[]]; exact (Hd H).
      + intros x; rewrite first_keys_in; split.
        * intros Hx; apply in_map_iff in Hx; destruct Hx as [r [<- Hr]].
          unfold t in Hr; apply in_app_or in Hr.
          destruct Hr as [Hr|[<-|Hr]];
            [left; symmetry; apply Hk, in_or_app; now left
            |right; now left
            |left; symmetry; apply Hk, in_or_app; now right].
        * intros [<-|[<-|[]]]; apply in_map_iff.
          -- assert (Hex : exists r0, In r0 (pre ++ post)).
             { destruct (pre ++ post) as [|r0 rest] eqn:E; [|exists r0; now left].
               exfalso; apply (f_equal (@length row)) in E; rewrite length_app in E; simpl in E; lia. }
             destruct Hex as [r0 Hr0]; exists r0; split; [exact (Hk r0 Hr0)|].
             unfold t; apply in_app_or in Hr0; apply in_or_app.
             destruct Hr0 as [Hr0|Hr0]; [now left|right; now right].
          -- exists d; split; [reflexivity|unfold t; apply in_or_app; right; now left].
    - cbn [map filter]; rewrite HG, Hd1.
      assert (E : (1 <? length G) = true)
        by (apply Nat.ltb_lt; unfold G; rewrite length_app, !length_seq; lia).
      rewrite E; apply Permutation_refl. }
  assert (Hdup : duplicated_names dict_iter t = [G]).
  { apply Permutation_length_1_inv, Permutation_sym.
    eapply Permutation_trans; [|exact Hspec].
    apply duplicated_names_perm, Hperm, first_keys_nodup. }
  assert (Hfix : fix_duplicated_names dict_iter t = suffix_group 0 G t)
    by (unfold fix_duplicated_names; rewrite Hdup; reflexivity).
  assert (HGnd : NoDup G).
  { unfold G; apply NoDup_app; [apply seq_NoDup|apply seq_NoDup|].
    intros a Ha Hb; apply in_seq in Ha, Hb; lia. }
  assert (HnG : ~ In (length pre) G).
  { unfold G; intros H; apply in_app_or in H; destruct H as [H|H]; apply in_seq in H; lia. }
  assert (Hlen : length (fix_duplicated_names dict_iter t) = length t)
    by (rewrite Hfix; apply length_suffix_group).
  assert (Hmid : nth_error (fix_duplicated_names dict_iter t) (length pre) = Some d).
  { rewrite Hfix, suffix_group_other by exact HnG.
    unfold t; rewrite nth_error_app2, Nat.sub_diag by lia; reflexivity. }
  assert (Hrows : forall m p r, nth_error G m = Some p -> nth_error t p = Some r ->
     nth_error (fix_duplicated_names dict_iter t) p =
       Some (set_SampleID (SampleID r ++ lit "_" ++ show_Z (Z.of_nat (m + 1))) r)).
  { intros m p r Hm Hp; rewrite Hfix, (suffix_group_nth G 0 t m p HGnd Hm), Hp; reflexivity. }
  assert (Hlt : length t = length pre + S (length post))
    by (unfold t; rewrite length_app; reflexivity).
  assert (HGpos : forall p, p < length t -> p <> length pre ->
            exists m, nth_error G m = Some p /\
                      m + 1 = (if p <? length pre then p + 1 else p)).
  { intros p Hp Hne; destruct (p <? length pre) eqn:E.
    - exists p; split; [|reflexivity].
      unfold G; rewrite nth_error_app1 by (rewrite length_seq; apply Nat.ltb_lt; exact E).
      rewrite nth_error_seq, E; reflexivity.
    - apply Nat.ltb_ge in E; exists (p - 1); split; [|lia].
      unfold G; rewrite nth_error_app2 by (rewrite length_seq; lia).
      rewrite length_seq, nth_error_seq.
      replace (p - 1 - length pre <? length post) with true by (symmetry; apply Nat.ltb_lt; lia).
      f_equal; lia. }
  assert (Hkey : forall p, p < length t -> p <> length pre ->
            exists m, nth_error (map row_key (fix_duplicated_names dict_iter t)) p
                        = Some (s ++ lit "_" ++ show_Z (Z.of_nat (m + 1)), pr, ix, ln) /\
                      m + 1 = (if p <? length pre then p + 1 else p)).
  { intros p Hp Hne; destruct (HGpos p Hp Hne) as [m [Hm Hm1]].
    destruct (nth_error t p) as [r|] eqn:Er; [|apply nth_error_None in Er; lia].
    exists m; split; [|exact Hm1].
    rewrite nth_error_map, (Hrows m p r Hm Er); cbn [option_map].
    assert (Hr : row_key r = (s, pr, ix, ln)) by (apply Hk; exact (nth_error_around _ _ _ _ _ Er Hne)).
    unfold row_key in Hr |- *; injection Hr as H1 H2 H3 H4; cbn.
    rewrite H1, H2, H3, H4; reflexivity. }
  assert (Hmidk : nth_error (map row_key (fix_duplicated_names dict_iter t)) (length pre) = Some (row_key d))
    by (rewrite nth_error_map, Hmid; reflexivity).
  assert (Hnd : NoDup (map row_key (fix_duplicated_names dict_iter t))).
  { apply NoDup_nth_error; intros i j Hi Heq.
    rewrite length_map, Hlen in Hi.
    destruct (Nat.lt_ge_cases j (length t)) as [Hj|Hj].
    2: { rewrite (proj2 (nth_error_None _ j)) in Heq by (rewrite length_map, Hlen; exact Hj).
         apply nth_error_None in Heq; rewrite length_map, Hlen in Heq; lia. }
    destruct (Nat.eq_dec i (length pre)) as [->|Hi'], (Nat.eq_dec j (length pre)) as [->|Hj'];
      [reflexivity| | |].
    - destruct (Hkey j Hj Hj') as [m [Hm Hm1]]; rewrite Hmidk, Hm in Heq.
      exfalso; apply (Hsfx (m + 1)); [|congruence].
      destruct (j <? length pre) eqn:E; [apply Nat.ltb_lt in E|apply Nat.ltb_ge in E]; lia.
    - destruct (Hkey i Hi Hi') as [m [Hm Hm1]]; rewrite Hmidk, Hm in Heq.
      exfalso; apply (Hsfx (m + 1)); [|congruence].
      destruct (i <? length pre) eqn:E; [apply Nat.ltb_lt in E|apply Nat.ltb_ge in E]; lia.
    - destruct (Hkey i Hi Hi') as [m [Hm Hm1]], (Hkey j Hj Hj') as [m' [Hm' Hm1']].
      rewrite Hm, Hm' in Heq.
      assert (Hs : s ++ lit "_" ++ show_Z (Z.of_nat (m + 1)) = s ++ lit "_" ++ show_Z (Z.of_nat (m' + 1)))
        by congruence.
      apply suffixed_inj in Hs.
      destruct (i <? length pre) eqn:Ei, (j <? length pre) eqn:Ej;
        [apply Nat.ltb_lt in Ei, Ej|apply Nat.ltb_lt in Ei; apply Nat.ltb_ge in Ej
        |apply Nat.ltb_ge in Ei; apply Nat.ltb_lt in Ej|apply Nat.ltb_ge in Ei, Ej]; lia. }
  split; [exact Hdup|split; [|split; [exact Hlen|split; [exact Hmid|exact Hrows]]]].
  apply Permutation_nil, Permutation_sym.
  rewrite <- (duplicate_groups_spec_nodup _ Hnd).
  apply duplicated_names_perm, Hperm, first_keys_nodup.
Qed.

Lemma duplicate_repair_witness :
  duplicated_names (fun ks => ks)
    [sample_row "A" "P"; sample_row "A" "P"; sample_row "B" "P"; sample_row "A" "P"] = [[0; 1; 3]] /\
  duplicated_names (fun ks => ks)
    (fix_duplicated_names (fun ks => ks)
       [sample_row "A" "P"; sample_row "A" "P"; sample_row "B" "P"; sample_row "A" "P"]) = [].
Proof.
  pose proof (duplicate_repair (fun ks => ks)
                [sample_row "A" "P"; sample_row "A" "P"] (sample_row "B" "P") [sample_row "A" "P"]
                (lit "A") (lit "P") [] (PyInt 1)
                (fun ks _ => Permutation_refl ks)
                ltac:(simpl; lia)
                ltac:(intros r Hr; simpl in Hr; intuition (subst; reflexivity))
                ltac:(vm_compute; discriminate)
                ltac:(intros n Hn H; vm_compute in H; discriminate H)) as [H1 [H2 _]].
  split; [exact H1|exact H2].
Defined.

(** A row [A_1] next to a group of two [A] rows: the repair renames the
    first of the two [A_1], which collides with the row already named so. *)
Lemma duplicate_repair_counterexample :
  duplicated_names CPython27.cpython27_order
    [sample_row "A" "P"; sample_row "A" "P"; sample_row "A_1" "P"] = [[0; 1]] /\
  duplicated_names CPython27.cpython27_order
    (fix_duplicated_names CPython27.cpython27_order
       [sample_row "A" "P"; sample_row "A" "P"; sample_row "A_1" "P"]) = [[0; 2]].
Proof. split; vm_compute; reflexivity. Qed.

(** * Further properties of the code *)
(** ** Sorting *)

Lemma str_leb_refl a : str_leb a a = true.
Proof. induction a as [|x a IH]; simpl; [reflexivity|]. now rewrite Nat.ltb_irrefl. Qed.

Lemma nat_of_ascii_inj x y : nat_of_ascii x = nat_of_ascii y -> x = y.
Proof.
  intros H; rewrite <- (ascii_nat_embedding x), <- (ascii_nat_embedding y); now rewrite H.
Qed.

Lemma str_leb_total a b : str_leb a b = false -> str_leb b a = true.
Proof.
  revert b; induction a as [|x a IH]; intros [|y b] H; cbn [str_leb] in *; try discriminate; auto.
  destruct (nat_of_ascii x <? nat_of_ascii y) eqn:E1; [discriminate|].
  destruct (nat_of_ascii y <? nat_of_ascii x) eqn:E2; [reflexivity|].
  exact (IH b H).
Qed.

Lemma str_leb_antisym a b : str_leb a b = true -> str_leb b a = true -> a = b.
Proof.
  revert b; induction a as [|x a IH]; intros [|y b]; cbn [str_leb]; try discriminate; [reflexivity|].
  destruct (nat_of_ascii x <? nat_of_ascii y) eqn:E1;
  destruct (nat_of_ascii y <? nat_of_ascii x) eqn:E2; try discriminate.
  - apply Nat.ltb_lt in E1, E2; lia.
  - apply Nat.ltb_ge in E1, E2. intros H1 H2.
    f_equal; [apply nat_of_ascii_inj; lia | now apply IH].
Qed.

Lemma str_leb_trans a b c : str_leb a b = true -> str_leb b c = true -> str_leb a c = true.
Proof.
  revert b c; induction a as [|x a IH]; intros [|y b] [|z c]; cbn [str_leb]; try discriminate; auto.
  destruct (nat_of_ascii x <? nat_of_ascii y) eqn:E1;
  destruct (nat_of_ascii y <? nat_of_ascii x) eqn:E2;
  destruct (nat_of_ascii y <? nat_of_ascii z) eqn:E3;
  destruct (nat_of_ascii z <? nat_of_ascii y) eqn:E4;
  destruct (nat_of_ascii x <? nat_of_ascii z) eqn:E5;
  destruct (nat_of_ascii z <? nat_of_ascii x) eqn:E6;
  rewrite ?Nat.ltb_lt, ?Nat.ltb_ge in *; try lia; try discriminate; auto.
  apply IH.
Qed.

Lemma str_leb_prefix p a b : str_leb (p ++ a) (p ++ b) = str_leb a b.
Proof. induction p as [|x p IH]; simpl; [reflexivity|]. now rewrite Nat.ltb_irrefl. Qed.


Lemma insert_str_perm x l : Permutation (insert_str x l) (x :: l).
Proof.
  induction l as [|y l IH]; simpl; [reflexivity|].
  destruct (str_leb x y); [reflexivity|].
  rewrite IH; apply perm_swap.
Qed.

Lemma py_sort_perm l : Permutation (py_sort l) l.
Proof.
  induction l as [|x l IH]; simpl; [reflexivity|].
  rewrite insert_str_perm; now apply perm_skip.
Qed.

Lemma insert_str_sorted x l : StronglySorted str_le l -> StronglySorted str_le (insert_str x l).
Proof.
  induction l as [|y l IH]; intros Hs; simpl.
  - repeat constructor.
  - inversion Hs as [|? ? Hl Hf]; subst.
    destruct (str_leb x y) eqn:E.
    + constructor; [exact Hs|]. constructor; [exact E|].
      rewrite Forall_forall in *; intros z Hz; exact (str_leb_trans _ _ _ E (Hf z Hz)).
    + constructor; [now apply IH|].
      apply Forall_forall; intros z Hz.
      apply (Permutation_in _ (insert_str_perm x l)) in Hz; destruct Hz as [<-|Hz].
      * exact (str_leb_total _ _ E).
      * rewrite Forall_forall in Hf; exact (Hf z Hz).
Qed.

Lemma py_sort_sorted l : StronglySorted str_le (py_sort l).
Proof. induction l as [|x l IH]; simpl; [constructor|]. now apply insert_str_sorted. Qed.

Lemma sorted_perm_eq l1 l2 :
  StronglySorted str_le l1 -> StronglySorted str_le l2 -> Permutation l1 l2 -> l1 = l2.
Proof.
  revert l2; induction l1 as [|a l1 IH]; intros [|b l2] H1 H2 Hp.
  - reflexivity.
  - apply Permutation_nil in Hp; discriminate.
  - symmetry in Hp; apply Permutation_nil in Hp; discriminate.
  - inversion H1 as [|? ? S1 F1]; inversion H2 as [|? ? S2 F2]; subst.
    rewrite Forall_forall in F1, F2.
    assert (Hab : a = b).
    { assert (Ha : In a (b :: l2)) by (apply (Permutation_in _ Hp); now left).
      assert (Hb : In b (a :: l1)) by (apply (Permutation_in _ (Permutation_sym Hp)); now left).
      destruct Ha as [Ha|Ha]; [now subst|]; destruct Hb as [Hb|Hb]; [now subst|].
      exact (str_leb_antisym _ _ (F1 b Hb) (F2 a Ha)). }
    subst; f_equal; apply IH; auto.
    exact (Permutation_cons_inv Hp).
Qed.

(** The result of [sort] depends only on the elements. *)
Lemma py_sort_perm_eq l1 l2 : Permutation l1 l2 -> py_sort l1 = py_sort l2.
Proof.
  intros Hp; apply sorted_perm_eq; try apply py_sort_sorted.
  rewrite !py_sort_perm; exact Hp.
Qed.

Lemma py_sort_idem l : py_sort (py_sort l) = py_sort l.
Proof. apply py_sort_perm_eq, py_sort_perm. Qed.

Lemma insert_str_prefix p x l :
  insert_str (p ++ x) (map (app p) l) = map (app p) (insert_str x l).
Proof.
  induction l as [|y l IH]; simpl; [reflexivity|].
  rewrite str_leb_prefix; destruct (str_leb x y); simpl; [reflexivity|now rewrite IH].
Qed.

Lemma py_sort_prefix p l : py_sort (map (app p) l) = map (app p) (py_sort l).
Proof. induction l as [|x l IH]; simpl; [reflexivity|]. now rewrite IH, insert_str_prefix. Qed.


(** ** Strings, dicts and paths *)

Lemma ascii_eqb_refl a : ascii_eqb a a = true.
Proof. now apply ascii_eqb_true. Qed.

Lemma str_eqb_refl a : str_eqb a a = true.
Proof. now apply str_eqb_true. Qed.

Lemma startswith_self p b : startswith p (p ++ b) = true.
Proof. induction p as [|x p IH]; cbn [startswith app]; [reflexivity|]. now rewrite ascii_eqb_refl, IH. Qed.

Lemma startswith_true p s : startswith p s = true -> exists b, s = p ++ b.
Proof.
  revert s; induction p as [|x p IH]; intros s H; [now exists s|].
  destruct s as [|y s]; [discriminate|]; cbn [startswith] in H.
  apply andb_true_iff in H; destruct H as [H1 H2]; apply ascii_eqb_true in H1; subst.
  destruct (IH s H2) as [b ->]; now exists b.
Qed.

Lemma endswith_app suf x : endswith suf (x ++ suf) = true.
Proof. unfold endswith; rewrite rev_app_distr; apply startswith_self. Qed.

Lemma endswith_true suf s : endswith suf s = true -> exists x, s = x ++ suf.
Proof.
  unfold endswith; intros H; apply startswith_true in H; destruct H as [b Hb].
  exists (rev b); rewrite <- (rev_involutive s), Hb, rev_app_distr, rev_involutive; reflexivity.
Qed.

Lemma dict_get_set_same {V} (d : list (str * V)) k v : dict_get (dict_set d k v) k = Some v.
Proof.
  induction d as [|[k' v'] d IH]; cbn [dict_set dict_get]; [now rewrite str_eqb_refl|].
  destruct (str_eqb k k') eqn:E; cbn [dict_get]; [now rewrite str_eqb_refl|now rewrite E].
Qed.

Lemma dict_get_set_other {V} (d : list (str * V)) k k' v :
  k' <> k -> dict_get (dict_set d k v) k' = dict_get d k'.
Proof.
  intros Hne; induction d as [|[k0 v0] d IH]; cbn [dict_set dict_get].
  - now replace (str_eqb k' k) with false by (symmetry; now apply str_eqb_false).
  - destruct (str_eqb k k0) eqn:E; cbn [dict_get].
    + apply str_eqb_true in E; subst.
      now replace (str_eqb k' k0) with false by (symmetry; now apply str_eqb_false).
    + destruct (str_eqb k' k0); [reflexivity|exact IH].
Qed.

Lemma skipn_length_app {A} (x y : list A) : skipn (length x) (x ++ y) = y.
Proof. induction x; [reflexivity|exact IHx]. Qed.

Lemma basename_aux_slash cur x b : basename_aux cur (x ++ "/"%char :: b) = basename_aux [] b.
Proof.
  revert cur; induction x as [|y x IH]; intros cur; cbn [app basename_aux].
  - now rewrite ascii_eqb_refl.
  - destruct (ascii_eqb y "/"); apply IH.
Qed.

(** A name without a slash joined to any directory is the basename of the
    joined path. *)
Lemma basename_path_join a b : ~ In "/"%char b -> basename (path_join a b) = b.
Proof.
  intros Hb; unfold path_join, basename.
  assert (Hs : startswith (lit "/") b = false).
  { destruct b as [|c b]; [reflexivity|]; cbn [lit list_ascii_of_string startswith].
    replace (ascii_eqb "/" c) with false; [reflexivity|].
    symmetry; apply ascii_eqb_false; intro; subst; apply Hb; now left. }
  rewrite Hs.
  destruct (match a with [] => true | _ => endswith (lit "/") a end) eqn:E.
  - destruct a as [|c a].
    + cbn [app]; now rewrite basename_aux_none.
    + apply endswith_true in E; destruct E as [x Hx]; rewrite Hx.
      rewrite <- app_assoc; cbn [lit list_ascii_of_string app].
      rewrite basename_aux_slash, basename_aux_none by exact Hb; reflexivity.
  - cbn [lit list_ascii_of_string app].
    rewrite basename_aux_slash, basename_aux_none by exact Hb; reflexivity.
Qed.

(** The join of a directory and a name without a leading slash puts one
    fixed prefix before the name. *)
Lemma path_join_prefix a : exists p, forall b, startswith (lit "/") b = false -> path_join a b = p ++ b.
Proof.
  unfold path_join.
  destruct (match a with [] => true | _ => endswith (lit "/") a end).
  - exists a; intros b Hb; now rewrite Hb.
  - exists (a ++ lit "/"); intros b Hb; rewrite Hb, <- app_assoc; reflexivity.
Qed.

Lemma map_opt_none {A B} (f : A -> option B) l :
  map_opt f l = None <-> exists x, In x l /\ f x = None.
Proof.
  induction l as [|x l IH]; cbn [map_opt].
  - split; [discriminate|intros (? & [] & _)].
  - destruct (f x) eqn:E; cbn [opt_bind].
    + split.
      * intros H; destruct (map_opt f l) eqn:E2; [discriminate|].
        destruct (proj1 IH eq_refl) as (y & Hy & Hn); exists y; split; [now right|exact Hn].
      * intros (y & [<-|Hy] & Hn); [congruence|].
        rewrite (proj2 IH (ex_intro _ y (conj Hy Hn))); reflexivity.
    + split; [intros _; exists x; split; [now left|exact E]|reflexivity].
Qed.

Lemma map_opt_some {A B} (f : A -> option B) l ys :
  map_opt f l = Some ys -> Forall2 (fun x y => f x = Some y) l ys.
Proof.
  revert ys; induction l as [|x l IH]; intros ys; cbn [map_opt].
  - intros H; injection H as <-; constructor.
  - destruct (f x) eqn:E; cbn [opt_bind]; [|discriminate].
    destruct (map_opt f l) eqn:E2; cbn [opt_bind]; [|discriminate].
    intros H; injection H as <-; constructor; [exact E|now apply IH].
Qed.

Lemma map_opt_total {A B} (f : A -> option B) l :
  (forall x, In x l -> f x <> None) -> exists ys, map_opt f l = Some ys.
Proof.
  intros H; destruct (map_opt f l) eqn:E; [eauto|].
  apply map_opt_none in E; destruct E as (x & Hx & Hn); destruct (H x Hx Hn).
Qed.

(** ** Decimal digits *)

Lemma isdigit_digit_char d : d < 10 -> isdigit (digit_char d) = true.
Proof.
  intros Hd; unfold isdigit, digit_char; rewrite nat_ascii_embedding by lia.
  apply andb_true_iff; split; apply Nat.leb_le; lia.
Qed.

Lemma show_nat_digits n : forallb isdigit (show_nat n) = true.
Proof.
  induction n as [n IH] using lt_wf_ind.
  rewrite show_nat_eq; destruct (n <? 10) eqn:E.
  - cbn [forallb]; rewrite isdigit_digit_char by (apply Nat.ltb_lt; exact E); reflexivity.
  - apply Nat.ltb_ge in E; rewrite forallb_app, IH by (apply Nat.div_lt; lia); cbn [forallb].
    rewrite isdigit_digit_char by (apply Nat.mod_upper_bound; lia); reflexivity.
Qed.

Lemma show_nat_nonempty n : show_nat n <> [].
Proof.
  rewrite show_nat_eq; destruct (n <? 10); [discriminate|].
  intros H; apply app_eq_nil in H; destruct H as [_ H]; discriminate.
Qed.

Lemma show_Z_no_comma n : ~ In ","%char (show_Z n).
Proof.
  unfold show_Z; destruct (n <? 0)%Z;
    [intros [H|H]; [discriminate|revert H]|]; apply digits_not_in; auto using show_nat_digits.
Qed.

Lemma dval_zeros k ds : dval (repeat "0"%char k ++ ds) = dval ds.
Proof.
  unfold dval; rewrite fold_left_app; f_equal.
  induction k as [|k IH]; [reflexivity|]; cbn [repeat fold_left].
  exact IH.
Qed.

Lemma fmt_pad_digits w n :
  forallb isdigit (fmt_pad w (Z.of_nat n)) = true /\ fmt_pad w (Z.of_nat n) <> [] /\
  dval (fmt_pad w (Z.of_nat n)) = n.
Proof.
  rewrite fmt_pad_of_nat; unfold pad0; split; [|split].
  - rewrite forallb_app, show_nat_digits, andb_true_r.
    apply forallb_forall; intros x Hx; apply repeat_spec in Hx; now subst.
  - intros H; apply app_eq_nil in H; exact (show_nat_nonempty n (proj2 H)).
  - rewrite dval_zeros; apply dval_show_nat.
Qed.

Lemma split_join_char c ws :
  ws <> [] -> (forall w, In w ws -> ~ In c w) -> split_on c (join [c] ws) = ws.
Proof.
  induction ws as [|w ws IH]; intros Hne Hn; [congruence|].
  destruct ws as [|w' ws].
  - cbn [join]; apply split_on_none, Hn; now left.
  - change (join [c] (w :: w' :: ws)) with (w ++ c :: join [c] (w' :: ws)).
    rewrite split_on_app, split_on_none by (apply Hn; now left).
    rewrite IH; [reflexivity|discriminate|intros; apply Hn; now right].
Qed.

Lemma hd_split_on c s : hd [] (split_on c s) = s <-> ~ In c s.
Proof.
  induction s as [|x s IH]; cbn [split_on].
  - split; [intros _ []|reflexivity].
  - destruct (ascii_eqb x c) eqn:E.
    + apply ascii_eqb_true in E; subst; split; [discriminate|intros H; destruct H; now left].
    + apply ascii_eqb_false in E.
      destruct (split_on_cons_ne c s) as (w & ws & Hs); rewrite Hs in *; cbn [hd] in *.
      split.
      * intros H; injection H as H; apply IH in H; intros [H'|H']; [congruence|tauto].
      * intros H; f_equal; apply IH; intro; apply H; now right.
Qed.

Lemma strip_all p s : (forall x, In x (strip_by p s) -> p x = true) -> strip_by p s = [].
Proof.
  unfold strip_by; intros H.
  destruct (lstrip_by p (rev (lstrip_by p s))) as [|y r] eqn:E; [reflexivity|].
  exfalso.
  assert (Hy : p y = false).
  { clear H; revert E; generalize (rev (lstrip_by p s)) as u; induction u as [|z u IHu];
      cbn [lstrip_by]; [discriminate|].
    destruct (p z) eqn:Ez; [exact IHu|]. intros Hz; injection Hz as <- _; exact Ez. }
  rewrite H in Hy; [discriminate|]. rewrite <- in_rev; now left.
Qed.

(** ** [bases_mask] *)

Lemma mask_item_some rd item :
  mask_item rd = Some item ->
  exists n, py_int (num_cycles rd) = Some n /\
    item = (if str_eqb (is_indexed_read rd) (lit "N") then lit "y" else lit "I") ++ show_Z n.
Proof.
  unfold mask_item; destruct (py_int (num_cycles rd)) as [n|]; cbn [opt_bind]; [|discriminate].
  destruct (str_eqb (is_indexed_read rd) (lit "N")); [intros H; injection H as <-; eauto|].
  destruct (str_eqb (is_indexed_read rd) (lit "Y")); [intros H; injection H as <-; eauto|discriminate].
Qed.

Lemma mask_item_none rd :
  mask_item rd = None <->
  py_int (num_cycles rd) = None \/
  (is_indexed_read rd <> lit "N" /\ is_indexed_read rd <> lit "Y").
Proof.
  unfold mask_item; destruct (py_int (num_cycles rd)) as [n|]; cbn [opt_bind]; [|tauto].
  destruct (str_eqb (is_indexed_read rd) (lit "N")) eqn:EN.
  - apply str_eqb_true in EN; split; [discriminate|]. intros [H|[H _]]; [discriminate|congruence].
  - apply str_eqb_false in EN.
    destruct (str_eqb (is_indexed_read rd) (lit "Y")) eqn:EY.
    + apply str_eqb_true in EY; split; [discriminate|]. intros [H|[_ H]]; [discriminate|congruence].
    + apply str_eqb_false in EY; tauto.
Qed.

(** ** [bcl_extension] *)

(** ** Project and sample directories *)

Lemma project_prefix_no_slash : ~ In "/"%char (lit "Project_").
Proof. cbn; intuition discriminate. Qed.

Lemma sample_prefix_no_slash : ~ In "/"%char (lit "Sample_").
Proof. cbn; intuition discriminate. Qed.

Lemma no_slash_app a b : ~ In "/"%char a -> ~ In "/"%char b -> ~ In "/"%char (a ++ b).
Proof. intros Ha Hb H; apply in_app_or in H; tauto. Qed.

Lemma split_project n :
  nth_error (split_on "_" (lit "Project_" ++ n)) 1 = Some (hd [] (split_on "_" n)).
Proof.
  change (lit "Project_" ++ n) with (lit "Project" ++ "_"%char :: n).
  rewrite split_on_app; change (split_on "_" (lit "Project")) with [lit "Project"].
  cbn [app nth_error]; destruct (split_on_cons_ne "_" n) as (w & ws & ->); reflexivity.
Qed.

Lemma hd_split_prefix c s : exists t, s = hd [] (split_on c s) ++ t.
Proof.
  induction s as [|x s IH]; cbn [split_on]; [now exists []|].
  destruct (ascii_eqb x c); [now exists (x :: s)|].
  destruct (split_on_cons_ne c s) as (w & ws & Hs); rewrite Hs in *; cbn [hd] in *.
  destruct IH as [t Ht]; exists t; cbn [app]; now rewrite <- Ht.
Qed.

Lemma list_sum_perm l1 l2 : Permutation l1 l2 -> list_sum l1 = list_sum l2.
Proof. unfold list_sum; induction 1; cbn [fold_right] in *; lia. Qed.

Lemma hd_split_length_sum (ns : list str) :
  list_sum (map (@length ascii) (map (fun n => hd [] (split_on "_" n)) ns)) = list_sum (map (@length ascii) ns) ->
  forall n, In n ns -> ~ In "_"%char n.
Proof.
  unfold list_sum.
  assert (Hle : forall ns : list str, fold_right Nat.add 0 (map (@length ascii) (map (fun n => hd [] (split_on "_" n)) ns)) <=
                           fold_right Nat.add 0 (map (@length ascii) ns)).
  { clear; induction ns as [|n ns IH]; cbn [map fold_right]; [lia|].
    destruct (hd_split_prefix "_" n) as [t Ht].
    assert (length n = length (hd [] (split_on "_" n)) + length t) by (rewrite Ht at 1; apply length_app).
    lia. }
  induction ns as [|n ns IH]; cbn [map fold_right]; [intros _ _ []|].
  intros Hsum; destruct (hd_split_prefix "_" n) as [t Ht].
  specialize (Hle ns).
  assert (Hn : length n = length (hd [] (split_on "_" n)) + length t) by (rewrite Ht at 1; apply length_app).
  intros m [<-|Hm].
  - apply hd_split_on; destruct t; [now rewrite app_nil_r in Ht|cbn [length] in Hn; lia].
  - apply IH; [lia|exact Hm].
Qed.

Lemma Forall2_in_r {A B} (R : A -> B -> Prop) l1 l2 y :
  Forall2 R l1 l2 -> In y l2 -> exists x, In x l1 /\ R x y.
Proof.
  induction 1 as [|x y' l1 l2 Hr _ IH]; [intros []|intros [<-|Hy]].
  - exists x; split; [left|]; auto.
  - destruct (IH Hy) as (x' & Hx & Hr'); exists x'; split; [right|]; auto.
Qed.

(** [bases_mask] of a non-empty list of well-formed reads has exactly one
    comma-separated item per read, in order: [y<cycles>] for a read with
    [is_indexed_read = 'N'] and [I<cycles>] for one with ['Y']. *)
Theorem bases_mask_items reads :
  reads <> [] ->
  (forall rd, In rd reads -> py_int (num_cycles rd) <> None /\
                             (is_indexed_read rd = lit "N" \/ is_indexed_read rd = lit "Y")) ->
  exists m, bases_mask reads = Some m /\
    Forall2 (fun rd item => exists n, py_int (num_cycles rd) = Some n /\
               item = (if str_eqb (is_indexed_read rd) (lit "N") then lit "y" else lit "I") ++ show_Z n)
            reads (split_on ","%char m).
Proof.
  intros Hne H.
  destruct (map_opt_total mask_item reads) as [items Hi].
  { intros rd Hrd Hn; apply mask_item_none in Hn.
    destruct (H rd Hrd) as [H1 [H2|H2]]; destruct Hn as [Hn|[Hn1 Hn2]]; congruence. }
  exists (join (lit ",") items); unfold bases_mask; rewrite Hi; split; [reflexivity|].
  apply map_opt_some in Hi.
  change (lit ",") with [","%char]; rewrite split_join_char.
  - revert Hi; apply Forall2_impl; intros rd item; apply mask_item_some.
  - destruct Hi; [congruence|discriminate].
  - intros w Hw; destruct (Forall2_in_r _ _ _ _ Hi Hw) as (rd & _ & Hrd).
    destruct (mask_item_some _ _ Hrd) as (n & _ & ->).
    intros Hc; apply in_app_or in Hc; destruct Hc as [Hc|Hc]; [|exact (show_Z_no_comma n Hc)].
    destruct (str_eqb (is_indexed_read rd) (lit "N")); cbn in Hc; intuition discriminate.
Qed.

Lemma bases_mask_items_witness :
  [mkRead (lit "1") (lit "101") (lit "N"); mkRead (lit "2") (lit "6") (lit "Y")] <> [] /\
  exists m, bases_mask [mkRead (lit "1") (lit "101") (lit "N"); mkRead (lit "2") (lit "6") (lit "Y")] = Some m /\
    Forall2 (fun rd item => exists n, py_int (num_cycles rd) = Some n /\
               item = (if str_eqb (is_indexed_read rd) (lit "N") then lit "y" else lit "I") ++ show_Z n)
            [mkRead (lit "1") (lit "101") (lit "N"); mkRead (lit "2") (lit "6") (lit "Y")]
            (split_on ","%char m).
Proof.
  split; [discriminate|].
  apply bases_mask_items; [discriminate|].
  intros rd [<-|[<-|[]]]; split; try discriminate; [left|right]; reflexivity.
Defined.

(** [bases_mask] raises exactly when some read has a [num_cycles] that
    [int] rejects or an [is_indexed_read] other than ['N'] and ['Y']. *)
Theorem bases_mask_error reads :
  bases_mask reads = None <->
  exists rd, In rd reads /\
    (py_int (num_cycles rd) = None \/
     (is_indexed_read rd <> lit "N" /\ is_indexed_read rd <> lit "Y")).
Proof.
  unfold bases_mask.
  assert (E : (items <- map_opt mask_item reads ;; Some (join (lit ",") items)) = None <->
              map_opt mask_item reads = None)
    by (destruct (map_opt mask_item reads); cbn [opt_bind]; split; congruence).
  rewrite E, map_opt_none.
  split; intros (rd & Hin & H); exists rd; split; auto; apply mask_item_none; exact H.
Qed.

(** [bcl_extension]: with no file ending in [.bcl] or [.bcl.gz] it raises;
    when the files of one kind only are present it returns that kind,
    whatever the order of the directory listing. *)
Theorem bcl_extension_kind listing :
  (bcl_extension listing = None <->
   forall f, In f listing -> endswith (lit ".bcl") f = false /\ endswith (lit ".bcl.gz") f = false) /\
  ((forall f, In f listing -> endswith (lit ".bcl.gz") f = false) ->
   (exists f, In f listing /\ endswith (lit ".bcl") f = true) ->
   bcl_extension listing = Some (lit "bcl")) /\
  ((forall f, In f listing -> endswith (lit ".bcl") f = false) ->
   (exists f, In f listing /\ endswith (lit ".bcl.gz") f = true) ->
   bcl_extension listing = Some (lit "bcl.gz")).
Proof.
  induction listing as [|f r [IH1 [IH2 IH3]]]; cbn [bcl_extension].
  - split; [split; [intros _ _ []|reflexivity]|split; intros _ (f & [] & _)].
  - destruct (endswith (lit ".bcl") f) eqn:E1; [|destruct (endswith (lit ".bcl.gz") f) eqn:E2].
    + split; [split; [discriminate|intros H; destruct (H f (or_introl eq_refl)); congruence]|].
      split; [reflexivity|intros H; rewrite (H f (or_introl eq_refl)) in E1; discriminate].
    + split; [split; [discriminate|intros H; destruct (H f (or_introl eq_refl)); congruence]|].
      split; [intros H; rewrite (H f (or_introl eq_refl)) in E2; discriminate|reflexivity].
    + split; [|split].
      * rewrite IH1; split; [intros H g [<-|Hg]; [auto|exact (H g Hg)]|intros H g Hg; apply H; now right].
      * intros H (g & [<-|Hg] & Hb); [congruence|].
        apply IH2; [intros; apply H; now right|eauto].
      * intros H (g & [<-|Hg] & Hb); [congruence|].
        apply IH3; [intros; apply H; now right|eauto].
Qed.

Lemma map_opt_all_nil {A B} (g : A -> option (list B)) l :
  (forall x, In x l -> g x = Some []) -> exists ys, map_opt g l = Some ys /\ concat ys = [].
Proof.
  induction l as [|x l IH]; intros H; cbn [map_opt].
  - exists []; split; reflexivity.
  - rewrite (H x (or_introl eq_refl)); cbn [opt_bind].
    destruct IH as [ys [-> Hc]]; [intros y Hy; apply H; now right|].
    cbn [opt_bind]; exists ([] :: ys); split; [reflexivity|exact Hc].
Qed.

Lemma insert_sample_not_nil x l : insert_sample x l <> [].
Proof. destruct l as [|y l]; cbn [insert_sample]; [discriminate|destruct (str_leb _ _); discriminate]. Qed.

(** The name part of [IlluminaProject.__init__] on a directory that
    [MockIlluminaData] makes for a project. *)
Lemma mock_project_dir_name u n :
  ~ In "/"%char n -> startswith (lit "Project_") n = false ->
  (startswith (lit "Undetermined_indices") n = true -> n = lit "Undetermined_indices") ->
  (if startswith (lit "Project_") (basename (path_join u (mock_project_dir n)))
   then Some (skipn (length (lit "Project_")) (basename (path_join u (mock_project_dir n))),
              lit "Project_")
   else if str_eqb (basename (path_join u (mock_project_dir n))) (lit "Undetermined_indices")
   then Some (basename (path_join u (mock_project_dir n)), [])
   else None)
  = Some (n, if str_eqb n (lit "Undetermined_indices") then [] else lit "Project_").
Proof.
  intros Hs Hp Hu; unfold mock_project_dir; rewrite Hp; cbn [orb].
  destruct (startswith (lit "Undetermined_indices") n) eqn:E.
  - specialize (Hu eq_refl); subst n.
    rewrite basename_path_join by exact Hs; reflexivity.
  - rewrite basename_path_join by (apply no_slash_app; [exact project_prefix_no_slash|exact Hs]).
    rewrite startswith_self, skipn_length_app.
    destruct (str_eqb n (lit "Undetermined_indices")) eqn:E2; [|reflexivity].
    apply str_eqb_true in E2; subst n; vm_compute in E; discriminate E.
Qed.

(** The directory that [MockIlluminaData] makes for a project name (not
    itself prefixed with [Project_], and [Undetermined_indices] if it starts
    so), joined to any parent directory, is read by [IlluminaProject] as that
    project: whatever the directory holds, a project it gives has that
    directory, that name, the prefix [Project_] (none for
    [Undetermined_indices]) and at least one sample; and when no [Sample_]
    entry of the directory is a directory, the constructor raises. *)
Theorem IlluminaProject_mock_dir fs u n :
  ~ In "/"%char n -> startswith (lit "Project_") n = false ->
  (startswith (lit "Undetermined_indices") n = true -> n = lit "Undetermined_indices") ->
  (forall p, IlluminaProject_init fs (path_join u (mock_project_dir n)) = Some p ->
     p_dirn p = path_join u (mock_project_dir n) /\ p_name p = n /\
     p_project_prefix p = (if str_eqb n (lit "Undetermined_indices") then [] else lit "Project_") /\
     p_samples p <> []) /\
  (forall listing, fs (path_join u (mock_project_dir n)) = Some listing ->
     (forall f, In f listing -> startswith (lit "Sample_") f = true ->
        fs (path_join (path_join u (mock_project_dir n)) f) = None) ->
     IlluminaProject_init fs (path_join u (mock_project_dir n)) = None).
Proof.
  intros Hs Hp Hu; pose proof (mock_project_dir_name u n Hs Hp Hu) as Hnp.
  unfold IlluminaProject_init; cbv zeta; rewrite Hnp; cbn [opt_bind].
  split.
  - intros p; destruct (fs (path_join u (mock_project_dir n))) as [listing|]; cbn [opt_bind];
      [|discriminate].
    destruct (map_opt _ listing) as [found|]; cbn [opt_bind]; [|discriminate].
    destruct (concat found) as [|x r]; [discriminate|].
    intros H; apply (f_equal (fun o => match o with Some y => y | None => p end)) in H.
    cbv beta iota in H; subst p; cbn [p_dirn p_name p_project_prefix p_samples fst snd].
    split; [reflexivity|split; [reflexivity|split; [reflexivity|]]].
    cbn [sort_samples]; apply insert_sample_not_nil.
  - intros listing Hl Hf; rewrite Hl; cbn [opt_bind].
    match goal with |- context [map_opt ?g listing] =>
      destruct (map_opt_all_nil g listing) as [ys [-> Hc]] end.
    + intros f Hin; cbv beta.
      destruct (startswith (lit "Sample_") f) eqn:E; [rewrite (Hf f Hin E)|]; reflexivity.
    + cbn [opt_bind]; rewrite Hc; reflexivity.
Qed.

Lemma IlluminaProject_mock_dir_witness :
  IlluminaProject_init
    (fun d => if str_eqb d (lit "/data/Unaligned/Project_PJB") then Some [lit "Sample_PJB1"]
              else if str_eqb d (lit "/data/Unaligned/Project_PJB/Sample_PJB1")
              then Some [lit "PJB1_ATCACG_L001_R1_001.fastq.gz"; lit "PJB1_ATCACG_L001_R2_001.fastq.gz"]
              else None)
    (path_join (lit "/data/Unaligned") (mock_project_dir (lit "PJB")))
  = Some {| p_dirn := lit "/data/Unaligned/Project_PJB"; p_name := lit "PJB";
            p_project_prefix := lit "Project_";
            p_samples := [{| s_dirn := lit "/data/Unaligned/Project_PJB/Sample_PJB1";
                             s_name := lit "PJB1";
                             s_fastq := [lit "PJB1_ATCACG_L001_R1_001.fastq.gz";
                                         lit "PJB1_ATCACG_L001_R2_001.fastq.gz"];
                             s_paired_end := true |}];
            p_paired_end := true |} /\
  IlluminaProject_init (fun d => if str_eqb d (lit "/data/Unaligned/Project_PJB")
                                 then Some [lit "Sample_PJB1"; lit "README"] else None)
    (path_join (lit "/data/Unaligned") (mock_project_dir (lit "PJB"))) = None.
Proof.
  split; [vm_compute; reflexivity|].
  apply (proj2 (IlluminaProject_mock_dir
                  (fun d => if str_eqb d (lit "/data/Unaligned/Project_PJB")
                            then Some [lit "Sample_PJB1"; lit "README"] else None)
                  (lit "/data/Unaligned") (lit "PJB")
                  ltac:(cbn; intuition discriminate) eq_refl ltac:(discriminate))
               [lit "Sample_PJB1"; lit "README"] eq_refl).
  intros f [<-|[<-|[]]] H; [reflexivity|discriminate].
Defined.

(** The directory that [MockIlluminaData] makes for a sample name, joined to
    any parent directory, is read back by [IlluminaSample] as the name
    without its [Sample_] prefix. *)
Theorem IlluminaSample_name_mock_dir d s :
  ~ In "/"%char s ->
  IlluminaSample_name (path_join d (mock_sample_dir s)) =
    if startswith (lit "Sample_") s then skipn (length (lit "Sample_")) s else s.
Proof.
  intros Hs; unfold mock_sample_dir, IlluminaSample_name.
  destruct (startswith (lit "Sample_") s) eqn:E.
  - rewrite basename_path_join by exact Hs; reflexivity.
  - rewrite basename_path_join by (apply no_slash_app; [exact sample_prefix_no_slash|exact Hs]).
    apply skipn_length_app.
Qed.

Lemma IlluminaSample_name_mock_dir_witness :
  IlluminaSample_name (path_join (lit "/data/Project_PJB") (mock_sample_dir (lit "PJB1")))
  = lit "PJB1".
Proof. apply (IlluminaSample_name_mock_dir (lit "/data/Project_PJB") (lit "PJB1")); cbn; intuition discriminate. Defined.

(** [MockIlluminaData.projects] lists [name.split('_')[1]] of each project
    directory: for projects added under names without either prefix, the
    part of each name before its first underscore, sorted.  It lists the
    names themselves exactly when none contains an underscore. *)
Theorem mock_projects_names m ns :
  (forall n, In n ns -> startswith (lit "Project_") n = false /\
                        startswith (lit "Undetermined_indices") n = false) ->
  map fst m = map mock_project_dir ns ->
  mock_projects m = Some (py_sort (map (fun n => hd [] (split_on "_"%char n)) ns)) /\
  (mock_projects m = Some (py_sort ns) <-> forall n, In n ns -> ~ In "_"%char n).
Proof.
  intros Hns Hm.
  assert (E : mock_projects m = Some (py_sort (map (fun n => hd [] (split_on "_"%char n)) ns))).
  { unfold mock_projects, second_parts; rewrite Hm.
    assert (Hmo : map_opt (fun k => if startswith (lit "Project_") k
                                    then option_map (fun x => [x]) (nth_error (split_on "_" k) 1)
                                    else Some []) (map mock_project_dir ns)
                  = Some (map (fun n => [hd [] (split_on "_"%char n)]) ns)).
    { clear Hm; induction ns as [|n ns IH]; [reflexivity|]; cbn [map map_opt].
      destruct (Hns n (or_introl eq_refl)) as [H1 H2].
      assert (Hd : mock_project_dir n = lit "Project_" ++ n)
        by (unfold mock_project_dir; rewrite H1, H2; reflexivity).
      rewrite Hd, startswith_self, split_project; cbn [option_map opt_bind].
      rewrite IH by (intros; apply Hns; now right); reflexivity. }
    rewrite Hmo; cbn [opt_bind]; f_equal; f_equal.
    clear Hm Hmo; induction ns as [|n ns IH]; [reflexivity|]; cbn [map concat app].
    rewrite IH by (intros; apply Hns; now right); reflexivity. }
  split; [exact E|]; rewrite E; split.
  - intros H; injection H as H.
    assert (Hp : Permutation (map (fun n => hd [] (split_on "_"%char n)) ns) ns).
    { eapply Permutation_trans; [symmetry; apply py_sort_perm|].
      rewrite H; apply py_sort_perm. }
    apply hd_split_length_sum; apply list_sum_perm, Permutation_map, Hp.
  - intros H; f_equal; f_equal; rewrite <- (map_id ns) at 2; apply map_ext_in.
    intros n Hn; apply hd_split_on, H, Hn.
Qed.


Lemma mock_projects_names_witness :
  mock_projects [(lit "Project_PJB", []); (lit "Project_AB_C", [])]
    = Some (py_sort (map (fun n => hd [] (split_on "_"%char n)) [lit "PJB"; lit "AB_C"])) /\
  (mock_projects [(lit "Project_PJB", []); (lit "Project_AB_C", [])]
     = Some (py_sort [lit "PJB"; lit "AB_C"]) <->
   forall n, In n [lit "PJB"; lit "AB_C"] -> ~ In "_"%char n).
Proof.
  apply mock_projects_names; [|reflexivity].
  intros n [<-|[<-|[]]]; split; reflexivity.
Defined.

(** ** [IlluminaSample] *)

Lemma add_fastq_step smp f :
  IlluminaFastq f <> None ->
  IlluminaSample_add_fastq smp f =
  Some {| s_dirn := s_dirn smp; s_name := s_name smp;
          s_fastq := py_sort (s_fastq smp ++ [f]);
          s_paired_end := s_paired_end smp || is_read2 f |}.
Proof.
  intros Hf; unfold IlluminaSample_add_fastq.
  destruct (s_paired_end smp); [reflexivity|].
  unfold is_read2, fastq_read; destruct (IlluminaFastq f) as [fq|]; [reflexivity|congruence].
Qed.

Lemma add_fastq_fold l smp :
  py_sort (s_fastq smp) = s_fastq smp ->
  (forall f, In f l -> IlluminaFastq f <> None) ->
  fold_opt IlluminaSample_add_fastq l smp =
  Some {| s_dirn := s_dirn smp; s_name := s_name smp;
          s_fastq := py_sort (s_fastq smp ++ l);
          s_paired_end := s_paired_end smp || existsb is_read2 l |}.
Proof.
  revert smp; induction l as [|f l IH]; intros smp Hs Hl; cbn [fold_opt existsb].
  - destruct smp as [d n fqs p]; cbn in *; rewrite app_nil_r, Hs, orb_false_r; reflexivity.
  - rewrite add_fastq_step by (apply Hl; now left); cbn [opt_bind].
    rewrite IH; [|apply py_sort_idem|intros; apply Hl; now right].
    cbn [s_dirn s_name s_fastq s_paired_end]; rewrite orb_assoc; do 2 f_equal.
    apply py_sort_perm_eq.
    eapply Permutation_trans; [apply Permutation_app_tail, py_sort_perm|].
    rewrite <- app_assoc; reflexivity.
Qed.

Lemma subset_loop_ok dirn rn fp fqs acc :
  (forall f, In f fqs -> IlluminaFastq f <> None) ->
  subset_loop dirn rn fp fqs acc =
  Some (acc ++ map (fun f => if fp then path_join dirn f else f) (filter (read_selected rn) fqs)).
Proof.
  revert acc; induction fqs as [|f r IH]; intros acc H; cbn [subset_loop filter map].
  - rewrite app_nil_r; reflexivity.
  - destruct (IlluminaFastq f) as [fq|] eqn:E; [|exfalso; exact (H f (or_introl eq_refl) E)].
    cbn [opt_bind].
    assert (Hs : read_selected rn f =
                 match rn with Some k => (read_number fq =? k)%Z | None => false end)
      by (unfold read_selected, fastq_read; rewrite E; destruct rn; reflexivity).
    rewrite Hs; destruct (match rn with Some k => (read_number fq =? k)%Z | None => false end);
      cbn [map]; rewrite IH by (intros; apply H; now right);
      [rewrite <- app_assoc|]; reflexivity.
Qed.

Lemma subset_loop_none dirn rn fp fqs acc :
  subset_loop dirn rn fp fqs acc = None <-> exists f, In f fqs /\ IlluminaFastq f = None.
Proof.
  revert acc; induction fqs as [|f r IH]; intros acc; cbn [subset_loop].
  - split; [discriminate|intros (f & [] & _)].
  - destruct (IlluminaFastq f) as [fq|] eqn:E; cbn [opt_bind].
    + destruct (match rn with Some k => (read_number fq =? k)%Z | None => false end);
        rewrite IH; (split; [intros (g & Hg & Hn); exists g; split; [now right|exact Hn]
                            |intros (g & [<-|Hg] & Hn); [congruence|eauto]]).
    + split; [intros _; exists f; split; [now left|exact E]|reflexivity].
Qed.

(** [IlluminaSample(dirn)] when every [.fastq.gz] name of the directory is a
    valid Illumina fastq name: the sample is named after the directory, holds
    the [.fastq.gz] names sorted, and is paired end exactly when one of them
    is a read 2 file. *)
Theorem IlluminaSample_init_spec dirn listing :
  (forall f, In f (filter (endswith (lit ".fastq.gz")) listing) -> IlluminaFastq f <> None) ->
  IlluminaSample_init dirn listing =
  Some {| s_dirn := dirn;
          s_name := IlluminaSample_name dirn;
          s_fastq := py_sort (filter (endswith (lit ".fastq.gz")) listing);
          s_paired_end := existsb is_read2 (filter (endswith (lit ".fastq.gz")) listing) |}.
Proof.
  intros H; unfold IlluminaSample_init; rewrite add_fastq_fold by (try reflexivity; exact H).
  reflexivity.
Qed.

Lemma IlluminaSample_init_spec_witness :
  IlluminaSample_init (lit "Sample_PJB1")
    [lit "PJB1_GCCAAT_L001_R2_001.fastq.gz"; lit "SampleSheet.csv";
     lit "PJB1_GCCAAT_L001_R1_001.fastq.gz"] =
  Some {| s_dirn := lit "Sample_PJB1";
          s_name := IlluminaSample_name (lit "Sample_PJB1");
          s_fastq := py_sort (filter (endswith (lit ".fastq.gz"))
                      [lit "PJB1_GCCAAT_L001_R2_001.fastq.gz"; lit "SampleSheet.csv";
                       lit "PJB1_GCCAAT_L001_R1_001.fastq.gz"]);
          s_paired_end := existsb is_read2 (filter (endswith (lit ".fastq.gz"))
                      [lit "PJB1_GCCAAT_L001_R2_001.fastq.gz"; lit "SampleSheet.csv";
                       lit "PJB1_GCCAAT_L001_R1_001.fastq.gz"]) |}.
Proof.
  apply IlluminaSample_init_spec.
  vm_compute; intros f [<-|[<-|[]]]; discriminate.
Defined.

Lemma existsb_perm {A} (p : A -> bool) l1 l2 :
  Permutation l1 l2 -> existsb p l1 = existsb p l2.
Proof.
  induction 1; cbn [existsb]; try congruence.
  rewrite !orb_assoc, (orb_comm (p y)); reflexivity.
Qed.

(** When every [.fastq.gz] name parses, the sample built from a directory
    does not depend on the order in which [os.listdir] returns the names. *)
Theorem IlluminaSample_listing_order dirn l1 l2 :
  Permutation l1 l2 ->
  (forall f, In f (filter (endswith (lit ".fastq.gz")) l1) -> IlluminaFastq f <> None) ->
  IlluminaSample_init dirn l1 = IlluminaSample_init dirn l2.
Proof.
  intros Hp H.
  assert (Hf : Permutation (filter (endswith (lit ".fastq.gz")) l1)
                           (filter (endswith (lit ".fastq.gz")) l2))
    by (apply perm_filter, Hp).
  unfold IlluminaSample_init.
  rewrite !add_fastq_fold by (try reflexivity; intros f Hin; apply H;
                               try exact Hin; apply (Permutation_in _ (Permutation_sym Hf) Hin)).
  cbn [s_dirn s_name s_fastq s_paired_end app orb]; do 2 f_equal.
  - apply py_sort_perm_eq, Hf.
  - apply existsb_perm, Hf.
Qed.

Lemma IlluminaSample_listing_order_witness :
  IlluminaSample_init (lit "Sample_PJB1")
    [lit "PJB1_GCCAAT_L001_R2_001.fastq.gz"; lit "PJB1_GCCAAT_L001_R1_001.fastq.gz"] =
  IlluminaSample_init (lit "Sample_PJB1")
    [lit "PJB1_GCCAAT_L001_R1_001.fastq.gz"; lit "PJB1_GCCAAT_L001_R2_001.fastq.gz"].
Proof.
  apply IlluminaSample_listing_order; [apply perm_swap|].
  vm_compute; intros f [<-|[<-|[]]]; discriminate.
Defined.

(** [IlluminaSample.fastq_subset] parses every name of the sample, whatever
    the selection, and raises exactly when one does not parse.  Otherwise it
    returns, sorted, the names whose read number equals [read_number]
    (joined to the sample directory when [full_path] is set); with
    [read_number=None] this is the empty list. *)
Theorem fastq_subset_spec smp rn fp :
  (fastq_subset smp rn fp = None <-> exists f, In f (s_fastq smp) /\ IlluminaFastq f = None) /\
  ((forall f, In f (s_fastq smp) -> IlluminaFastq f <> None) ->
   fastq_subset smp rn fp =
   Some (py_sort (map (fun f => if fp then path_join (s_dirn smp) f else f)
                      (filter (read_selected rn) (s_fastq smp))))) /\
  (fastq_subset smp None fp <> None -> fastq_subset smp None fp = Some []).
Proof.
  unfold fastq_subset; split; [|split].
  - rewrite <- subset_loop_none with (dirn := s_dirn smp) (rn := rn) (fp := fp) (acc := []).
    destruct (subset_loop (s_dirn smp) rn fp (s_fastq smp) []); cbn [opt_bind]; split; congruence.
  - intros H; rewrite subset_loop_ok by exact H; reflexivity.
  - destruct (subset_loop (s_dirn smp) None fp (s_fastq smp) []) as [l|] eqn:E;
      cbn [opt_bind]; [intros _|congruence].
    assert (H : forall f, In f (s_fastq smp) -> IlluminaFastq f <> None).
    { intros f Hf Hn; assert (Hx : subset_loop (s_dirn smp) None fp (s_fastq smp) [] = None)
        by (apply subset_loop_none; eauto); congruence. }
    rewrite subset_loop_ok in E by exact H; injection E as <-.
    rewrite (filter_ext _ (fun _ => false)) by reflexivity.
    clear; induction (s_fastq smp); [reflexivity|exact IHl].
Qed.


Lemma filter_split_perm (p q : str -> bool) l :
  (forall f, In f l -> p f = negb (q f)) ->
  Permutation (filter p l ++ filter q l) l.
Proof.
  induction l as [|f l IH]; intros H; [reflexivity|]; cbn [filter].
  rewrite (H f (or_introl eq_refl)).
  assert (IH' := IH (fun g Hg => H g (or_intror Hg))).
  destruct (q f); cbn [negb app].
  - symmetry; apply Permutation_cons_app; symmetry; exact IH'.
  - constructor; exact IH'.
Qed.

(** When every fastq name of a sample is a read 1 or read 2 file, the
    subsets for read 1 and read 2 both succeed and together hold each name of
    the sample exactly once. *)
Theorem fastq_subset_reads smp :
  (forall f, In f (s_fastq smp) -> fastq_read f = Some 1%Z \/ fastq_read f = Some 2%Z) ->
  exists r1 r2, fastq_subset smp (Some 1%Z) false = Some r1 /\
                fastq_subset smp (Some 2%Z) false = Some r2 /\
                Permutation (r1 ++ r2) (s_fastq smp).
Proof.
  intros H.
  assert (Hp : forall f, In f (s_fastq smp) -> IlluminaFastq f <> None).
  { intros f Hf Hn; destruct (H f Hf) as [H1|H1]; unfold fastq_read in H1; rewrite Hn in H1;
      discriminate. }
  unfold fastq_subset; rewrite !subset_loop_ok by exact Hp; cbn [opt_bind app].
  eexists; eexists; split; [reflexivity|split; [reflexivity|]].
  rewrite !map_id.
  eapply Permutation_trans; [apply Permutation_app; apply py_sort_perm|].
  apply filter_split_perm; intros f Hf; unfold read_selected.
  destruct (H f Hf) as [-> | ->]; reflexivity.
Qed.

Lemma fastq_subset_reads_witness :
  exists r1 r2,
    fastq_subset (mkSample (lit "Sample_PJB1") (lit "PJB1")
                    [lit "PJB1_GCCAAT_L001_R1_001.fastq.gz"; lit "PJB1_GCCAAT_L001_R2_001.fastq.gz"] true)
                 (Some 1%Z) false = Some r1 /\
    fastq_subset (mkSample (lit "Sample_PJB1") (lit "PJB1")
                    [lit "PJB1_GCCAAT_L001_R1_001.fastq.gz"; lit "PJB1_GCCAAT_L001_R2_001.fastq.gz"] true)
                 (Some 2%Z) false = Some r2 /\
    Permutation (r1 ++ r2) [lit "PJB1_GCCAAT_L001_R1_001.fastq.gz"; lit "PJB1_GCCAAT_L001_R2_001.fastq.gz"].
Proof.
  apply fastq_subset_reads.
  intros f [<-|[<-|[]]]; vm_compute; [left|right]; reflexivity.
Defined.

(** For fastq names that are not absolute paths, [fastq_subset] with
    [full_path=True] is the list with [full_path=False], each name joined to
    the sample directory: sorting the full paths keeps the order of the
    names. *)
Theorem fastq_subset_full_path smp rn :
  (forall f, In f (s_fastq smp) -> startswith (lit "/") f = false) ->
  fastq_subset smp rn true = option_map (map (path_join (s_dirn smp))) (fastq_subset smp rn false).
Proof.
  intros Hs.
  destruct (subset_loop (s_dirn smp) rn false (s_fastq smp) []) as [l|] eqn:E.
  - assert (Hp : forall f, In f (s_fastq smp) -> IlluminaFastq f <> None).
    { intros f Hf Hn; assert (Hx : subset_loop (s_dirn smp) rn false (s_fastq smp) [] = None)
        by (apply subset_loop_none; eauto); congruence. }
    unfold fastq_subset; rewrite !subset_loop_ok by exact Hp; cbn [opt_bind app option_map].
    rewrite map_id; f_equal.
    destruct (path_join_prefix (s_dirn smp)) as [p Hj].
    assert (Hsel : forall f, In f (filter (read_selected rn) (s_fastq smp)) ->
                             startswith (lit "/") f = false)
      by (intros f Hf; apply filter_In in Hf; apply Hs, Hf).
    rewrite (map_ext_in _ (app p)) by (intros f Hf; apply Hj, Hsel, Hf).
    rewrite (map_ext_in (path_join (s_dirn smp)) (app p))
      by (intros f Hf; apply Hj, Hsel; apply (Permutation_in _ (py_sort_perm _) Hf)).
    apply py_sort_prefix.
  - assert (Hn : exists f, In f (s_fastq smp) /\ IlluminaFastq f = None)
      by (apply (subset_loop_none (s_dirn smp) rn false _ []), E).
    unfold fastq_subset; rewrite E.
    assert (Ht : subset_loop (s_dirn smp) rn true (s_fastq smp) [] = None)
      by (apply subset_loop_none, Hn).
    rewrite Ht; reflexivity.
Qed.

Lemma fastq_subset_full_path_witness :
  fastq_subset (mkSample (lit "/data/Project_PJB/Sample_PJB1") (lit "PJB1")
                  [lit "PJB1_GCCAAT_L001_R1_001.fastq.gz"; lit "PJB1_GCCAAT_L002_R1_001.fastq.gz"] false)
               (Some 1%Z) true =
  option_map (map (path_join (lit "/data/Project_PJB/Sample_PJB1")))
    (fastq_subset (mkSample (lit "/data/Project_PJB/Sample_PJB1") (lit "PJB1")
                     [lit "PJB1_GCCAAT_L001_R1_001.fastq.gz"; lit "PJB1_GCCAAT_L002_R1_001.fastq.gz"] false)
                  (Some 1%Z) false).
Proof.
  apply (fastq_subset_full_path
           (mkSample (lit "/data/Project_PJB/Sample_PJB1") (lit "PJB1")
              [lit "PJB1_GCCAAT_L001_R1_001.fastq.gz"; lit "PJB1_GCCAAT_L002_R1_001.fastq.gz"] false)).
  intros f [<-|[<-|[]]]; reflexivity.
Defined.


(** ** [MockIlluminaData] *)

Lemma add_sample_prev m p s :
  match dict_get (match dict_get (mock_add_sample m p s) (mock_project_dir p) with
                  | Some project => project | None => [] end) (mock_sample_dir s) with
  | Some l => l
  | None => []
  end = match mock_fastqs_in_sample m p s with Some l => l | None => [] end.
Proof.
  unfold mock_add_sample, mock_add_project, mock_fastqs_in_sample.
  destruct (dict_get m (mock_project_dir p)) as [project|] eqn:E1; cbn [opt_bind].
  - rewrite E1; destruct (dict_get project (mock_sample_dir s)) as [l|] eqn:E2.
    + rewrite E1, E2; reflexivity.
    + rewrite !dict_get_set_same; reflexivity.
  - rewrite dict_get_set_same; cbn [dict_get]; rewrite !dict_get_set_same; reflexivity.
Qed.

Lemma mock_add_fastq_get m p s f :
  mock_fastqs_in_sample (mock_add_fastq m p s f) p s =
  Some (py_sort (match mock_fastqs_in_sample m p s with Some l => l | None => [] end ++ [f])).
Proof.
  rewrite <- add_sample_prev; unfold mock_add_fastq at 1; unfold mock_fastqs_in_sample at 1.
  rewrite dict_get_set_same; cbn [opt_bind]; rewrite dict_get_set_same; reflexivity.
Qed.

Lemma fold_map {A B C} (g : A -> C -> A) (h : B -> C) l (a : A) :
  fold_left (fun a x => g a (h x)) l a = fold_left g (map h l) a.
Proof. revert a; induction l as [|x l IH]; intros a; [reflexivity|apply IH]. Qed.

Lemma mock_batch_fold pe m p s base ext lanes :
  mock_add_fastq_batch pe m p s base ext lanes =
  fold_left (fun m f => mock_add_fastq m p s f) (batch_names pe base ext lanes) m.
Proof.
  unfold mock_add_fastq_batch, batch_names; revert m.
  induction lanes as [|lane lanes IH]; intros m; [reflexivity|].
  cbn [fold_left flat_map]; rewrite fold_left_app, IH; f_equal.
  exact (fold_map (fun m f => mock_add_fastq m p s f) (batch_name base ext lane) _ _).
Qed.

Lemma mock_add_fastqs_get L m p s :
  L <> [] ->
  mock_fastqs_in_sample (fold_left (fun m f => mock_add_fastq m p s f) L m) p s =
  Some (py_sort (match mock_fastqs_in_sample m p s with Some l => l | None => [] end ++ L)).
Proof.
  revert m; induction L as [|f L IH]; intros m Hne; [congruence|].
  cbn [fold_left]; destruct L as [|g L].
  - apply mock_add_fastq_get.
  - rewrite IH by discriminate; rewrite mock_add_fastq_get.
    f_equal; apply py_sort_perm_eq.
    eapply Permutation_trans; [apply Permutation_app_tail, py_sort_perm|].
    rewrite <- app_assoc; reflexivity.
Qed.

(** After [add_fastq_batch] over a non-empty list of lanes, the sample holds
    its previous fastq names (none if it did not exist) and the names of the
    batch, one per lane and read, all sorted. *)
Theorem mock_add_fastq_batch_fastqs pe m p s base ext lanes :
  lanes <> [] ->
  mock_fastqs_in_sample (mock_add_fastq_batch pe m p s base ext lanes) p s =
  Some (py_sort (match mock_fastqs_in_sample m p s with Some l => l | None => [] end ++
                 batch_names pe base ext lanes)).
Proof.
  intros Hne; rewrite mock_batch_fold; apply mock_add_fastqs_get.
  destruct lanes as [|lane lanes]; [congruence|]; unfold batch_names; cbn [flat_map].
  destruct pe; discriminate.
Qed.

Lemma mock_add_fastq_batch_fastqs_witness :
  mock_fastqs_in_sample
    (mock_add_fastq_batch true [] (lit "PJB") (lit "PJB1") (lit "PJB1_GCCAAT") (lit "fastq.gz") [1; 2]%Z)
    (lit "PJB") (lit "PJB1") =
  Some (py_sort (match mock_fastqs_in_sample [] (lit "PJB") (lit "PJB1") with Some l => l | None => [] end ++
                 batch_names true (lit "PJB1_GCCAAT") (lit "fastq.gz") [1; 2]%Z)).
Proof. apply mock_add_fastq_batch_fastqs; discriminate. Defined.


Lemma add_sample_other_key m p s k :
  k <> mock_project_dir p -> dict_get (mock_add_sample m p s) k = dict_get m k.
Proof.
  intros Hk; unfold mock_add_sample, mock_add_project.
  destruct (dict_get m (mock_project_dir p)) as [project|] eqn:E1.
  - rewrite E1; destruct (dict_get project (mock_sample_dir s)); [reflexivity|].
    apply dict_get_set_other, Hk.
  - rewrite dict_get_set_same; cbn [dict_get].
    rewrite !dict_get_set_other by exact Hk; reflexivity.
Qed.

Lemma add_sample_other_sample m p s sd' :
  sd' <> mock_sample_dir s ->
  dict_get (match dict_get (mock_add_sample m p s) (mock_project_dir p) with
            | Some project => project | None => [] end) sd' =
  (project <- dict_get m (mock_project_dir p) ;; dict_get project sd').
Proof.
  intros Hs; unfold mock_add_sample, mock_add_project.
  destruct (dict_get m (mock_project_dir p)) as [project|] eqn:E1; cbn [opt_bind].
  - rewrite E1; destruct (dict_get project (mock_sample_dir s)) eqn:E2.
    + rewrite E1; reflexivity.
    + rewrite dict_get_set_same, dict_get_set_other by exact Hs; reflexivity.
  - rewrite dict_get_set_same; cbn [dict_get].
    rewrite dict_get_set_same; cbn [dict_set dict_get].
    destruct (str_eqb sd' (mock_sample_dir s)) eqn:E; [|reflexivity].
    unfold str_eqb in E; destruct (list_eq_dec ascii_dec sd' (mock_sample_dir s)); congruence.
Qed.

(** [MockIlluminaData.add_fastq] leaves the fastq list of every other sample
    directory unchanged: one in another project directory, or another sample
    directory of the same project. *)
Theorem mock_add_fastq_other m p s f p' s' :
  mock_project_dir p' <> mock_project_dir p \/ mock_sample_dir s' <> mock_sample_dir s ->
  mock_fastqs_in_sample (mock_add_fastq m p s f) p' s' = mock_fastqs_in_sample m p' s'.
Proof.
  intros H; unfold mock_fastqs_in_sample at 1, mock_add_fastq.
  destruct (list_eq_dec ascii_dec (mock_project_dir p') (mock_project_dir p)) as [Ep|Ep].
  - destruct H as [H|H]; [congruence|].
    rewrite Ep, dict_get_set_same; cbn [opt_bind].
    rewrite dict_get_set_other by exact H.
    unfold mock_fastqs_in_sample; rewrite Ep; apply add_sample_other_sample, H.
  - rewrite dict_get_set_other by exact Ep.
    unfold mock_fastqs_in_sample; rewrite add_sample_other_key by exact Ep; reflexivity.
Qed.

Lemma mock_add_fastq_other_witness :
  mock_fastqs_in_sample
    (mock_add_fastq [(lit "Project_PJB", [(lit "Sample_PJB2", [lit "PJB2_L001_R1_001.fastq.gz"])])]
       (lit "PJB") (lit "PJB1") (lit "PJB1_L001_R1_001.fastq.gz"))
    (lit "PJB") (lit "PJB2") =
  mock_fastqs_in_sample [(lit "Project_PJB", [(lit "Sample_PJB2", [lit "PJB2_L001_R1_001.fastq.gz"])])]
    (lit "PJB") (lit "PJB2").
Proof. apply mock_add_fastq_other; right; discriminate. Defined.


(** ** [empty_names] and [fix_illegal_names] *)

Lemma fix_chunk_blank c s : is_blank s = true -> fix_chunk c s = [].
Proof.
  unfold is_blank, fix_chunk; destruct (strip_ws s) eqn:E; [|discriminate].
  intros _; reflexivity.
Qed.

Lemma fix_fold_blank cs l :
  (is_blank (SampleID l) = true ->
   is_blank (SampleID (fold_left (fun l c => set_SampleProject (fix_chunk c (SampleProject l))
                          (set_SampleID (fix_chunk c (SampleID l)) l)) cs l)) = true) /\
  (is_blank (SampleProject l) = true ->
   is_blank (SampleProject (fold_left (fun l c => set_SampleProject (fix_chunk c (SampleProject l))
                          (set_SampleID (fix_chunk c (SampleID l)) l)) cs l)) = true).
Proof.
  revert l; induction cs as [|c cs IH]; intros l; cbn [fold_left]; [split; auto|].
  destruct (IH (set_SampleProject (fix_chunk c (SampleProject l))
                 (set_SampleID (fix_chunk c (SampleID l)) l))) as [H1 H2].
  cbn [SampleID SampleProject set_SampleID set_SampleProject] in H1, H2.
  split; intros H; [apply H1|apply H2]; rewrite fix_chunk_blank by exact H; reflexivity.
Qed.

Lemma fix_line_empty l : is_empty_name l = true -> is_empty_name (fix_line l) = true.
Proof.
  unfold is_empty_name, fix_line; intros H; apply orb_true_iff in H; apply orb_true_iff.
  destruct (fix_fold_blank illegal_characters l) as [H1 H2].
  destruct H as [H|H]; [left; apply H1, H|right; apply H2, H].
Qed.

Lemma empty_from_map f k rows i :
  (forall r, is_empty_name r = true -> is_empty_name (f r) = true) ->
  In i (empty_from k rows) -> In i (empty_from k (map f rows)).
Proof.
  intros Hf; revert k; induction rows as [|r rs IH]; intros k; cbn [empty_from map]; [auto|].
  destruct (is_empty_name r) eqn:E.
  - rewrite (Hf r E); intros [<-|H]; [now left|right; apply IH, H].
  - intros H; apply IH in H; destruct (is_empty_name (f r)); [now right|exact H].
Qed.

Lemma empty_from_nth k rows j r :
  nth_error rows j = Some r -> is_empty_name r = true -> In (k + j) (empty_from k rows).
Proof.
  revert k j; induction rows as [|r' rs IH]; intros k j Hn He; [destruct j; discriminate|].
  cbn [empty_from]; destruct j as [|j]; cbn [nth_error] in Hn.
  - injection Hn as ->; rewrite He, Nat.add_0_r; now left.
  - replace (k + S j) with (S k + j) by lia.
    destruct (is_empty_name r'); [right|]; exact (IH (S k) j Hn He).
Qed.

(** [fix_illegal_names] never clears a blank-name report: every line that
    [empty_names] lists before the repair it still lists afterwards. *)
Theorem fix_illegal_names_keeps_empty t i :
  In i (empty_names t) -> In i (empty_names (fix_illegal_names t)).
Proof.
  unfold empty_names; rewrite fix_illegal_names_map; apply empty_from_map.
  intros r Hr; destruct (is_illegal r); [apply fix_line_empty|]; exact Hr.
Qed.

Lemma fix_illegal_names_keeps_empty_witness :
  In 0 (empty_names (fix_illegal_names
    [mkRow (lit "FC1") (PyInt 1) (lit " ") [] [] [] [] [] [] (lit "A.B")])).
Proof. apply fix_illegal_names_keeps_empty; vm_compute; now left. Defined.

Lemma is_illegal_in l x : In x (SampleID l) -> In x illegal_characters -> is_illegal l = true.
Proof.
  intros H1 H2; unfold is_illegal; apply existsb_exists; exists x; split; [exact H2|].
  apply orb_true_iff; left; unfold contains; apply existsb_exists.
  exists x; split; [exact H1|apply ascii_eqb_true; reflexivity].
Qed.

Lemma fix_line_all_illegal l :
  (forall x, In x (SampleID l) -> In x illegal_characters) -> SampleID (fix_line l) = [].
Proof.
  intros H; unfold fix_line.
  assert (Hsplit : illegal_characters =
                   (lit "?()[]/\=+<>:;" ++ [ascii_of_nat 34] ++ lit "',*^|&. ") ++ [ascii_of_nat 9])
    by (rewrite <- !app_assoc; reflexivity).
  pose proof (fun x => proj1 (fix_fold_in illegal_characters l x)) as Hin.
  remember (fold_left (fun l c => set_SampleProject (fix_chunk c (SampleProject l))
                          (set_SampleID (fix_chunk c (SampleID l)) l)) illegal_characters l) as l'.
  assert (Hlast : exists l0, SampleID l' = fix_chunk (ascii_of_nat 9) (SampleID l0)).
  { rewrite Heql', Hsplit, fold_left_app; cbn [fold_left SampleID set_SampleID set_SampleProject].
    eexists; reflexivity. }
  destruct Hlast as [l0 Hl0]; rewrite Hl0; unfold fix_chunk, strip_char.
  apply strip_all; intros x Hx; apply ascii_eqb_true.
  assert (Hx' : In x (SampleID l')) by (rewrite Hl0; exact Hx).
  destruct (Hin x Hx') as [[Ha Hb]|Ha]; [exfalso; exact (Hb (H x Ha))|symmetry; exact Ha].
Qed.


(** A line whose SampleID is made only of illegal characters is left with an
    empty SampleID by [fix_illegal_names], and [empty_names] then lists it. *)
Theorem fix_illegal_names_clears t i r :
  nth_error t i = Some r -> SampleID r <> [] ->
  (forall x, In x (SampleID r) -> In x illegal_characters) ->
  exists r', nth_error (fix_illegal_names t) i = Some r' /\ SampleID r' = [] /\
             In i (empty_names (fix_illegal_names t)).
Proof.
  intros Hn Hne Hall.
  assert (Hil : is_illegal r = true).
  { destruct (SampleID r) as [|x s] eqn:E; [congruence|].
    assert (Hx : In x (SampleID r)) by (rewrite E; now left).
    exact (is_illegal_in r x Hx (Hall x (or_introl eq_refl))). }
  assert (Hr : nth_error (fix_illegal_names t) i = Some (fix_line r))
    by (rewrite fix_illegal_names_map, nth_error_map, Hn; cbn [option_map]; rewrite Hil; reflexivity).
  assert (Hid : SampleID (fix_line r) = []) by (apply fix_line_all_illegal, Hall).
  exists (fix_line r); split; [exact Hr|split; [exact Hid|]].
  apply (empty_from_nth 0 _ i (fix_line r) Hr).
  unfold is_empty_name; rewrite Hid; reflexivity.
Qed.

Lemma fix_illegal_names_clears_witness :
  exists r', nth_error (fix_illegal_names
               [mkRow (lit "FC1") (PyInt 1) (lit "??") [] [] [] [] [] [] (lit "PJB")]) 0 = Some r' /\
             SampleID r' = [] /\
             In 0 (empty_names (fix_illegal_names
               [mkRow (lit "FC1") (PyInt 1) (lit "??") [] [] [] [] [] [] (lit "PJB")])).
Proof.
  apply (fix_illegal_names_clears _ 0 (mkRow (lit "FC1") (PyInt 1) (lit "??") [] [] [] [] [] [] (lit "PJB")));
    [reflexivity|discriminate|].
  intros x [<-|[<-|[]]]; vm_compute; now left.
Defined.

(** ** [predict_output] *)

Lemma predict_line_none P l :
  predict_line P l = None <-> exists s, Lane l = PyStr s.
Proof.
  unfold predict_line, predicted_name; destruct (Lane l) as [z|s]; cbn [opt_bind].
  - split; [discriminate|intros (s & Hs); discriminate].
  - split; [intros _; eauto|reflexivity].
Qed.

(** [predict_output] raises (the [TypeError] of [%03d]) exactly when some
    line holds its lane as a string rather than an integer. *)
Theorem predict_output_type_error t :
  predict_output t = None <-> exists l s, In l t /\ Lane l = PyStr s.
Proof.
  unfold predict_output; generalize (@nil (str * list (str * list str))) as P.
  induction t as [|l t IH]; intros P; cbn [fold_opt].
  - split; [discriminate|intros (l & s & [] & _)].
  - destruct (predict_line P l) as [P'|] eqn:E; cbn [opt_bind].
    + rewrite IH; split.
      * intros (l' & s & Hl & Hs); exists l', s; split; [now right|exact Hs].
      * intros (l' & s & [<-|Hl] & Hs).
        -- assert (Hn : predict_line P l = None) by (apply predict_line_none; eauto); congruence.
        -- eauto.
    + split; [intros _|reflexivity].
      apply predict_line_none in E; destruct E as (s & Hs); exists l, s; split; [now left|exact Hs].
Qed.

Lemma dict_get_set_eqb {V} (d : list (str * V)) k k' v :
  dict_get (dict_set d k v) k' = if str_eqb k' k then Some v else dict_get d k'.
Proof.
  destruct (str_eqb k' k) eqn:E.
  - apply str_eqb_true in E; subst; apply dict_get_set_same.
  - apply dict_get_set_other; intros ->; rewrite str_eqb_refl in E; discriminate.
Qed.

Lemma predict_line_names P l P' pj sm :
  predict_line P l = Some P' ->
  predicted_names P' pj sm =
  predicted_names P pj sm ++
  match predicted_name l with
  | Some name => if str_eqb pj (lit "Project_" ++ SampleProject l) &&
                    str_eqb sm (lit "Sample_" ++ SampleID l) then [name] else []
  | None => []
  end.
Proof.
  unfold predict_line; destruct (predicted_name l) as [name|];
    cbv beta iota zeta delta [opt_bind]; [|discriminate].
  intros H; apply (f_equal (fun o => match o with Some x => x | None => P end)) in H.
  cbv beta iota in H; subst P'; unfold predicted_names.
  rewrite dict_get_set_eqb.
  destruct (str_eqb pj (lit "Project_" ++ SampleProject l)) eqn:Ep; cbn [andb];
    [|rewrite app_nil_r; reflexivity].
  apply str_eqb_true in Ep; subst pj.
  rewrite dict_get_set_eqb.
  destruct (str_eqb sm (lit "Sample_" ++ SampleID l)) eqn:Es.
  - apply str_eqb_true in Es; subst sm.
    destruct (dict_get P (lit "Project_" ++ SampleProject l)) as [S0|];
      [destruct (dict_get S0 (lit "Sample_" ++ SampleID l)) eqn:E0|];
      rewrite ?E0; cbn [dict_get]; rewrite ?dict_get_set_same; reflexivity.
  - rewrite app_nil_r.
    assert (Hne : sm <> lit "Sample_" ++ SampleID l)
      by (intros ->; rewrite str_eqb_refl in Es; discriminate).
    destruct (dict_get P (lit "Project_" ++ SampleProject l)) as [S0|];
      [destruct (dict_get S0 (lit "Sample_" ++ SampleID l)) eqn:E0|];
      cbn [dict_get]; rewrite ?dict_get_set_other by exact Hne; cbn [dict_get]; reflexivity.
Qed.


Lemma str_eqb_app q a b : str_eqb (q ++ a) (q ++ b) = str_eqb b a.
Proof.
  apply Bool.eq_iff_eq_true; rewrite !str_eqb_true; split; [|intros ->; reflexivity].
  intros H; symmetry; exact (app_inv_head q a b H).
Qed.

Lemma predict_fold_names t P0 P p s :
  fold_opt predict_line t P0 = Some P ->
  Some (predicted_names P (lit "Project_" ++ p) (lit "Sample_" ++ s)) =
  (xs <- map_opt predicted_name
           (filter (fun l => str_eqb (SampleProject l) p && str_eqb (SampleID l) s) t) ;;
   Some (predicted_names P0 (lit "Project_" ++ p) (lit "Sample_" ++ s) ++ xs)).
Proof.
  revert P0; induction t as [|l t IH]; intros P0; cbn [fold_opt filter map_opt].
  - intros H; injection H as ->; cbn [opt_bind]; rewrite app_nil_r; reflexivity.
  - destruct (predict_line P0 l) as [P1|] eqn:E1; cbn [opt_bind]; [|discriminate].
    intros H; rewrite (IH P1 H), (predict_line_names P0 l P1 _ _ E1).
    destruct (predicted_name l) as [name|] eqn:En;
      [|unfold predict_line in E1; rewrite En in E1; discriminate].
    rewrite !str_eqb_app.
    destruct (str_eqb (SampleProject l) p && str_eqb (SampleID l) s); cbn [map_opt];
      rewrite ?En; cbn [opt_bind];
      (destruct (map_opt predicted_name _); cbn [opt_bind]; [|reflexivity]);
      rewrite <- ?app_assoc; reflexivity.
Qed.

Lemma predict_fold_keys t P0 P pj :
  fold_opt predict_line t P0 = Some P -> dict_get P pj <> None ->
  dict_get P0 pj <> None \/ exists l, In l t /\ pj = lit "Project_" ++ SampleProject l.
Proof.
  revert P0; induction t as [|l t IH]; intros P0; cbn [fold_opt].
  - intros H; injection H as ->; now left.
  - destruct (predict_line P0 l) as [P1|] eqn:E1; cbn [opt_bind]; [|discriminate].
    intros H Hp; destruct (IH P1 H Hp) as [H1|(l' & Hl' & ->)];
      [|right; exists l'; split; [now right|reflexivity]].
    unfold predict_line in E1; destruct (predicted_name l); cbv beta iota zeta delta [opt_bind] in E1;
      [|discriminate].
    apply (f_equal (fun o => match o with Some x => x | None => P0 end)) in E1.
    cbv beta iota in E1; subst P1.
    rewrite dict_get_set_eqb in H1.
    destruct (str_eqb pj (lit "Project_" ++ SampleProject l)) eqn:E.
    + right; exists l; split; [now left|apply str_eqb_true, E].
    + left; exact H1.
Qed.

(** The dictionary that [predict_output] returns, looked up at
    [Project_<p>] and [Sample_<s>], lists the predicted names of the lines
    whose SampleProject is [p] and whose SampleID is [s], in sheet order; and
    its only projects are [Project_<SampleProject>] of lines of the sheet. *)
Theorem predict_output_lookup t P :
  predict_output t = Some P ->
  (forall p s,
     map_opt predicted_name
       (filter (fun l => str_eqb (SampleProject l) p && str_eqb (SampleID l) s) t) =
     Some (predicted_names P (lit "Project_" ++ p) (lit "Sample_" ++ s))) /\
  (forall pj, dict_get P pj <> None -> exists l, In l t /\ pj = lit "Project_" ++ SampleProject l).
Proof.
  intros H; split.
  - intros p s; rewrite (predict_fold_names t [] P p s H).
    destruct (map_opt predicted_name _); reflexivity.
  - intros pj Hp; destruct (predict_fold_keys t [] P pj H Hp) as [H1|H1]; [|exact H1].
    exfalso; apply H1; reflexivity.
Qed.

Lemma predict_output_lookup_witness :
  (forall p s,
     map_opt predicted_name
       (filter (fun l => str_eqb (SampleProject l) p && str_eqb (SampleID l) s)
          [mkRow (lit "FC1") (PyInt 1) (lit "PJB1") [] (lit "GCCAAT") [] [] [] [] (lit "PJB");
           mkRow (lit "FC1") (PyInt 2) (lit "PJB1") [] (lit " ") [] [] [] [] (lit "PJB")]) =
     Some (predicted_names
             (match predict_output
                [mkRow (lit "FC1") (PyInt 1) (lit "PJB1") [] (lit "GCCAAT") [] [] [] [] (lit "PJB");
                 mkRow (lit "FC1") (PyInt 2) (lit "PJB1") [] (lit " ") [] [] [] [] (lit "PJB")]
              with Some P => P | None => [] end)
             (lit "Project_" ++ p) (lit "Sample_" ++ s))) /\
  (forall pj,
     dict_get (match predict_output
                [mkRow (lit "FC1") (PyInt 1) (lit "PJB1") [] (lit "GCCAAT") [] [] [] [] (lit "PJB");
                 mkRow (lit "FC1") (PyInt 2) (lit "PJB1") [] (lit " ") [] [] [] [] (lit "PJB")]
              with Some P => P | None => [] end) pj <> None ->
     exists l, In l [mkRow (lit "FC1") (PyInt 1) (lit "PJB1") [] (lit "GCCAAT") [] [] [] [] (lit "PJB");
                     mkRow (lit "FC1") (PyInt 2) (lit "PJB1") [] (lit " ") [] [] [] [] (lit "PJB")] /\
               pj = lit "Project_" ++ SampleProject l).
Proof. apply predict_output_lookup; vm_compute; reflexivity. Defined.


(** ** Names of [add_fastq_batch] read back by [IlluminaFastq] *)

Lemma parse_convention_fields s bc l r st :
  ~ In "_"%char bc -> l <> [] -> forallb isdigit l = true -> isdigit r = true ->
  st <> [] -> forallb isdigit st = true ->
  parse_fields (split_on "_" (convention_name s bc l r st)) =
  Some {| sample_name := s;
          barcode_sequence := if str_eqb bc (lit "NoIndex") then None else Some bc;
          lane_number := Z.of_nat (dval l);
          read_number := Z.of_nat (dval [r]);
          set_number := Z.of_nat (dval st) |}.
Proof.
  intros Hbc Hl0 Hl Hr Hst0 Hst.
  rewrite convention_fields by assumption.
  set (W := split_on "_" s).
  unfold parse_fields.
  rewrite nth_from_end_app by (simpl; lia); cbn [nth_from_end length Nat.leb Nat.sub nth_error opt_bind].
  rewrite py_int_digits by auto; cbn [opt_bind].
  rewrite nth_from_end_app by (simpl; lia); cbn [nth_from_end length Nat.leb Nat.sub nth_error opt_bind].
  rewrite py_int_digits by (try discriminate; simpl; now rewrite Hr); cbn [opt_bind].
  rewrite nth_from_end_app by (simpl; lia); cbn [nth_from_end length Nat.leb Nat.sub nth_error opt_bind skipn].
  rewrite py_int_digits by auto; cbn [opt_bind].
  rewrite nth_from_end_app by (simpl; lia); cbn [nth_from_end length Nat.leb Nat.sub nth_error opt_bind].
  do 2 f_equal.
  rewrite length_app; simpl length; replace (length W + 4 - 4) with (length W) by lia.
  rewrite firstn_app_length; subst W; change (lit "_") with ["_"%char]; apply join_split.
Qed.

Lemma cut_at_dot_app a b : ~ In "."%char a -> cut_at_dot (a ++ "."%char :: b) = a.
Proof.
  induction a as [|x a IH]; intros Hn; [reflexivity|]; cbn [app cut_at_dot].
  replace (ascii_eqb x ".") with false
    by (symmetry; apply ascii_eqb_false; intros ->; apply Hn; now left).
  rewrite IH by (intros H; apply Hn; now right); reflexivity.
Qed.

Lemma show_Z_digit z : (0 <= z < 10)%Z -> show_Z z = [digit_char (Z.to_nat z)].
Proof.
  intros Hz; unfold show_Z; replace (z <? 0)%Z with false by (symmetry; apply Z.ltb_ge; lia).
  rewrite show_nat_eq; replace (Z.to_nat z <? 10) with true by (symmetry; apply Nat.ltb_lt; lia).
  reflexivity.
Qed.

Lemma batch_name_fields s bc ext lane read :
  ~ In "."%char s -> ~ In "/"%char s -> ~ In "."%char bc -> ~ In "/"%char bc ->
  ~ In "_"%char bc -> ~ In "/"%char ext -> (0 <= lane)%Z -> (0 <= read < 10)%Z ->
  IlluminaFastq (batch_name (s ++ lit "_" ++ bc) ext lane read) =
  Some {| sample_name := s;
          barcode_sequence := if str_eqb bc (lit "NoIndex") then None else Some bc;
          lane_number := lane; read_number := read; set_number := 1%Z |}.
Proof.
  intros Hs1 Hs2 Hb1 Hb2 Hb3 He Hl Hrd.
  set (r := digit_char (Z.to_nat read)).
  assert (Hr : isdigit r = true) by (apply isdigit_digit_char; lia).
  destruct (fmt_pad_digits 3 (Z.to_nat lane)) as (Hd & Hne & Hv).
  rewrite Z2Nat.id in Hd, Hne, Hv by lia.
  assert (H001 : forallb isdigit (lit "001") = true) by reflexivity.
  assert (Hb : batch_name (s ++ lit "_" ++ bc) ext lane read =
               convention_name s bc (fmt_pad 3 lane) r (lit "001") ++ "."%char :: ext)
    by (unfold batch_name, convention_name; rewrite show_Z_digit by lia;
        rewrite <- !app_assoc; reflexivity).
  unfold IlluminaFastq, base_form, basename; rewrite Hb.
  rewrite basename_aux_none.
  2:{ rewrite in_app_iff; intros [H|[H|H]]; [|discriminate|exact (He H)].
      revert H; apply not_in_convention; auto; (reflexivity || discriminate). }
  cbn [rev app]; rewrite cut_at_dot_app
    by (apply not_in_convention; auto; (reflexivity || discriminate)).
  rewrite parse_convention_fields by (auto; discriminate).
  do 2 f_equal.
  - rewrite Hv; apply Z2Nat.id; lia.
  - unfold dval; cbn [fold_left]; subst r; rewrite digit_val_char by lia.
    rewrite Nat.mul_0_l, Nat.add_0_l; apply Z2Nat.id; lia.
Qed.

(** The names that [MockIlluminaData.add_fastq_batch] makes from a base
    [<sample>_<barcode>] are read back by [IlluminaFastq]: the sample name,
    the barcode ([None] for [NoIndex]), the lane and the read number, and
    set 1, for any extension without a path separator. *)
Theorem mock_batch_name_parse s bc ext lane read :
  ~ In "."%char s -> ~ In "/"%char s -> ~ In "."%char bc -> ~ In "/"%char bc ->
  ~ In "_"%char bc -> ~ In "/"%char ext -> (0 <= lane)%Z -> (0 <= read < 10)%Z ->
  IlluminaFastq (batch_name (s ++ lit "_" ++ bc) ext lane read) =
  Some {| sample_name := s;
          barcode_sequence := if str_eqb bc (lit "NoIndex") then None else Some bc;
          lane_number := lane; read_number := read; set_number := 1%Z |}.
Proof. exact (batch_name_fields s bc ext lane read). Qed.

Lemma mock_batch_name_parse_witness :
  IlluminaFastq (batch_name (lit "PJB1" ++ lit "_" ++ lit "GCCAAT") (lit "fastq.gz") 1 2) =
  Some {| sample_name := lit "PJB1";
          barcode_sequence := if str_eqb (lit "GCCAAT") (lit "NoIndex") then None else Some (lit "GCCAAT");
          lane_number := 1; read_number := 2; set_number := 1%Z |}.
Proof.
  apply mock_batch_name_parse; try (cbn; intuition discriminate); lia.
Defined.


Lemma batch_name_suffix base ext lane read :
  exists x, batch_name base ext lane read = x ++ "."%char :: ext.
Proof.
  exists (base ++ lit "_L" ++ fmt_pad 3 lane ++ lit "_R" ++ show_Z read ++ lit "_001").
  unfold batch_name; rewrite <- !app_assoc; reflexivity.
Qed.

Section Batch.
Variables (s bc : str) (lanes : list Z).
Hypotheses (Hs1 : ~ In "."%char s) (Hs2 : ~ In "/"%char s) (Hb1 : ~ In "."%char bc)
           (Hb2 : ~ In "/"%char bc) (Hb3 : ~ In "_"%char bc)
           (Hlanes : forall lane, In lane lanes -> (0 <= lane)%Z).


Lemma batch_in f pe :
  In f (batch_names pe (s ++ lit "_" ++ bc) (lit "fastq.gz") lanes) ->
  exists lane read, In lane lanes /\ In read (mock_reads pe) /\ f = batch_name (s ++ lit "_" ++ bc) (lit "fastq.gz") lane read.
Proof.
  unfold batch_names; rewrite in_flat_map; intros (lane & Hl & Hf).
  apply in_map_iff in Hf; destruct Hf as (read & <- & Hr); eauto.
Qed.

Lemma batch_read lane read :
  In lane lanes -> (0 <= read < 10)%Z -> fastq_read (batch_name (s ++ lit "_" ++ bc) (lit "fastq.gz") lane read) = Some read.
Proof.
  intros Hl Hr; unfold fastq_read.
  rewrite batch_name_fields by (auto; cbn; intuition discriminate); reflexivity.
Qed.

Lemma mock_reads_range pe read : In read (mock_reads pe) -> (0 <= read < 10)%Z.
Proof. destruct pe; cbn; intros H; repeat destruct H as [<-|H]; try lia; destruct H. Qed.

Lemma batch_parses pe f : In f (batch_names pe (s ++ lit "_" ++ bc) (lit "fastq.gz") lanes) -> IlluminaFastq f <> None.
Proof.
  intros Hf; apply batch_in in Hf; destruct Hf as (lane & read & Hl & Hr & ->).
  pose proof (batch_read lane read Hl (mock_reads_range pe read Hr)) as H.
  unfold fastq_read in H; intros Hn; rewrite Hn in H; discriminate.
Qed.

Lemma batch_filter_lane lane reads k :
  In lane lanes -> (forall read, In read reads -> (0 <= read < 10)%Z) ->
  filter (read_selected (Some k)) (map (batch_name (s ++ lit "_" ++ bc) (lit "fastq.gz") lane) reads) =
  map (batch_name (s ++ lit "_" ++ bc) (lit "fastq.gz") lane) (filter (fun n => (n =? k)%Z) reads).
Proof.
  intros Hl Hr; induction reads as [|read reads IHr]; [reflexivity|]; cbn [map filter].
  unfold read_selected at 1; rewrite batch_read by (auto; apply Hr; now left).
  rewrite IHr by (intros; apply Hr; now right).
  destruct (read =? k)%Z; reflexivity.
Qed.

Lemma batch_filter pe k :
  filter (read_selected (Some k)) (batch_names pe (s ++ lit "_" ++ bc) (lit "fastq.gz") lanes) =
  flat_map (fun lane => map (batch_name (s ++ lit "_" ++ bc) (lit "fastq.gz") lane) (filter (fun n => (n =? k)%Z) (mock_reads pe)))
           lanes.
Proof.
  unfold batch_names.
  assert (H : forall lanes', incl lanes' lanes ->
    filter (read_selected (Some k))
      (flat_map (fun lane => map (batch_name (s ++ lit "_" ++ bc) (lit "fastq.gz") lane) (mock_reads pe)) lanes') =
    flat_map (fun lane => map (batch_name (s ++ lit "_" ++ bc) (lit "fastq.gz") lane) (filter (fun n => (n =? k)%Z) (mock_reads pe)))
      lanes').
  { induction lanes' as [|lane lanes' IH]; intros Hi; [reflexivity|].
    cbn [flat_map]; rewrite filter_app, IH by (intros x Hx; apply Hi; now right).
    f_equal; apply batch_filter_lane; [apply Hi; now left|apply mock_reads_range]. }
  apply H; intros x Hx; exact Hx.
Qed.

Lemma batch_is_read2 pe : lanes <> [] -> existsb is_read2 (batch_names pe (s ++ lit "_" ++ bc) (lit "fastq.gz") lanes) = pe.
Proof.
  intros Hne.
  destruct (existsb is_read2 (batch_names pe (s ++ lit "_" ++ bc) (lit "fastq.gz") lanes)) eqn:E.
  - apply existsb_exists in E; destruct E as (f & Hf & H2).
    apply batch_in in Hf; destruct Hf as (lane & read & Hl & Hr & ->).
    unfold is_read2 in H2; rewrite batch_read in H2 by (auto; exact (mock_reads_range pe read Hr)).
    destruct pe; [reflexivity|]; cbn in Hr; destruct Hr as [<-|[]]; discriminate.
  - destruct pe; [|reflexivity].
    assert (Hex : exists lane, In lane lanes)
      by (clear - Hne; destruct lanes; [congruence|eexists; now left]).
    destruct Hex as [lane Hl].
    assert (Hin : In (batch_name (s ++ lit "_" ++ bc) (lit "fastq.gz") lane 2) (batch_names true (s ++ lit "_" ++ bc) (lit "fastq.gz") lanes)).
    { unfold batch_names; apply in_flat_map; exists lane; split; [exact Hl|]; cbn; right; now left. }
    assert (H2 : is_read2 (batch_name (s ++ lit "_" ++ bc) (lit "fastq.gz") lane 2) = true).
    { unfold is_read2; rewrite batch_read by (auto; lia); reflexivity. }
    rewrite <- E; apply (proj2 (existsb_exists _ _)); eauto.
Qed.

Lemma batch_filter_1 pe :
  filter (read_selected (Some 1%Z)) (batch_names pe (s ++ lit "_" ++ bc) (lit "fastq.gz") lanes) =
  map (fun lane => batch_name (s ++ lit "_" ++ bc) (lit "fastq.gz") lane 1) lanes.
Proof.
  rewrite batch_filter; clear Hlanes.
  induction lanes as [|lane l IH]; [reflexivity|]; cbn [flat_map map].
  rewrite IH; destruct pe; reflexivity.
Qed.

Lemma batch_filter_2 pe :
  filter (read_selected (Some 2%Z)) (batch_names pe (s ++ lit "_" ++ bc) (lit "fastq.gz") lanes) =
  if pe then map (fun lane => batch_name (s ++ lit "_" ++ bc) (lit "fastq.gz") lane 2) lanes else [].
Proof.
  rewrite batch_filter; clear Hlanes.
  induction lanes as [|lane l IH]; [destruct pe; reflexivity|]; cbn [flat_map map].
  rewrite IH; destruct pe; reflexivity.
Qed.

End Batch.

(** The fastq files that [MockIlluminaData.add_fastq_batch] puts in a sample
    directory, listed in any order, give an [IlluminaSample] that is paired
    end exactly when the batch was; [fastq_subset] for read 1 returns the
    read 1 names of all lanes, and for read 2 the read 2 names (none for a
    single-end batch), both sorted. *)
Theorem mock_batch_IlluminaSample pe s bc lanes dirn listing :
  ~ In "."%char s -> ~ In "/"%char s -> ~ In "."%char bc -> ~ In "/"%char bc ->
  ~ In "_"%char bc -> (forall lane, In lane lanes -> (0 <= lane)%Z) -> lanes <> [] ->
  Permutation listing (batch_names pe (s ++ lit "_" ++ bc) (lit "fastq.gz") lanes) ->
  exists smp, IlluminaSample_init dirn listing = Some smp /\
    s_paired_end smp = pe /\
    fastq_subset smp (Some 1%Z) false =
      Some (py_sort (map (fun lane => batch_name (s ++ lit "_" ++ bc) (lit "fastq.gz") lane 1) lanes)) /\
    fastq_subset smp (Some 2%Z) false =
      Some (if pe then py_sort (map (fun lane => batch_name (s ++ lit "_" ++ bc) (lit "fastq.gz") lane 2) lanes)
            else []).
Proof.
  intros Hs1 Hs2 Hb1 Hb2 Hb3 Hl Hne Hp.
  assert (Hparse : forall f, In f listing -> IlluminaFastq f <> None)
    by (intros f Hf; apply (batch_parses s bc lanes Hs1 Hs2 Hb1 Hb2 Hb3 Hl pe);
        apply (Permutation_in _ Hp Hf)).
  assert (Hext : filter (endswith (lit ".fastq.gz")) listing = listing).
  { apply filter_all; intros f Hf; apply (Permutation_in _ Hp) in Hf.
    apply batch_in in Hf; destruct Hf as (lane & read & _ & _ & ->).
    destruct (batch_name_suffix (s ++ lit "_" ++ bc) (lit "fastq.gz") lane read) as [x ->].
    exact (endswith_app (lit ".fastq.gz") x). }
  unfold IlluminaSample_init; rewrite Hext.
  rewrite add_fastq_fold by (try reflexivity; exact Hparse).
  eexists; split; [reflexivity|]; cbn [s_dirn s_name s_fastq s_paired_end app orb].
  split; [rewrite (existsb_perm _ _ _ Hp); apply batch_is_read2; assumption|].
  assert (Hsorted : forall f, In f (py_sort listing) -> IlluminaFastq f <> None)
    by (intros f Hf; apply Hparse, (Permutation_in _ (py_sort_perm listing) Hf)).
  assert (HpB : Permutation (py_sort listing)
                  (batch_names pe (s ++ lit "_" ++ bc) (lit "fastq.gz") lanes))
    by (eapply Permutation_trans; [apply py_sort_perm|exact Hp]).
  unfold fastq_subset; cbn [s_dirn s_fastq]; rewrite !subset_loop_ok by exact Hsorted.
  cbn [opt_bind app]; rewrite !map_id.
  rewrite !(py_sort_perm_eq _ _ (perm_filter _ _ _ HpB)).
  rewrite batch_filter_1, batch_filter_2 by assumption.
  split; [reflexivity|destruct pe; reflexivity].
Qed.

Lemma mock_batch_IlluminaSample_witness :
  exists smp, IlluminaSample_init (lit "Sample_PJB1")
                (batch_names true (lit "PJB1" ++ lit "_" ++ lit "GCCAAT") (lit "fastq.gz") [1; 2]%Z)
              = Some smp /\
    s_paired_end smp = true /\
    fastq_subset smp (Some 1%Z) false =
      Some (py_sort (map (fun lane => batch_name (lit "PJB1" ++ lit "_" ++ lit "GCCAAT") (lit "fastq.gz") lane 1)
                         [1; 2]%Z)) /\
    fastq_subset smp (Some 2%Z) false =
      Some (if true then py_sort (map (fun lane => batch_name (lit "PJB1" ++ lit "_" ++ lit "GCCAAT")
                                                     (lit "fastq.gz") lane 2) [1; 2]%Z)
            else []).
Proof.
  apply mock_batch_IlluminaSample; try (cbn; intuition discriminate).
  - intros lane [<-|[<-|[]]]; lia.
  - reflexivity.
Defined.
